(** * churn-mlops: the decision procedures of the model lifecycle

    A shallow embedding of the four procedures of [src/churn_mlops] that
    carry decision logic, and the properties stated about them:

    - [Splitter]:  [training/train_baseline.py], [_time_split]
    - [Drift]:     [monitoring/drift.py], [_psi] and [compute_drift]
    - [Promoter]:  [training/promote_model.py], together with the metrics
                   documents written by [train_baseline] / [train_candidate]
    - [Scorer]:    [inference/batch_score.py], [_pick_as_of_date] and
                   [_write_predictions]

    Numbers.  The Python [float] that the splitter does arithmetic on
    ([test_size]) is a binary64 float ([PrimFloat]), so [int(n * (1 - t))]
    rounds as it does in Python.  Floats that are only compared (metric
    scores, risk scores) are the rationals they denote ([Q]), a missing
    value (NaN) being [None].  The drift detector, which takes logarithms,
    is modelled over the real numbers ([R]): exact arithmetic, no rounding.

    Library calls.  What the code asks of pandas (date parsing, the default
    sort of [sort_values]) is gathered in the class [Pandas] with the
    contract the library documents; everything else is defined here. *)

From Stdlib Require Import ZArith QArith Reals Lra Lia Floats.
From Stdlib Require Import Qreals.
From Stdlib Require Import String Ascii List DecimalString.
From Stdlib Require Import Sorting.Sorted Sorting.Permutation.
From Stdlib Require OrderedTypeEx.
From stdpp Require Import gmap strings list fin_maps sorting.

Set Default Proof Using "Type".

(** ** Python results and exceptions *)

Inductive Exn : Type :=
| ValueError (msg : string)
| OverflowError (msg : string)
| IndexError (msg : string)
| FileNotFoundError (msg : string)
| SameFileError (msg : string).

Inductive Result (A : Type) : Type :=
| Ok (a : A)
| Raise (e : Exn).
Arguments Ok {A} a.
Arguments Raise {A} e.

Global Instance result_bind : MBind Result := λ A B k r,
  match r with
  | Ok a => k a
  | Raise e => Raise e
  end.

(** ** Python built-ins *)

Module Py.

(** [float(n)] for an [int]: the nearest binary64 value. *)
Definition float_of_Z (z : Z) : float :=
  SF2Prim (binary_normalize prec emax z 0 false).

(** [int(x)] for a [float]: truncation toward zero; NaN and the
    infinities raise. *)
Definition int_of_float (x : float) : Result Z :=
  match Prim2SF x with
  | S754_zero _ => Ok 0%Z
  | S754_finite s m e =>
      let a := if (0 <=? e)%Z then (Z.pos m * 2 ^ e)%Z
               else (Z.pos m / 2 ^ (- e))%Z in
      Ok (if s then (- a)%Z else a)
  | S754_infinity _ =>
      Raise (OverflowError "cannot convert float infinity to integer")
  | S754_nan =>
      Raise (ValueError "cannot convert float NaN to integer")
  end.

(** [l[i]] with Python's negative indices. *)
Definition getitem {A} (l : list A) (i : Z) : Result A :=
  let j := if (i <? 0)%Z then (i + Z.of_nat (length l))%Z else i in
  if (j <? 0)%Z then Raise (IndexError "list index out of range")
  else match l !! Z.to_nat j with
       | Some a => Ok a
       | None => Raise (IndexError "list index out of range")
       end.

(** The bound [k] of a slice [l[:k]] or [l[k:]], as a position. *)
Definition slice_bound (len : nat) (k : Z) : nat :=
  let j := if (k <? 0)%Z then (k + Z.of_nat len)%Z else k in
  Z.to_nat (Z.min (Z.max j 0) (Z.of_nat len)).

Definition slice_to {A} (l : list A) (k : Z) : list A :=
  take (slice_bound (length l) k) l.
Definition slice_from {A} (l : list A) (k : Z) : list A :=
  drop (slice_bound (length l) k) l.

(** [sorted(l, key=.., reverse=..)]: Python's sort is stable and only
    asks [<] of the keys.  [insert] puts [x], which stood before all of
    [l], in front of the first element that is not smaller than it. *)
Section Sorted.
Context {A : Type} (ltb : A → A → bool).

Fixpoint insert (x : A) (l : list A) : list A :=
  match l with
  | [] => [x]
  | y :: l' => if ltb y x then y :: insert x l' else x :: y :: l'
  end.

Definition sort_stable (l : list A) : list A := foldr insert [] l.

(** With [reverse=True] the list is reversed, sorted, and reversed
    again, which keeps equal elements in their original order. *)
Definition sorted (rev : bool) (l : list A) : list A :=
  if rev then reverse (sort_stable (reverse l)) else sort_stable l.
End Sorted.

End Py.

(** ** Calendar dates and timestamps

  A pandas timestamp is a count of nanoseconds since 1970-01-01; [NaT]
  is [None].  [.dt.date] keeps the day.  Dates are day counts since
  1970-01-01, compared as integers, and printed by [isoformat]. *)

Definition Timestamp : Type := Z.
Definition Date : Type := Z.

Definition ns_per_day : Z := 86400000000000.

Definition dt_date (t : Timestamp) : Date := (t / ns_per_day)%Z.

Module Calendar.
Local Open Scope Z_scope.

(** Day count to (year, month, day) in the proleptic Gregorian calendar. *)
Definition civil_of_days (z : Z) : Z * Z * Z :=
  let z := z + 719468 in
  let era := z / 146097 in
  let doe := z - era * 146097 in
  let yoe := (doe - doe / 1460 + doe / 36524 - doe / 146096) / 365 in
  let y := yoe + era * 400 in
  let doy := doe - (365 * yoe + yoe / 4 - yoe / 100) in
  let mp := (5 * doy + 2) / 153 in
  let d := doy - (153 * mp + 2) / 5 + 1 in
  let m := if mp <? 10 then mp + 3 else mp - 9 in
  (if m <=? 2 then y + 1 else y, m, d).

Definition days_of_civil (y m d : Z) : Z :=
  let y := if m <=? 2 then y - 1 else y in
  let era := y / 400 in
  let yoe := y - era * 400 in
  let doy := (153 * (if 2 <? m then m - 3 else m + 9) + 2) / 5 + d - 1 in
  let doe := yoe * 365 + yoe / 4 - yoe / 100 + doy in
  era * 146097 + doe - 719468.

Definition digits (n : Z) : string :=
  NilZero.string_of_uint (N.to_uint (Z.to_N n)).

Definition pad (width : nat) (s : string) : string :=
  String.concat "" (repeat "0"%string (width - String.length s)) +:+ s.

(** [date.isoformat()]: YYYY-MM-DD. *)
Definition isoformat (d : Date) : string :=
  let '(y, m, dd) := civil_of_days d in
  pad 4 (digits y) +:+ "-" +:+ pad 2 (digits m) +:+ "-" +:+ pad 2 (digits dd).

(** A parser of the ISO form YYYY-MM-DD, used where a concrete one is
    needed; it yields midnight of that day. *)
Definition num (s : string) : option Z :=
  (λ u, Z.of_N (N.of_uint u)) <$> NilEmpty.uint_of_string s.

Definition parse_iso (s : string) : option Timestamp :=
  if negb (Nat.eqb (String.length s) 10) then None else
  if negb (String.eqb (substring 4 1 s) "-" && String.eqb (substring 7 1 s) "-")
  then None else
  match num (substring 0 4 s), num (substring 5 2 s), num (substring 8 2 s) with
  | Some y, Some m, Some d =>
      let z := days_of_civil y m d in
      if decide (civil_of_days z = (y, m, d)) then Some (z * ns_per_day) else None
  | _, _, _ => None
  end.
End Calendar.

(** [Timestamp.date().isoformat()], and what pandas prints for [NaT]. *)
Definition show_date (d : option Date) : string :=
  match d with
  | Some d => Calendar.isoformat d
  | None => "NaT"
  end.

(** ** What the code asks of pandas

    [to_datetime] is [pd.to_datetime] on one value: [None] where a
    column parsed with [errors="coerce"] gets [NaT], and where the scalar
    call raises.

    [sort_indexer leb keys] is the row order that [sort_values] computes
    from the key column with its default [kind="quicksort"].  pandas
    promises that order to be a rearrangement of the rows in which the
    keys are sorted; it does not promise stability ("mergesort and stable
    are the only stable algorithms"), so the position of rows with equal
    keys is left to the instance. *)

(** [DataFrame.take]: the rows at the given positions. *)
Definition take_rows {A} (indexer : list nat) (xs : list A) : list A :=
  omap (λ i, xs !! i) indexer.

Class Pandas : Type := {
  to_datetime : string → option Timestamp;
  sort_indexer : ∀ {K : Type}, (K → K → bool) → list K → list nat;
  sort_indexer_perm :
    ∀ (K : Type) (leb : K → K → bool) (keys : list K),
      sort_indexer leb keys ≡ₚ seq 0 (length keys);
  sort_indexer_sorted :
    ∀ (K : Type) (leb : K → K → bool) (keys : list K),
      (∀ a b, leb a b = true ∨ leb b a = true) →
      Sorted (λ a b, leb a b = true) (take_rows (sort_indexer leb keys) keys)
}.

(** Two sorts that meet the contract: insertion sorts over the keys paired
    with their positions.  [past x y] tells whether the key [x] moves past
    the key [y]. *)
Module Sorters.
Section Insertion.
Context {K : Type} (past : K → K → bool).

Fixpoint place (x : nat * K) (l : list (nat * K)) : list (nat * K) :=
  match l with
  | [] => [x]
  | y :: l' => if past x.2 y.2 then y :: place x l' else x :: y :: l'
  end.

Definition arrange (keys : list K) : list (nat * K) :=
  foldr place [] (imap (λ i k, (i, k)) keys).

Definition indexer (keys : list K) : list nat := (arrange keys).*1.
End Insertion.

(** A key moves past the strictly smaller ones only: equal keys keep
    their order. *)
Definition stable_past {K} (leb : K → K → bool) (x y : K) : bool :=
  negb (leb x y).

End Sorters.

Lemma take_rows_fmap {A B} (f : A → B) (indexer : list nat) (xs : list A) :
  take_rows indexer (f <$> xs) = f <$> take_rows indexer xs.
Proof.
  unfold take_rows. induction indexer as [|i indexer IH]; csimpl; [done|].
  rewrite list_lookup_fmap, IH. by destruct (xs !! i).
Qed.

Lemma take_rows_seq {A} (xs : list A) : take_rows (seq 0 (length xs)) xs = xs.
Proof.
  unfold take_rows. induction xs as [|x xs IH] using rev_ind; [done|].
  rewrite length_app. simpl. rewrite Nat.add_1_r, seq_S, omap_app. simpl.
  rewrite lookup_app_r, Nat.sub_diag by lia. simpl. f_equal.
  rewrite <- IH at 2. apply list_omap_ext.
  apply Forall2_same_length_lookup_2; [done|].
  intros i a b Ha Hb. assert (a = b) as <- by congruence.
  apply lookup_seq in Ha as [-> Hlt]. by rewrite lookup_app_l.
Qed.

Lemma take_rows_perm `{Pandas} {A K} (leb : K → K → bool) (key : A → K) (xs : list A) :
  take_rows (sort_indexer leb (key <$> xs)) xs ≡ₚ xs.
Proof.
  rewrite <- (take_rows_seq xs) at 3. unfold take_rows.
  apply omap_Permutation. rewrite sort_indexer_perm. by rewrite length_fmap.
Qed.

Lemma Sorted_of_fmap {A B} (f : A → B) (R : relation B) (l : list A) :
  Sorted R (f <$> l) → Sorted (λ a b, R (f a) (f b)) l.
Proof.
  induction l as [|a l IH]; [constructor|].
  intros [Hs Hhd]%Sorted_inv. constructor; [by apply IH|].
  destruct l; [constructor|]. apply HdRel_inv in Hhd. by constructor.
Qed.

Lemma take_rows_sorted `{Pandas} {A K} (leb : K → K → bool) (key : A → K) (xs : list A) :
  (∀ a b, leb a b = true ∨ leb b a = true) →
  Sorted (λ a b, leb (key a) (key b) = true)
         (take_rows (sort_indexer leb (key <$> xs)) xs).
Proof.
  intros Htot. apply (Sorted_of_fmap key (λ a b, leb a b = true)).
  rewrite <- take_rows_fmap. by apply sort_indexer_sorted.
Qed.

Section InsertionSorts.
Context {K : Type} (leb : K → K → bool) (past : K → K → bool).
Hypothesis past_true : ∀ x y, past x y = true → leb y x = true.
Hypothesis past_false : ∀ x y, past x y = false → leb x y = true.

Lemma place_perm (x : nat * K) l : Sorters.place past x l ≡ₚ x :: l.
Proof.
  induction l as [|y l IH]; simpl; [done|].
  destruct (past x.2 y.2); [|done]. rewrite IH. apply Permutation_swap.
Qed.

Lemma arrange_perm (keys : list K) :
  Sorters.arrange past keys ≡ₚ imap (λ i k, (i, k)) keys.
Proof.
  unfold Sorters.arrange. induction (imap _ keys) as [|x l IH]; simpl; [done|].
  by rewrite place_perm, IH.
Qed.

Lemma indexer_perm (keys : list K) :
  Sorters.indexer past keys ≡ₚ seq 0 (length keys).
Proof.
  unfold Sorters.indexer. rewrite arrange_perm, fmap_imap.
  rewrite (imap_ext _ (λ i _, i)) by done. by rewrite imap_seq_0, list_fmap_id.
Qed.

Lemma place_sorted (x : nat * K) l :
  Sorted (λ a b, leb a.2 b.2 = true) l →
  Sorted (λ a b, leb a.2 b.2 = true) (Sorters.place past x l).
Proof using past_true past_false.
  induction 1 as [|y l Hs IH Hhd]; simpl; [by repeat constructor|].
  destruct (past x.2 y.2) eqn:Hp.
  - constructor; [done|]. destruct Hhd as [|z l Hyz]; simpl.
    + constructor. by apply past_true.
    + destruct (past x.2 z.2); constructor; [done|]. by apply past_true.
  - repeat constructor; [done..|]. by apply past_false.
Qed.

Lemma arrange_sorted (keys : list K) :
  Sorted (λ a b, leb a.2 b.2 = true) (Sorters.arrange past keys).
Proof using past_true past_false.
  unfold Sorters.arrange. induction (imap _ keys) as [|x l IH]; simpl.
  - constructor.
  - by apply place_sorted.
Qed.

Lemma indexer_take (keys : list K) :
  take_rows (Sorters.indexer past keys) keys = (Sorters.arrange past keys).*2.
Proof.
  assert (Forall (λ p : nat * K, keys !! p.1 = Some p.2)
            (Sorters.arrange past keys)) as Hall.
  { rewrite arrange_perm. apply Forall_forall. intros p Hp.
    apply elem_of_lookup_imap in Hp as (i & k & -> & Hk). done. }
  unfold take_rows, Sorters.indexer.
  induction Hall as [|p l Hp _ IH]; csimpl; [done|]. by rewrite Hp, IH.
Qed.

Lemma indexer_sorted (keys : list K) :
  Sorted (λ a b, leb a b = true) (take_rows (Sorters.indexer past keys) keys).
Proof using past_true past_false.
  rewrite indexer_take.
  apply (Sorted_fmap snd (λ a b : nat * K, leb a.2 b.2 = true)); [done|].
  apply arrange_sorted.
Qed.
End InsertionSorts.

(** The two sorts as instances of the contract, with the ISO parser. *)
Program Definition pandas_stable : Pandas := {|
  to_datetime := Calendar.parse_iso;
  sort_indexer K leb := Sorters.indexer (Sorters.stable_past leb)
|}.
Next Obligation. intros. apply indexer_perm. Qed.
Next Obligation.
  intros K leb keys Htot. apply indexer_sorted; unfold Sorters.stable_past.
  - intros x y Hp. destruct (Htot x y) as [Hxy|]; [|done].
    rewrite Hxy in Hp. done.
  - intros x y Hp. by destruct (leb x y).
Qed.


(** ** Facts about the Python built-ins *)

Section PySorted.
Context {A : Type} (ltb : A → A → bool).

Lemma py_insert_perm (x : A) l : Py.insert ltb x l ≡ₚ x :: l.
Proof.
  induction l as [|y l IH]; simpl; [done|].
  destruct (ltb y x); [|done]. rewrite IH. apply Permutation_swap.
Qed.

Lemma py_sort_stable_perm l : Py.sort_stable ltb l ≡ₚ l.
Proof.
  induction l as [|x l IH]; simpl; [done|].
  unfold Py.sort_stable in *. simpl. by rewrite py_insert_perm, IH.
Qed.

Lemma py_sorted_perm rev l : Py.sorted ltb rev l ≡ₚ l.
Proof.
  unfold Py.sorted. destruct rev.
  - by rewrite reverse_Permutation, py_sort_stable_perm, reverse_Permutation.
  - apply py_sort_stable_perm.
Qed.

(** Where [<] is the strict part of a total order [R], the result is
    sorted for [R]. *)
Context (R : relation A).
Hypothesis ltb_true : ∀ x y, ltb x y = true → R x y.
Hypothesis ltb_false : ∀ x y, ltb x y = false → R y x.

Lemma py_insert_sorted (x : A) l : Sorted R l → Sorted R (Py.insert ltb x l).
Proof using ltb_true ltb_false.
  induction 1 as [|y l Hs IH Hhd]; simpl; [by repeat constructor|].
  destruct (ltb y x) eqn:Hyx.
  - constructor; [done|]. destruct Hhd as [|z l Hyz]; simpl.
    + constructor. by apply ltb_true.
    + destruct (ltb z x); constructor; [done|]. by apply ltb_true.
  - repeat constructor; [done..|]. by apply ltb_false.
Qed.

Lemma py_sort_stable_sorted l : Sorted R (Py.sort_stable ltb l).
Proof using ltb_true ltb_false.
  induction l as [|x l IH]; [constructor|]. by apply py_insert_sorted.
Qed.
End PySorted.

Lemma getitem_Ok {A} (l : list A) (i : Z) (a : A) :
  (0 ≤ i)%Z → l !! Z.to_nat i = Some a → Py.getitem l i = Ok a.
Proof.
  intros Hi Ha. unfold Py.getitem.
  destruct (Z.ltb_spec i 0); [lia|]. destruct (Z.ltb_spec i 0); [lia|].
  by rewrite Ha.
Qed.

Lemma StronglySorted_lookup {A} (R : relation A) (l : list A) i j a b :
  StronglySorted R l → l !! i = Some a → l !! j = Some b → i < j → R a b.
Proof.
  intros Hs. revert i j. induction Hs as [|x l Hs IH Hall]; intros i j Ha Hb Hij.
  - by rewrite lookup_nil in Ha.
  - destruct j as [|j]; [lia|]. destruct i as [|i]; simpl in *.
    + injection Ha as ->. eapply Forall_lookup_1 in Hall; eauto.
    + eapply IH; eauto. lia.
Qed.

(** In a sorted list of distinct integers, later entries are larger. *)
Lemma sorted_distinct_lookup (l : list Z) i j a b :
  Sorted Z.le l → NoDup l → l !! i = Some a → l !! j = Some b → i < j → (a < b)%Z.
Proof.
  intros Hs Hnd Ha Hb Hij.
  assert (a ≤ b)%Z.
  { eapply (StronglySorted_lookup Z.le); eauto.
    apply Sorted_StronglySorted; [|done]. intros ???; lia. }
  assert (a ≠ b).
  { intros ->. pose proof (NoDup_lookup _ _ _ _ Hnd Ha Hb). lia. }
  lia.
Qed.

(** ** Tables with an [as_of_date] column

    A row of a table: its index label, its [as_of_date] cell and the
    other columns.  [D] is [string] as read from the CSV file and
    [Timestamp] once the column is parsed and its [NaT] rows dropped. *)
Record Row (D P : Type) : Type := mkRow {
  label : nat;
  as_of_date : D;
  fields : P
}.
Arguments mkRow {D P} _ _ _.
Arguments label {D P} _.
Arguments as_of_date {D P} _.
Arguments fields {D P} _.

Record DataFrame (P : Type) : Type := mkFrame {
  has_as_of_date : bool;   (* "as_of_date" in df.columns *)
  rows : list (Row string P)
}.
Arguments mkFrame {P} _ _.
Arguments has_as_of_date {P} _.
Arguments rows {P} _.

(** [Series.unique()]: the distinct values in order of first appearance. *)
Definition unique {A} `{EqDecision A} (l : list A) : list A :=
  reverse (remove_dups (reverse l)).

Lemma elem_of_unique {A} `{EqDecision A} (l : list A) x : x ∈ unique l ↔ x ∈ l.
Proof.
  unfold unique.
  by rewrite reverse_Permutation, elem_of_remove_dups, reverse_Permutation.
Qed.

Lemma NoDup_unique {A} `{EqDecision A} (l : list A) : NoDup (unique l).
Proof.
  unfold unique. rewrite reverse_Permutation. apply NoDup_remove_dups.
Qed.

(** * Splitter: [training/train_baseline.py] *)

Module Splitter.

Section Split.
Context `{Pandas} {P : Type}.

(** [d["as_of_date"] = pd.to_datetime(d["as_of_date"], errors="coerce")]
    followed by [d.dropna(subset=["as_of_date"])]. *)
Definition parse_dropna (rs : list (Row string P)) : list (Row Timestamp P) :=
  omap (λ r, (λ t, mkRow (label r) t (fields r)) <$> to_datetime (as_of_date r)) rs.

(** [.reset_index(drop=True)] *)
Definition reset_index {D} (rs : list (Row D P)) : list (Row D P) :=
  imap (λ i r, mkRow i (as_of_date r) (fields r)) rs.

Definition parsed (df : DataFrame P) : list (Row Timestamp P) :=
  reset_index (parse_dropna (rows df)).

Definition row_date (r : Row Timestamp P) : Date := dt_date (as_of_date r).


(** [sorted(d["as_of_date"].dt.date.unique().tolist())] *)
Definition dates_of (d : list (Row Timestamp P)) : list Date :=
  Py.sorted Z.ltb false (unique (row_date <$> d)).

Definition split_dates (df : DataFrame P) : list Date := dates_of (parsed df).

(** [d.sort_values("as_of_date")] *)
Definition sort_by_date (d : list (Row Timestamp P)) : list (Row Timestamp P) :=
  take_rows (sort_indexer Z.leb (as_of_date <$> d)) d.

(** [int(n * (1 - test_size))] *)
Definition scaled (n : nat) (test_size : float) : Result Z :=
  Py.int_of_float (PrimFloat.mul (Py.float_of_Z (Z.of_nat n)) (PrimFloat.sub 1 test_size)).

Definition _time_split (df : DataFrame P) (test_size : float)
  : Result (list (Row Timestamp P) * list (Row Timestamp P)) :=
  if negb (has_as_of_date df) then
    Raise (ValueError "training_dataset must contain 'as_of_date' for time-aware split")
  else
    let d := parsed df in
    let dates := dates_of d in
    if (length dates <? 5)%nat then
      let d := sort_by_date d in
      cutoff_idx ← scaled (length d) test_size;
      Ok (Py.slice_to d cutoff_idx, Py.slice_from d cutoff_idx)
    else
      cut_at ← scaled (length dates) test_size;
      let cut_at := Z.max 1 (Z.min cut_at (Z.of_nat (length dates) - 1)) in
      cutoff_date ← Py.getitem dates (cut_at - 1);
      let train_df := filter (λ r, (row_date r ≤ cutoff_date)%Z) d in
      let test_df := filter (λ r, (cutoff_date < row_date r)%Z) d in
      Ok (train_df, test_df).

End Split.

Section SplitFacts.
Context `{Pandas} {P : Type}.
Implicit Types (df : DataFrame P) (d : list (Row Timestamp P)).

Lemma elem_of_dates_of d x : x ∈ dates_of d ↔ ∃ r, r ∈ d ∧ row_date r = x.
Proof.
  unfold dates_of. rewrite py_sorted_perm, elem_of_unique, list_elem_of_fmap.
  split; [intros (r & -> & Hr) | intros (r & Hr & <-)]; eauto.
Qed.

Lemma NoDup_dates_of d : NoDup (dates_of d).
Proof. unfold dates_of. rewrite py_sorted_perm. apply NoDup_unique. Qed.

Lemma Sorted_dates_of d : Sorted Z.le (dates_of d).
Proof.
  unfold dates_of, Py.sorted. apply py_sort_stable_sorted.
  - intros x y Hlt. apply Z.ltb_lt in Hlt. lia.
  - intros x y Hlt. apply Z.ltb_ge in Hlt. lia.
Qed.

(** The primary path: with five or more distinct dates the result is the
    pair of date filters around the cutoff, which is the entry of the
    sorted date list just before the clamped cut position. *)
Lemma time_split_primary df test_size train test :
  5 ≤ length (split_dates df) →
  _time_split df test_size = Ok (train, test) →
  ∃ (k : Z) (c : nat) (cutoff : Date),
    scaled (length (split_dates df)) test_size = Ok k ∧
    1 ≤ c ∧ S c ≤ length (split_dates df) ∧
    split_dates df !! (c - 1) = Some cutoff ∧
    train = filter (λ r, (row_date r ≤ cutoff)%Z) (parsed df) ∧
    test = filter (λ r, (cutoff < row_date r)%Z) (parsed df).
Proof.
  intros Hn. unfold _time_split, split_dates in *.
  destruct (has_as_of_date df); simpl; [|done].
  destruct (Nat.ltb_spec (length (dates_of (parsed df))) 5) as [|_]; [lia|].
  destruct (scaled _ test_size) as [k|e]; simpl; [|done].
  set (n := length (dates_of (parsed df))) in *.
  set (cut := Z.max 1 (Z.min k (Z.of_nat n - 1))).
  assert (1 ≤ cut ≤ Z.of_nat n - 1)%Z as Hcut by (unfold cut; lia).
  destruct (lookup_lt_is_Some_2 (dates_of (parsed df)) (Z.to_nat (cut - 1)))
    as [cutoff Hcutoff]; [fold n; lia|].
  rewrite (getitem_Ok _ _ cutoff) by (done || lia). simpl.
  intros [= <- <-]. exists k, (Z.to_nat cut), cutoff.
  split_and!; try done; try lia.
  by replace (Z.to_nat cut - 1) with (Z.to_nat (cut - 1)) by lia.
Qed.

(** The split returns whenever the column is there and [int()] accepts
    the scaled count (it refuses NaN and the infinities only). *)
Lemma time_split_returns df test_size k :
  has_as_of_date df = true →
  5 ≤ length (split_dates df) →
  scaled (length (split_dates df)) test_size = Ok k →
  ∃ train test, _time_split df test_size = Ok (train, test).
Proof.
  intros Hcol Hn Hk. unfold _time_split, split_dates in *. rewrite Hcol. simpl.
  destruct (Nat.ltb_spec (length (dates_of (parsed df))) 5) as [|_]; [lia|].
  rewrite Hk. simpl.
  set (n := length (dates_of (parsed df))) in *.
  set (cut := Z.max 1 (Z.min k (Z.of_nat n - 1))).
  assert (1 ≤ cut ≤ Z.of_nat n - 1)%Z as Hcut by (unfold cut; lia).
  destruct (lookup_lt_is_Some_2 (dates_of (parsed df)) (Z.to_nat (cut - 1)))
    as [cutoff Hcutoff]; [fold n; lia|].
  rewrite (getitem_Ok _ _ cutoff) by (done || lia). simpl. eauto.
Qed.

(** The fallback path: with fewer than five distinct dates the result is
    the positional cut of the date-sorted rows. *)
Lemma time_split_fallback df test_size train test :
  length (split_dates df) < 5 →
  _time_split df test_size = Ok (train, test) →
  ∃ k : Z,
    scaled (length (parsed df)) test_size = Ok k ∧
    train = Py.slice_to (sort_by_date (parsed df)) k ∧
    test = Py.slice_from (sort_by_date (parsed df)) k.
Proof.
  intros Hn. unfold _time_split, split_dates in *.
  destruct (has_as_of_date df); simpl; [|done].
  destruct (Nat.ltb_spec (length (dates_of (parsed df))) 5) as [_|]; [|lia].
  assert (length (sort_by_date (parsed df)) = length (parsed df)) as ->.
  { unfold sort_by_date. by rewrite take_rows_perm. }
  destruct (scaled _ test_size) as [k|e]; simpl; [|done].
  intros [= <- <-]. eauto.
Qed.

(** C1.  For a table with at least five distinct parseable dates, the
    split that [_time_split] returns is ordered in time around one of the
    table's dates, the cutoff: every train row is dated on or before it,
    every evaluation row strictly after it, so every train row is dated
    strictly before every evaluation row, and no row is in both parts. *)
Theorem time_split_temporal_order df test_size train test :
  5 ≤ length (split_dates df) →
  _time_split df test_size = Ok (train, test) →
  ∃ cutoff : Date,
    cutoff ∈ split_dates df ∧
    (∀ r, r ∈ train → (row_date r ≤ cutoff)%Z) ∧
    (∀ r, r ∈ test → (cutoff < row_date r)%Z) ∧
    (∀ r1 r2, r1 ∈ train → r2 ∈ test → (row_date r1 < row_date r2)%Z) ∧
    (∀ r, r ∈ train → r ∉ test).
Proof.
  intros Hn Hsplit.
  destruct (time_split_primary _ _ _ _ Hn Hsplit)
    as (k & c & cutoff & _ & _ & _ & Hcutoff & -> & ->).
  exists cutoff. split_and!.
  - by eapply list_elem_of_lookup_2.
  - by intros r [? _]%list_elem_of_filter.
  - by intros r [? _]%list_elem_of_filter.
  - intros r1 r2 [? _]%list_elem_of_filter [? _]%list_elem_of_filter. lia.
  - intros r [? _]%list_elem_of_filter [? _]%list_elem_of_filter. lia.
Qed.

(** C7, as the code has it.  On the primary path (five or more distinct
    dates) both parts of the returned split are non-empty, whatever the
    test fraction.  On the fallback path the parts are the first
    [int(rows * (1 - test_size))] rows of the date-sorted table and the
    rest, as Python slices them; nothing keeps either from being empty. *)
Theorem time_split_nonempty df test_size train test :
  _time_split df test_size = Ok (train, test) →
  (5 ≤ length (split_dates df) → train ≠ [] ∧ test ≠ []) ∧
  (length (split_dates df) < 5 →
   ∃ k : Z, scaled (length (parsed df)) test_size = Ok k ∧
     length train = Py.slice_bound (length (parsed df)) k ∧
     length test = length (parsed df) - Py.slice_bound (length (parsed df)) k).
Proof.
  intros Hsplit. split; intros Hn.
  - destruct (time_split_primary _ _ _ _ Hn Hsplit)
      as (k & c & cutoff & _ & Hc1 & Hc2 & Hcutoff & -> & ->).
    destruct (lookup_lt_is_Some_2 (split_dates df) c) as [next Hnext]; [lia|].
    assert (cutoff < next)%Z as Hlt.
    { eapply (sorted_distinct_lookup (split_dates df) (c - 1) c); eauto.
      - apply Sorted_dates_of.
      - apply NoDup_dates_of.
      - lia. }
    apply list_elem_of_lookup_2, elem_of_dates_of in Hcutoff as (r1 & Hr1 & Hd1).
    apply list_elem_of_lookup_2, elem_of_dates_of in Hnext as (r2 & Hr2 & Hd2).
    split; intros Hnil.
    + assert (r1 ∈ filter (λ r, (row_date r ≤ cutoff)%Z) (parsed df)) as Hin
        by (apply list_elem_of_filter; split; [lia|done]).
      rewrite Hnil in Hin. by apply not_elem_of_nil in Hin.
    + assert (r2 ∈ filter (λ r, (cutoff < row_date r)%Z) (parsed df)) as Hin
        by (apply list_elem_of_filter; split; [lia|done]).
      rewrite Hnil in Hin. by apply not_elem_of_nil in Hin.
  - destruct (time_split_fallback _ _ _ _ Hn Hsplit) as (k & Hk & -> & ->).
    exists k. split; [done|].
    assert (length (sort_by_date (parsed df)) = length (parsed df)) as Hlen.
    { unfold sort_by_date. by rewrite take_rows_perm. }
    assert (Py.slice_bound (length (parsed df)) k ≤ length (parsed df))
      by (unfold Py.slice_bound; lia).
    unfold Py.slice_to, Py.slice_from.
    rewrite length_take, length_drop, Hlen. lia.
Qed.

(** On the primary path every parsed row lands in one of the two parts. *)
Lemma time_split_partition df test_size train test :
  5 ≤ length (split_dates df) →
  _time_split df test_size = Ok (train, test) →
  train ++ test ≡ₚ parsed df.
Proof.
  intros Hn Hsplit.
  destruct (time_split_primary _ _ _ _ Hn Hsplit)
    as (k & c & cutoff & _ & _ & _ & _ & -> & ->).
  clear. induction (parsed df) as [|r d IH]; [done|].
  rewrite !filter_cons. repeat case_decide; try lia; simpl.
  - by rewrite IH.
  - by rewrite <- Permutation_middle, IH.
Qed.

End SplitFacts.

(** A table of eight rows over six days, one cell unparseable. *)
Definition week : DataFrame unit :=
  mkFrame true
    (imap (λ i s, mkRow i s ())
       ["2026-01-01"; "2026-01-02"; "2026-01-03"; "not a date";
        "2026-01-04"; "2026-01-05"; "2026-01-06"; "2026-01-03"]%string).

Definition week_split : list (Row Timestamp unit) * list (Row Timestamp unit) :=
  Eval vm_compute in
    match _time_split (H:=pandas_stable) week 0.25 with
    | Ok s => s
    | Raise _ => ([], [])
    end.

Lemma time_split_temporal_order_witness :
  ∃ cutoff : Date,
    cutoff ∈ split_dates (H:=pandas_stable) week ∧
    (∀ r, r ∈ week_split.1 → (row_date r ≤ cutoff)%Z) ∧
    (∀ r, r ∈ week_split.2 → (cutoff < row_date r)%Z) ∧
    (∀ r1 r2, r1 ∈ week_split.1 → r2 ∈ week_split.2 →
              (row_date r1 < row_date r2)%Z) ∧
    (∀ r, r ∈ week_split.1 → r ∉ week_split.2).
Proof.
  apply (time_split_temporal_order (H:=pandas_stable) week 0.25).
  - vm_compute. lia.
  - vm_compute. reflexivity.
Defined.

Lemma time_split_nonempty_witness : week_split.1 ≠ [] ∧ week_split.2 ≠ [].
Proof.
  apply (time_split_nonempty (H:=pandas_stable) week 0.25).
  - vm_compute. reflexivity.
  - vm_compute. lia.
Defined.

(** Two rows on two days and a test fraction of three quarters: the
    fallback path cuts at [int(2 * 0.25) = 0], and the train part is
    empty although the table has two distinct dates. *)
Definition two_days : DataFrame unit :=
  mkFrame true
    (imap (λ i s, mkRow i s ()) ["2026-01-01"; "2026-01-02"]%string).

Lemma time_split_fallback_empty_train :
  length (split_dates (H:=pandas_stable) two_days) = 2 ∧
  PrimFloat.ltb 0 0.75 = true ∧ PrimFloat.ltb 0.75 1 = true ∧
  ∃ test, test ≠ [] ∧
    _time_split (H:=pandas_stable) two_days 0.75 = Ok ([], test).
Proof.
  split_and!; [reflexivity..|]. eexists. split; [|vm_compute; reflexivity]. done.
Qed.

(** Three rows on two days and a test fraction of one half: the
    positional cut of the fallback path falls inside the first day, which
    then has a row in either part. *)
Example time_split_fallback_overlap :
  _time_split (H:=pandas_stable)
    (mkFrame true
       (imap (λ i s, mkRow i s ()) ["2026-01-02"; "2026-01-01"; "2026-01-01"]%string))
    0.5
  = Ok ([mkRow 1 1767225600000000000%Z ()],
        [mkRow 2 1767225600000000000%Z (); mkRow 0 1767312000000000000%Z ()]).
Proof. vm_compute. reflexivity. Qed.

(** ** Further properties of [_time_split] *)

Lemma Sorted_impl {A} (R R' : relation A) (l : list A) :
  (∀ a b, R a b → R' a b) → Sorted R l → Sorted R' l.
Proof.
  intros HR. induction 1 as [|a l Hs IH Hhd]; constructor; [done|].
  destruct Hhd; constructor. by apply HR.
Qed.

Section SplitMore.
Context `{Pandas} {P : Type}.
Implicit Types (df : DataFrame P) (d : list (Row Timestamp P)).

(** The rows of the table whose date parses, each with its parsed date
    and its other columns. *)
Definition parseable df : list (Timestamp * P) :=
  omap (λ r, (λ t, (t, fields r)) <$> to_datetime (as_of_date r)) (rows df).

Lemma parsed_parseable df :
  (λ r, (as_of_date r, fields r)) <$> parsed df = parseable df.
Proof.
  unfold parsed, reset_index, parse_dropna, parseable.
  rewrite fmap_imap, (imap_ext _ (const (λ r, (as_of_date r, fields r)))) by done.
  rewrite imap_const, list_fmap_omap. apply list_omap_ext, Forall2_same_length_lookup_2; [done|].
  intros i r r' Hr Hr'. assert (r = r') as <- by congruence.
  by destruct (to_datetime (as_of_date r)).
Qed.

Lemma sort_by_date_strongly_sorted d :
  StronglySorted (λ r1 r2, (as_of_date r1 ≤ as_of_date r2)%Z) (sort_by_date d).
Proof.
  apply Sorted_StronglySorted; [intros ???; lia|]. unfold sort_by_date.
  eapply Sorted_impl; [|apply (take_rows_sorted Z.leb as_of_date)].
  - intros r1 r2 Hle. simpl in Hle. by apply Z.leb_le.
  - intros a b. destruct (Z.le_ge_cases a b); [left|right]; apply Z.leb_le; lia.
Qed.

(** The primary path with the cut position spelled out. *)
Lemma time_split_primary_cut df test_size train test :
  5 ≤ length (split_dates df) →
  _time_split df test_size = Ok (train, test) →
  ∃ (k : Z) (cutoff : Date),
    scaled (length (split_dates df)) test_size = Ok k ∧
    let c := Z.to_nat (Z.max 1 (Z.min k (Z.of_nat (length (split_dates df)) - 1))) in
    1 ≤ c ∧ S c ≤ length (split_dates df) ∧
    split_dates df !! (c - 1) = Some cutoff ∧
    train = filter (λ r, (row_date r ≤ cutoff)%Z) (parsed df) ∧
    test = filter (λ r, (cutoff < row_date r)%Z) (parsed df).
Proof.
  intros Hn. unfold _time_split, split_dates in *.
  destruct (has_as_of_date df); simpl; [|done].
  destruct (Nat.ltb_spec (length (dates_of (parsed df))) 5) as [|_]; [lia|].
  destruct (scaled _ test_size) as [k|e]; simpl; [|done].
  set (n := length (dates_of (parsed df))) in *.
  set (cut := Z.max 1 (Z.min k (Z.of_nat n - 1))).
  assert (1 ≤ cut ≤ Z.of_nat n - 1)%Z as Hcut by (unfold cut; lia).
  destruct (lookup_lt_is_Some_2 (dates_of (parsed df)) (Z.to_nat (cut - 1)))
    as [cutoff Hcutoff]; [fold n; lia|].
  rewrite (getitem_Ok _ _ cutoff) by (done || lia). simpl.
  intros [= <- <-]. exists k, cutoff. fold cut.
  split_and!; try done; try lia.
  by replace (Z.to_nat cut - 1) with (Z.to_nat (cut - 1)) by lia.
Qed.

(** The distinct dates of the rows up to a date and after it are the
    front and the back of the sorted list of all dates. *)
Lemma dates_of_filter_le d (c : nat) (cutoff : Date) :
  dates_of d !! (c - 1) = Some cutoff → 1 ≤ c →
  dates_of (filter (λ r, (row_date r ≤ cutoff)%Z) d) = take c (dates_of d) ∧
  dates_of (filter (λ r, (cutoff < row_date r)%Z) d) = drop c (dates_of d).
Proof.
  intros Hcut Hc.
  pose proof (Sorted_dates_of d) as Hs. pose proof (NoDup_dates_of d) as Hnd.
  assert (∀ i (x : Date), dates_of d !! i = Some x → (x ≤ cutoff)%Z ↔ i < c) as Hpos.
  { intros i x Hx. split; intros Hle.
    - destruct (decide (i < c)) as [|Hge]; [done|].
      assert (c - 1 < i) by lia.
      pose proof (sorted_distinct_lookup _ _ _ _ _ Hs Hnd Hcut Hx). lia.
    - destruct (decide (i = c - 1)) as [->|].
      { rewrite Hcut in Hx. injection Hx as <-. lia. }
      assert (i < c - 1) by lia.
      pose proof (sorted_distinct_lookup _ _ _ _ _ Hs Hnd Hx Hcut). lia. }
  assert (StronglySorted Z.le (dates_of d)) as Hss
    by (apply Sorted_StronglySorted; [intros ???; lia|done]).
  rewrite <- (take_drop c (dates_of d)) in Hss, Hnd.
  split.
  - apply (StronglySorted_unique Z.le).
    + apply Sorted_StronglySorted; [intros ???; lia|apply Sorted_dates_of].
    + by apply StronglySorted_app_1_l in Hss.
    + apply NoDup_Permutation; [apply NoDup_dates_of|by apply NoDup_app in Hnd as [? _]|].
      intros x. rewrite elem_of_dates_of. split.
      * intros (r & [Hle Hr]%list_elem_of_filter & <-).
        assert (row_date r ∈ dates_of d) as [i Hi]%list_elem_of_lookup
          by (apply elem_of_dates_of; eauto).
        apply list_elem_of_lookup. exists i. rewrite lookup_take_lt; [done|].
        by apply (Hpos i (row_date r)).
      * intros [i Hi]%list_elem_of_lookup.
        apply lookup_take_Some in Hi as [Hi Hlt].
        pose proof (list_elem_of_lookup_2 _ _ _ Hi) as (r & Hr & <-)%elem_of_dates_of.
        exists r. split; [|done]. apply list_elem_of_filter. split; [|done].
        by apply (Hpos i).
  - apply (StronglySorted_unique Z.le).
    + apply Sorted_StronglySorted; [intros ???; lia|apply Sorted_dates_of].
    + by apply StronglySorted_app_1_r in Hss.
    + apply NoDup_Permutation; [apply NoDup_dates_of|by apply NoDup_app in Hnd as (_ & _ & ?)|].
      intros x. rewrite elem_of_dates_of. split.
      * intros (r & [Hlt Hr]%list_elem_of_filter & <-).
        assert (row_date r ∈ dates_of d) as [i Hi]%list_elem_of_lookup
          by (apply elem_of_dates_of; eauto).
        apply list_elem_of_lookup. exists (i - c). rewrite lookup_drop.
        assert (¬ i < c) by (rewrite <- (Hpos i (row_date r)) by done; lia).
        by replace (c + (i - c)) with i by lia.
      * intros [i Hi]%list_elem_of_lookup. rewrite lookup_drop in Hi.
        pose proof (list_elem_of_lookup_2 _ _ _ Hi) as (r & Hr & <-)%elem_of_dates_of.
        exists r. split; [|done]. apply list_elem_of_filter. split; [|done].
        assert (¬ (row_date r ≤ cutoff)%Z) by (rewrite (Hpos (c + i)) by done; lia).
        lia.
Qed.

(** X1.  Whatever the path, the two parts together are exactly the rows
    whose date parses, each once, with its parsed date and its other
    columns: no row is lost or repeated, and the rows whose date does not
    parse are in neither part. *)
Theorem time_split_conserves df test_size train test :
  _time_split df test_size = Ok (train, test) →
  train ++ test ≡ₚ parsed df ∧
  (λ r, (as_of_date r, fields r)) <$> (train ++ test) ≡ₚ parseable df ∧
  length train + length test = length (parseable df).
Proof.
  intros Hsplit.
  assert (train ++ test ≡ₚ parsed df) as Hperm.
  { destruct (decide (5 ≤ length (split_dates df))) as [Hn|Hn].
    - by eapply time_split_partition.
    - destruct (time_split_fallback df test_size train test) as (k & _ & -> & ->);
        [lia|done|].
      unfold Py.slice_to, Py.slice_from. rewrite take_drop.
      unfold sort_by_date. apply take_rows_perm. }
  split_and!; [done| |].
  - by rewrite Hperm, parsed_parseable.
  - by rewrite <- length_app, Hperm, <- parsed_parseable, length_fmap.
Qed.

(** X2.  On the fallback path (fewer than five distinct dates) the parts
    are still ordered in time, though not strictly and not by day: no
    train row has a later timestamp than any evaluation row. *)
Theorem time_split_fallback_order df test_size train test :
  length (split_dates df) < 5 →
  _time_split df test_size = Ok (train, test) →
  ∀ r1 r2, r1 ∈ train → r2 ∈ test → (as_of_date r1 ≤ as_of_date r2)%Z.
Proof.
  intros Hn Hsplit.
  destruct (time_split_fallback _ _ _ _ Hn Hsplit) as (k & _ & -> & ->).
  intros r1 r2 Hr1 Hr2. unfold Py.slice_to, Py.slice_from in *.
  pose proof (sort_by_date_strongly_sorted (parsed df)) as Hs.
  rewrite <- (take_drop (Py.slice_bound (length (sort_by_date (parsed df))) k)) in Hs.
  by eapply (StronglySorted_app_1_elem_of _ _ _ r1 r2) in Hs.
Qed.

(** X3.  On the primary path the train part holds the rows of the first
    [c] distinct dates and the evaluation part those of the other dates,
    [c] being [int(n * (1 - test_size))] clamped into [1, n - 1]. *)
Theorem time_split_date_counts df test_size train test :
  5 ≤ length (split_dates df) →
  _time_split df test_size = Ok (train, test) →
  ∃ k : Z, scaled (length (split_dates df)) test_size = Ok k ∧
    let c := Z.to_nat (Z.max 1 (Z.min k (Z.of_nat (length (split_dates df)) - 1))) in
    dates_of train = take c (split_dates df) ∧
    dates_of test = drop c (split_dates df).
Proof.
  intros Hn Hsplit.
  destruct (time_split_primary_cut _ _ _ _ Hn Hsplit)
    as (k & cutoff & Hk & Hc1 & Hc2 & Hcutoff & -> & ->).
  exists k. split; [done|]. by apply dates_of_filter_le.
Qed.

(** X4.  The split raises for a missing [as_of_date] column, and
    otherwise only when [int()] refuses the scaled count (NaN or
    infinite); the lookup of the cutoff date never is out of range. *)
Theorem time_split_errors df test_size e :
  _time_split df test_size = Raise e →
  (has_as_of_date df = false ∧
   e = ValueError "training_dataset must contain 'as_of_date' for time-aware split") ∨
  (has_as_of_date df = true ∧
   (e = ValueError "cannot convert float NaN to integer" ∨
    e = OverflowError "cannot convert float infinity to integer")).
Proof.
  assert (∀ n e', scaled n test_size = Raise e' →
            e' = ValueError "cannot convert float NaN to integer" ∨
            e' = OverflowError "cannot convert float infinity to integer") as Hint.
  { intros n e'. unfold scaled, Py.int_of_float.
    destruct (Prim2SF _); intros [= <-]; auto. }
  unfold _time_split. destruct (has_as_of_date df); simpl; [|intros [= <-]; by left].
  intros Hraise. right. split; [done|].
  destruct (Nat.ltb_spec (length (dates_of (parsed df))) 5) as [Hn|Hn].
  - destruct (scaled _ test_size) as [k|e'] eqn:Hk; simpl in Hraise; [done|].
    injection Hraise as <-. by eapply Hint.
  - destruct (scaled _ test_size) as [k|e'] eqn:Hk; simpl in Hraise.
    + exfalso. set (n := length (dates_of (parsed df))) in *.
      set (cut := Z.max 1 (Z.min k (Z.of_nat n - 1))) in *.
      assert (1 ≤ cut ≤ Z.of_nat n - 1)%Z as Hcut by (unfold cut; lia).
      destruct (lookup_lt_is_Some_2 (dates_of (parsed df)) (Z.to_nat (cut - 1)))
        as [cutoff Hcutoff]; [fold n; lia|].
      rewrite (getitem_Ok _ _ cutoff) in Hraise by (done || lia). done.
    + injection Hraise as <-. by eapply Hint.
Qed.

End SplitMore.

(** A table that has no [as_of_date] column. *)
Definition undated : DataFrame unit := mkFrame false [].

Lemma time_split_conserves_witness :
  week_split.1 ++ week_split.2 ≡ₚ parsed (H:=pandas_stable) week ∧
  (λ r, (as_of_date r, fields r)) <$> (week_split.1 ++ week_split.2)
    ≡ₚ parseable (H:=pandas_stable) week ∧
  length week_split.1 + length week_split.2 = length (parseable (H:=pandas_stable) week).
Proof.
  apply (time_split_conserves (H:=pandas_stable) week 0.25). vm_compute. reflexivity.
Defined.

Lemma time_split_fallback_order_witness :
  (as_of_date (mkRow (P:=unit) 0 1767225600000000000%Z ())
   ≤ as_of_date (mkRow (P:=unit) 1 1767312000000000000%Z ()))%Z.
Proof.
  apply (time_split_fallback_order (H:=pandas_stable) two_days 0.5
           [mkRow 0 1767225600000000000%Z ()] [mkRow 1 1767312000000000000%Z ()]).
  - vm_compute. lia.
  - vm_compute. reflexivity.
  - left.
  - left.
Defined.

Lemma time_split_date_counts_witness :
  ∃ k : Z, scaled (length (split_dates (H:=pandas_stable) week)) 0.25 = Ok k ∧
    let c := Z.to_nat (Z.max 1 (Z.min k (Z.of_nat (length (split_dates (H:=pandas_stable) week)) - 1))) in
    dates_of week_split.1 = take c (split_dates (H:=pandas_stable) week) ∧
    dates_of week_split.2 = drop c (split_dates (H:=pandas_stable) week).
Proof.
  apply (time_split_date_counts (H:=pandas_stable) week 0.25).
  - vm_compute. lia.
  - vm_compute. reflexivity.
Defined.

Lemma time_split_errors_witness :
  (has_as_of_date undated = false ∧
   ValueError "training_dataset must contain 'as_of_date' for time-aware split" =
   ValueError "training_dataset must contain 'as_of_date' for time-aware split") ∨
  (has_as_of_date undated = true ∧
   (ValueError "training_dataset must contain 'as_of_date' for time-aware split" =
      ValueError "cannot convert float NaN to integer" ∨
    ValueError "training_dataset must contain 'as_of_date' for time-aware split" =
      OverflowError "cannot convert float infinity to integer")).
Proof.
  apply (time_split_errors (H:=pandas_stable) undated 0.25). reflexivity.
Defined.

End Splitter.

(** * Drift detector: [monitoring/drift.py]

    Arrays are lists of reals; a column of a table is a list of cells, a
    missing cell being [None].  [to_numpy(dtype=float)] asks the columns to
    be numeric, which is what the type says. *)

Module Drift.
Local Open Scope R_scope.

(** ** numpy *)

(** [np.sort] *)
Fixpoint sort_insert (x : R) (l : list R) : list R :=
  match l with
  | [] => [x]
  | y :: l' => if Rle_dec x y then x :: l else y :: sort_insert x l'
  end.

Definition np_sort (l : list R) : list R := foldr sort_insert [] l.

(** [np.linspace(0, 1, num)] *)
Definition linspace01 (num : nat) : list R :=
  (λ i, INR i / INR (num - 1)) <$> seq 0 num.

(** [np.quantile(a, q)] with the default linear interpolation between the
    two order statistics around position [q * (n - 1)]. *)
Definition quantile_at (sorted : list R) (q : R) : R :=
  let n := length sorted in
  let pos := q * INR (n - 1) in
  let lo := Z.to_nat (Int_part pos) in
  let hi := Nat.min (lo + 1) (n - 1) in
  nth lo sorted 0 + frac_part pos * (nth hi sorted 0 - nth lo sorted 0).

Definition np_quantile (a : list R) (qs : list R) : list R :=
  quantile_at (np_sort a) <$> qs.

(** [np.unique]: the sorted distinct values. *)
Fixpoint drop_repeats (l : list R) : list R :=
  match l with
  | [] => []
  | x :: l' =>
      match l' with
      | [] => [x]
      | y :: _ => if Req_dec_T x y then drop_repeats l' else x :: drop_repeats l'
      end
  end.

Definition np_unique (l : list R) : list R := drop_repeats (np_sort l).

(** [np.histogram(x, bins=edges)]: bin [i] is [edges[i] <= v < edges[i+1]],
    the last bin being closed on the right as well. *)
Definition in_bin (edges : list R) (i : nat) (v : R) : bool :=
  match edges !! i, edges !! S i with
  | Some lo, Some hi =>
      if Rle_dec lo v then
        if Nat.eqb (S (S i)) (length edges)
        then (if Rle_dec v hi then true else false)
        else (if Rlt_dec v hi then true else false)
      else false
  | _, _ => false
  end.

Definition np_histogram (x edges : list R) : list nat :=
  (λ i, length (List.filter (in_bin edges i) x)) <$> seq 0 (length edges - 1).

(** [np.clip(x, lo, hi)] *)
Definition np_clip (x lo hi : R) : R := Rmin (Rmax x lo) hi.

(** [np.sum] *)
Definition np_sum (l : list R) : R := foldr Rplus 0 l.

(** ** [_psi] *)

(** The inner function [_bucket_counts] of [_psi], its bin edges made a
    parameter. *)
Definition _bucket_counts (edges x : list R) : list R :=
  let counts := np_histogram x edges in
  let total := Nat.max (sum_list counts) 1 in
  (λ c, np_clip (INR c / INR total) (1 / 1000000) 1) <$> counts.

(** [np.unique(np.quantile(expected, np.linspace(0, 1, buckets + 1)))] *)
Definition psi_edges (expected : list R) (buckets : nat) : list R :=
  np_unique (np_quantile expected (linspace01 (buckets + 1))).

Definition _psi (expected actual : list R) (buckets : nat) : R :=
  if decide (length expected = 0%nat ∨ length actual = 0%nat) then 0 else
  let edges := psi_edges expected buckets in
  if decide (length edges < 3)%nat then 0 else
  let e_pct := _bucket_counts edges expected in
  let a_pct := _bucket_counts edges actual in
  np_sum (zip_with (λ a e, (a - e) * ln (a / e)) a_pct e_pct).

(** ** [compute_drift] *)

Inductive Status : Type := OK | WARN | FAIL.

Record DriftReport : Type := mkReport {
  psi_by_feature : gmap string R;
  overall_max_psi : R;
  status : Status
}.

(** [Series.dropna().to_numpy(dtype=float)] *)
Definition dropna (col : list (option R)) : list R :=
  omap (λ cell : option R, cell) col.

(** One turn of the loop over [feature_cols]. *)
Definition psi_step (base cur : gmap string (list (option R)))
    (psi_by : gmap string R) (col : string) : gmap string R :=
  match base !! col, cur !! col with
  | Some b, Some c => <[col := _psi (dropna b) (dropna c) 10]> psi_by
  | _, _ => psi_by
  end.

(** [max(psi_by.values(), default=0.0)] *)
Definition max_values (psi_by : gmap string R) : R :=
  match (map_to_list psi_by).*2 with
  | [] => 0
  | v :: vs => foldl Rmax v vs
  end.

(** The two tables stand for the CSV files at [baseline_path] and
    [current_path]. *)
Definition compute_drift (base cur : gmap string (list (option R)))
    (feature_cols : list string) (warn_psi fail_psi : R) : DriftReport :=
  let psi_by := foldl (psi_step base cur) ∅ feature_cols in
  let max_psi := max_values psi_by in
  let status :=
    if Rle_dec fail_psi max_psi then FAIL
    else if Rle_dec warn_psi max_psi then WARN
    else OK in
  mkReport psi_by max_psi status.

Definition default_warn_psi : R := 1 / 10.
Definition default_fail_psi : R := 25 / 100.


(** ** Properties of [_psi] *)

Lemma np_clip_bounds (x : R) : 1 / 1000000 <= np_clip x (1 / 1000000) 1 <= 1.
Proof.
  unfold np_clip, Rmin, Rmax.
  destruct (Rle_dec x (1 / 1000000)); destruct (Rle_dec _ 1); lra.
Qed.

Lemma bucket_counts_bounds (edges x : list R) :
  Forall (λ p, 1 / 1000000 <= p <= 1) (_bucket_counts edges x).
Proof.
  unfold _bucket_counts. apply Forall_fmap, Forall_true.
  intros c. apply np_clip_bounds.
Qed.

(** One term of the sum: the difference of two positive fractions and the
    logarithm of their ratio have the same sign. *)
Lemma psi_term_nonneg (a e : R) : 0 < a → 0 < e → 0 <= (a - e) * ln (a / e).
Proof.
  intros Ha He.
  assert (0 < a / e) as Hq by (apply Rdiv_lt_0_compat; lra).
  destruct (Rtotal_order a e) as [Hlt | [-> | Hgt]].
  - assert (a / e < 1) as Hq1.
    { apply (Rmult_lt_reg_r e); [done|]. field_simplify; lra. }
    pose proof (ln_increasing _ _ Hq Hq1) as Hln. rewrite ln_1 in Hln.
    apply Rlt_le. replace 0 with (0 * 0) by ring.
    replace ((a - e) * ln (a / e)) with ((e - a) * - ln (a / e)) by ring.
    apply Rmult_le_0_lt_compat; lra.
  - replace (e - e) with 0 by ring. lra.
  - assert (1 < a / e) as Hq1.
    { apply (Rmult_lt_reg_r e); [done|]. field_simplify; lra. }
    pose proof (ln_increasing _ _ Rlt_0_1 Hq1) as Hln. rewrite ln_1 in Hln.
    apply Rlt_le, Rmult_lt_0_compat; lra.
Qed.

Lemma psi_sum_nonneg (a_pct e_pct : list R) :
  Forall (λ p, 1 / 1000000 <= p <= 1) a_pct →
  Forall (λ p, 1 / 1000000 <= p <= 1) e_pct →
  0 <= np_sum (zip_with (λ a e, (a - e) * ln (a / e)) a_pct e_pct).
Proof.
  intros Ha. revert e_pct.
  induction Ha as [|a a_pct Ha _ IH]; intros e_pct He; simpl; [lra|].
  destruct He as [|e e_pct He He']; simpl; [lra|].
  specialize (IH _ He'). pose proof (psi_term_nonneg a e). lra.
Qed.

Lemma psi_sum_self (pct : list R) :
  np_sum (zip_with (λ a e, (a - e) * ln (a / e)) pct pct) = 0.
Proof.
  induction pct as [|p pct IH]; simpl; [done|]. rewrite IH. ring.
Qed.

Lemma psi_self (x : list R) (buckets : nat) : _psi x x buckets = 0.
Proof.
  unfold _psi. repeat case_decide; try done. apply psi_sum_self.
Qed.

(** C10.  The value [_psi] returns is never negative, for any two arrays
    (non-empty ones in particular) and any number of buckets. *)
Theorem psi_nonneg (expected actual : list R) (buckets : nat) :
  0 <= _psi expected actual buckets.
Proof.
  unfold _psi. repeat case_decide; try lra.
  apply psi_sum_nonneg; apply bucket_counts_bounds.
Qed.

(** ** Properties of [compute_drift] *)

Section Report.
Context (base cur : gmap string (list (option R))).

(** A feature listed in [feature_cols] and present in both tables gets
    the PSI of its two columns. *)
Lemma psi_by_listed (cols : list string) (m : gmap string R) col b c :
  col ∈ cols → base !! col = Some b → cur !! col = Some c →
  foldl (psi_step base cur) m cols !! col = Some (_psi (dropna b) (dropna c) 10).
Proof.
  intros Hin Hb Hc. revert m.
  induction cols as [|x cols IH] using rev_ind; intros m.
  - by apply elem_of_nil in Hin.
  - rewrite foldl_snoc. unfold psi_step at 1.
    destruct (decide (x = col)) as [->|Hne].
    + rewrite Hb, Hc. apply lookup_insert_eq.
    + apply elem_of_app in Hin as [Hin|Hin%list_elem_of_singleton]; [|done].
      destruct (base !! x), (cur !! x); rewrite ?lookup_insert_ne by done; auto.
Qed.

(** Every entry of the result is the PSI of the two columns of a feature
    present in both tables, or was there before. *)
Lemma psi_by_entries (cols : list string) (m : gmap string R) col v :
  foldl (psi_step base cur) m cols !! col = Some v →
  m !! col = Some v ∨
  ∃ b c, base !! col = Some b ∧ cur !! col = Some c ∧
         v = _psi (dropna b) (dropna c) 10.
Proof.
  revert m. induction cols as [|x cols IH]; intros m; simpl; [auto|].
  intros [Hstep|?]%IH; [|auto]. unfold psi_step in Hstep.
  destruct (base !! x) as [b|] eqn:Hb, (cur !! x) as [c|] eqn:Hc; auto.
  apply lookup_insert_Some in Hstep as [[<- <-]|[_ ?]]; eauto 10.
Qed.
End Report.

Lemma max_values_zero (m : gmap string R) :
  (∀ col v, m !! col = Some v → v = 0) → max_values m = 0.
Proof.
  intros Hz. unfold max_values.
  assert (Forall (λ v, v = 0) (map_to_list m).*2) as Hall.
  { apply Forall_fmap, Forall_forall. intros [col v] Hin.
    apply elem_of_map_to_list in Hin. simpl. eauto. }
  destruct Hall as [|v vs -> Hvs]; [done|].
  induction Hvs as [|w vs -> _ IH]; simpl; [done|].
  by rewrite Rmax_left by lra.
Qed.

(** C4.  With the same table as baseline and as current, every feature of
    [feature_cols] that the table has is given the PSI 0, no entry of the
    report is anything else, the overall maximum is 0 and the status under
    the default thresholds is OK. *)
Theorem compute_drift_self (X : gmap string (list (option R))) (cols : list string) :
  let report := compute_drift X X cols default_warn_psi default_fail_psi in
  (∀ col, col ∈ cols → is_Some (X !! col) →
          psi_by_feature report !! col = Some 0) ∧
  (∀ col v, psi_by_feature report !! col = Some v → v = 0) ∧
  overall_max_psi report = 0 ∧
  status report = OK.
Proof.
  assert (∀ col v, foldl (psi_step X X) ∅ cols !! col = Some v → v = 0) as Hz.
  { intros col v [Hin|(b & c & Hb & Hc & ->)]%psi_by_entries.
    - by rewrite lookup_empty in Hin.
    - assert (b = c) as -> by congruence. apply psi_self. }
  simpl. split_and!.
  - intros col Hin [b Hb]. rewrite (psi_by_listed X X cols ∅ col b b) by done.
    by rewrite psi_self.
  - done.
  - by apply max_values_zero.
  - unfold compute_drift. simpl. rewrite max_values_zero by done.
    unfold default_warn_psi, default_fail_psi.
    destruct (Rle_dec _ 0); [lra|]. destruct (Rle_dec _ 0); [lra|]. done.
Qed.

(** C9.  The degenerate cases are absorbed: when a listed feature, present
    in both tables, has no value left in its baseline or in its current
    column once the missing cells are dropped, or fewer than three distinct
    decile edges come out of its baseline, [_psi] yields 0 and the report
    (which [compute_drift] always returns) holds exactly 0 for it. *)
Theorem psi_degenerate_zero (base cur : gmap string (list (option R)))
    (cols : list string) (warn_psi fail_psi : R) (col : string)
    (b c : list (option R)) :
  col ∈ cols → base !! col = Some b → cur !! col = Some c →
  dropna b = [] ∨ dropna c = [] ∨ (length (psi_edges (dropna b) 10) < 3)%nat →
  _psi (dropna b) (dropna c) 10 = 0 ∧
  psi_by_feature (compute_drift base cur cols warn_psi fail_psi) !! col = Some 0.
Proof.
  intros Hin Hb Hc Hdeg.
  assert (_psi (dropna b) (dropna c) 10 = 0) as Hpsi.
  { unfold _psi. destruct Hdeg as [Hnil|[Hnil|Hlen]].
    - rewrite Hnil. by rewrite decide_True by by left.
    - rewrite Hnil. by rewrite decide_True by by right.
    - case_decide; [done|]. by rewrite decide_True. }
  split; [done|]. simpl. by rewrite (psi_by_listed base cur cols ∅ col b c), Hpsi.
Qed.

(** ** A constant baseline is degenerate *)

Lemma np_sort_constant (c : R) (l : list R) :
  Forall (λ v, v = c) l → np_sort l = l.
Proof.
  induction 1 as [|v l -> Hl IH]; [done|].
  unfold np_sort in *. simpl. rewrite IH.
  destruct Hl as [|w l -> _]; simpl; [done|].
  destruct (Rle_dec c c); [done|lra].
Qed.

Lemma drop_repeats_constant (c : R) (l : list R) :
  Forall (λ v, v = c) l → l ≠ [] → drop_repeats l = [c].
Proof.
  induction 1 as [|v l -> Hl IH]; [done|]. intros _. simpl.
  destruct Hl as [|w l -> Hl]; [done|].
  destruct (Req_dec_T c c); [|done]. apply IH. done.
Qed.

Lemma linspace01_range (num : nat) : Forall (λ q, 0 <= q <= 1) (linspace01 num).
Proof.
  unfold linspace01. apply Forall_fmap, Forall_forall.
  intros i [_ Hi]%elem_of_seq. simpl in *.
  destruct (decide (num - 1 = 0)%nat) as [->|Hpos].
  - simpl. unfold Rdiv. rewrite Rinv_0. lra.
  - assert (0 < INR (num - 1)) by (apply lt_0_INR; lia).
    assert (0 <= INR i) by apply pos_INR.
    assert (INR i <= INR (num - 1)) by (apply le_INR; lia).
    split.
    + apply Rmult_le_reg_r with (INR (num - 1)); [done|]. field_simplify; lra.
    + apply Rmult_le_reg_r with (INR (num - 1)); [done|]. field_simplify; lra.
Qed.

Lemma quantile_at_constant (c q : R) (l : list R) :
  Forall (λ v, v = c) l → l ≠ [] → 0 <= q <= 1 → quantile_at l q = c.
Proof.
  intros Hl Hne Hq. unfold quantile_at.
  set (n := length l). set (pos := q * INR (n - 1)).
  assert (0 < n)%nat by (subst n; destruct l; simpl; [done|lia]).
  assert (∀ i, (i < n)%nat → nth i l 0 = c) as Hnth.
  { intros i Hi. destruct (nth_lookup_or_length l i 0) as [Hi'|]; [|lia].
    eapply Forall_lookup_1 in Hl; eauto. }
  assert (pos <= INR (n - 1)) as Hpos.
  { unfold pos. assert (0 <= INR (n - 1)) by apply pos_INR. nra. }
  assert (Int_part pos ≤ Z.of_nat (n - 1))%Z as Hint.
  { apply le_IZR. rewrite <- INR_IZR_INZ.
    destruct (base_Int_part pos). lra. }
  rewrite !Hnth by lia. ring.
Qed.

Lemma psi_edges_constant (c : R) (expected : list R) (buckets : nat) :
  Forall (λ v, v = c) expected → expected ≠ [] → psi_edges expected buckets = [c].
Proof.
  intros Hc Hne. unfold psi_edges, np_unique, np_quantile.
  rewrite (np_sort_constant c expected) by done.
  assert (Forall (λ v, v = c) (quantile_at expected <$> linspace01 (buckets + 1))).
  { apply Forall_fmap. eapply Forall_impl; [apply linspace01_range|].
    intros q Hq. by apply quantile_at_constant. }
  rewrite (np_sort_constant c) by done.
  apply drop_repeats_constant; [done|].
  unfold linspace01. rewrite Nat.add_1_r. done.
Qed.

(** A feature that is constant in the baseline contributes no drift,
    whatever the current values are. *)
Lemma psi_constant_baseline (c : R) (expected actual : list R) (buckets : nat) :
  Forall (λ v, v = c) expected → _psi expected actual buckets = 0.
Proof.
  intros Hc. unfold _psi. case_decide; [done|].
  rewrite (psi_edges_constant c) by (done || (destruct expected; simpl in *; [tauto|done])).
  done.
Qed.

(** A baseline column that is 5 wherever it is not missing, against a
    current column with two values. *)
Definition flat_base : gmap string (list (option R)) :=
  {[ "sessions_7d"%string := [Some 5; None; Some 5] ]}.
Definition flat_cur : gmap string (list (option R)) :=
  {[ "sessions_7d"%string := [Some 1; Some 2] ]}.

Lemma psi_degenerate_zero_witness :
  _psi [5; 5] [1; 2] 10 = 0 ∧
  psi_by_feature
    (compute_drift flat_base flat_cur ["sessions_7d"%string]
       default_warn_psi default_fail_psi) !! "sessions_7d"%string = Some 0.
Proof.
  apply (psi_degenerate_zero flat_base flat_cur ["sessions_7d"%string]
           default_warn_psi default_fail_psi "sessions_7d"
           [Some 5; None; Some 5] [Some 1; Some 2]).
  - apply list_elem_of_singleton. reflexivity.
  - reflexivity.
  - reflexivity.
  - right. right. rewrite (psi_edges_constant 5); simpl.
    + lia.
    + repeat constructor.
    + discriminate.
Defined.

(** ** The report as a whole *)

(** [max] over a non-empty sequence returns one of its items, and no item
    is greater. *)
Lemma foldl_Rmax_spec (v : R) (vs : list R) :
  foldl Rmax v vs ∈ v :: vs ∧ Forall (λ x, x <= foldl Rmax v vs) (v :: vs).
Proof.
  revert v. induction vs as [|w vs IH]; intros v; simpl.
  - split; [left|]. apply Forall_singleton. lra.
  - destruct (IH (Rmax v w)) as [Hin Hall]. split.
    + apply elem_of_cons in Hin as [->|Hin]; [|by do 2 right].
      unfold Rmax. destruct (Rle_dec v w); [right; left|left].
    + apply Forall_cons in Hall as [Hm Hall].
      pose proof (Rmax_l v w). pose proof (Rmax_r v w).
      apply Forall_cons; split; [lra|]. apply Forall_cons; split; [lra|done].
Qed.

Lemma max_values_spec (m : gmap string R) :
  (m = ∅ ∧ max_values m = 0) ∨
  ((∃ col, m !! col = Some (max_values m)) ∧
   ∀ col v, m !! col = Some v → v <= max_values m).
Proof.
  unfold max_values. destruct ((map_to_list m).*2) as [|v vs] eqn:Hvs.
  - left. split; [|done].
    by apply map_to_list_empty_iff, (fmap_nil_inv snd).
  - right. destruct (foldl_Rmax_spec v vs) as [Hin Hall].
    rewrite <- Hvs in Hin, Hall. split.
    + apply list_elem_of_fmap in Hin as ([col w] & -> & Hin).
      exists col. by apply elem_of_map_to_list.
    + intros col w Hw. eapply Forall_forall in Hall; [exact Hall|].
      apply list_elem_of_fmap. exists (col, w). split; [done|].
      by apply elem_of_map_to_list.
Qed.

Section ReportMore.
Context (base cur : gmap string (list (option R))).

(** What the loop over [feature_cols] leaves under a name. *)
Lemma psi_by_lookup (cols : list string) (m : gmap string R) (col : string) :
  foldl (psi_step base cur) m cols !! col =
    if decide (col ∈ cols) then
      match base !! col, cur !! col with
      | Some b, Some c => Some (_psi (dropna b) (dropna c) 10)
      | _, _ => m !! col
      end
    else m !! col.
Proof.
  revert m. induction cols as [|x cols IH] using rev_ind; intros m.
  - rewrite decide_False by apply not_elem_of_nil. done.
  - rewrite foldl_snoc. unfold psi_step at 1.
    destruct (decide (x = col)) as [->|Hne].
    + rewrite decide_True by (apply elem_of_app; right; by left).
      destruct (base !! col) as [b|] eqn:Hb; [destruct (cur !! col) as [c|] eqn:Hc|].
      * apply lookup_insert_eq.
      * rewrite IH. by case_decide.
      * rewrite IH. by case_decide.
    + assert (foldl (psi_step base cur) m cols !! col =
              match base !! x, cur !! x with
              | Some b, Some c =>
                  <[x := _psi (dropna b) (dropna c) 10]>
                    (foldl (psi_step base cur) m cols)
              | _, _ => foldl (psi_step base cur) m cols
              end !! col) as <-.
      { destruct (base !! x), (cur !! x); rewrite ?lookup_insert_ne by done; done. }
      rewrite IH. destruct (decide (col ∈ cols)) as [Hin|Hnin].
      * rewrite decide_True by (apply elem_of_app; by left). done.
      * rewrite decide_False; [done|].
        intros [?|Heq%list_elem_of_singleton]%elem_of_app; congruence.
Qed.

Lemma psi_by_nonneg (cols : list string) (col : string) (v : R) :
  foldl (psi_step base cur) ∅ cols !! col = Some v → 0 <= v.
Proof.
  intros [Hin|(b & c & _ & _ & ->)]%psi_by_entries.
  - by rewrite lookup_empty in Hin.
  - unfold _psi. repeat case_decide; try lra.
    apply psi_sum_nonneg; apply bucket_counts_bounds.
Qed.

(** A positive threshold is reached by the overall maximum exactly when
    some feature of the report reaches it. *)
Lemma max_values_reaches (m : gmap string R) (t : R) :
  0 < t →
  t <= max_values m ↔ ∃ col v, m !! col = Some v ∧ t <= v.
Proof.
  intros Ht. destruct (max_values_spec m) as [[-> ->]|[[col Hcol] Hmax]].
  - split; [lra|]. intros (col & v & Hv & _). by rewrite lookup_empty in Hv.
  - split; [by eauto|]. intros (col' & v & Hv & Hle).
    specialize (Hmax _ _ Hv). lra.
Qed.

(** X5.  [overall_max_psi] is the greatest PSI of the report: no entry of
    [psi_by_feature] exceeds it and, unless the report has no entry at
    all (then it is 0), it is the value of one of them; every entry, and
    so the maximum, is at least 0. *)
Theorem overall_max_psi_greatest (cols : list string) (warn_psi fail_psi : R) :
  let report := compute_drift base cur cols warn_psi fail_psi in
  (∀ col v, psi_by_feature report !! col = Some v →
            0 <= v <= overall_max_psi report) ∧
  ((psi_by_feature report = ∅ ∧ overall_max_psi report = 0) ∨
   (∃ col, psi_by_feature report !! col = Some (overall_max_psi report))) ∧
  0 <= overall_max_psi report.
Proof.
  simpl. set (m := foldl (psi_step base cur) ∅ cols).
  destruct (max_values_spec m) as [[Hm Hz]|[[col Hcol] Hmax]].
  - split_and!; [|by left|lra].
    intros col v Hv. rewrite Hm, lookup_empty in Hv. done.
  - split_and!; [|right; by exists col|by eapply psi_by_nonneg].
    intros col' v Hv. split; [by eapply psi_by_nonneg|by eapply Hmax].
Qed.

(** X6.  The report has an entry for a name exactly when the name is
    listed in [feature_cols] and is a column of both tables; the entry is
    then the PSI of the two columns with their missing cells dropped,
    computed with 10 buckets.  Names listed twice, and names one of the
    tables lacks, change nothing. *)
Theorem psi_by_feature_lookup (cols : list string) (warn_psi fail_psi : R)
    (col : string) :
  psi_by_feature (compute_drift base cur cols warn_psi fail_psi) !! col =
    if decide (col ∈ cols) then
      match base !! col, cur !! col with
      | Some b, Some c => Some (_psi (dropna b) (dropna c) 10)
      | _, _ => None
      end
    else None.
Proof.
  simpl. rewrite psi_by_lookup, lookup_empty.
  by destruct (base !! col), (cur !! col).
Qed.

(** X7.  With positive thresholds the status is decided feature by
    feature: FAIL exactly when some feature of the report has a PSI of
    at least [fail_psi]; WARN exactly when none has, but some feature has
    a PSI of at least [warn_psi]; OK exactly when every feature is below
    both. *)
Theorem status_by_thresholds (cols : list string) (warn_psi fail_psi : R) :
  0 < warn_psi → 0 < fail_psi →
  let report := compute_drift base cur cols warn_psi fail_psi in
  let reaches (t : R) :=
    ∃ col v, psi_by_feature report !! col = Some v ∧ t <= v in
  (status report = FAIL ↔ reaches fail_psi) ∧
  (status report = WARN ↔ reaches warn_psi ∧ ¬ reaches fail_psi) ∧
  (status report = OK ↔ ¬ reaches warn_psi ∧ ¬ reaches fail_psi).
Proof.
  intros Hw Hf. simpl.
  set (m := foldl (psi_step base cur) ∅ cols).
  rewrite <- !(max_values_reaches m) by done.
  destruct (Rle_dec fail_psi (max_values m));
    [|destruct (Rle_dec warn_psi (max_values m))];
    split_and!; split; try done; try tauto.
Qed.
End ReportMore.

Lemma status_by_thresholds_witness :
  let report :=
    compute_drift flat_base flat_cur ["sessions_7d"%string]
      default_warn_psi default_fail_psi in
  let reaches (t : R) :=
    ∃ col v, psi_by_feature report !! col = Some v ∧ t <= v in
  (status report = FAIL ↔ reaches default_fail_psi) ∧
  (status report = WARN ↔ reaches default_warn_psi ∧ ¬ reaches default_fail_psi) ∧
  (status report = OK ↔ ¬ reaches default_warn_psi ∧ ¬ reaches default_fail_psi).
Proof.
  apply (status_by_thresholds flat_base flat_cur ["sessions_7d"%string]
           default_warn_psi default_fail_psi).
  - unfold default_warn_psi. lra.
  - unfold default_fail_psi. lra.
Defined.

(** ** [run_drift_check.main] *)

(** The features [main] asks for. *)
Definition feature_cols : list string :=
  ["sessions_7d"; "watch_minutes_7d"; "watch_minutes_14d";
   "watch_minutes_30d"; "quiz_attempts_7d"; "quiz_avg_score_7d"]%string.

(** How a script ends: it returns, or [raise SystemExit(code)]. *)
Inductive Exit : Type := Returns | SystemExit (code : Z).

(** [main]: the report, which is written to [data_drift_latest.json] and
    printed in either case, and the way the script ends.  The two tables
    stand for [training_dataset.csv] and [user_features_daily.csv]. *)
Definition main (baseline current : gmap string (list (option R)))
    : DriftReport * Exit :=
  let report :=
    compute_drift baseline current feature_cols default_warn_psi default_fail_psi in
  (report, match status report with FAIL => SystemExit 2 | _ => Returns end).


(** ** An upper bound on [_psi] *)

Lemma ln_mono (x y : R) : 0 < x → x <= y → ln x <= ln y.
Proof.
  intros Hx [Hlt| ->]; [|lra]. apply Rlt_le. by apply ln_increasing.
Qed.

Lemma ln_clip_bounds (p : R) :
  1 / 1000000 <= p <= 1 → - ln 1000000 <= ln p <= 0.
Proof.
  intros [Hlo Hhi]. split.
  - rewrite <- ln_Rinv by lra. apply ln_mono; lra.
  - rewrite <- ln_1. apply ln_mono; lra.
Qed.

Lemma psi_term_upper (a e : R) :
  1 / 1000000 <= a <= 1 → 1 / 1000000 <= e <= 1 →
  (a - e) * ln (a / e) <= ln 1000000.
Proof.
  intros Ha He.
  pose proof (ln_clip_bounds a Ha) as Hla.
  pose proof (ln_clip_bounds e He) as Hle.
  unfold Rdiv. rewrite ln_mult, ln_Rinv by (try apply Rinv_0_lt_compat; lra).
  destruct (Rle_dec e a) as [Hea|Hae].
  - assert (ln e <= ln a) by (apply ln_mono; lra).
    transitivity (1 * (ln a + - ln e)); [|lra].
    apply Rmult_le_compat_r; lra.
  - assert (ln a <= ln e) by (apply ln_mono; lra).
    replace ((a - e) * (ln a + - ln e)) with ((e - a) * (ln e - ln a)) by ring.
    transitivity (1 * (ln e - ln a)); [|lra].
    apply Rmult_le_compat_r; lra.
Qed.

Lemma psi_sum_upper (a_pct e_pct : list R) :
  Forall (λ p, 1 / 1000000 <= p <= 1) a_pct →
  Forall (λ p, 1 / 1000000 <= p <= 1) e_pct →
  np_sum (zip_with (λ a e, (a - e) * ln (a / e)) a_pct e_pct)
    <= INR (length a_pct) * ln 1000000.
Proof.
  assert (0 <= ln 1000000) as HL.
  { rewrite <- ln_1. apply ln_mono; lra. }
  intros Ha. revert e_pct.
  induction Ha as [|a a_pct Ha _ IH]; intros e_pct He.
  - simpl. lra.
  - cbn [length]. rewrite S_INR.
    destruct He as [|e e_pct He He']; simpl.
    + assert (0 <= INR (length a_pct)) by apply pos_INR. nra.
    + specialize (IH _ He'). pose proof (psi_term_upper a e Ha He). lra.
Qed.

Lemma drop_repeats_length (l : list R) : (length (drop_repeats l) ≤ length l)%nat.
Proof.
  induction l as [|x l IH]; [done|].
  destruct l as [|y l]; [done|].
  change (drop_repeats (x :: y :: l)) with
    (if Req_dec_T x y then drop_repeats (y :: l) else x :: drop_repeats (y :: l)).
  destruct (Req_dec_T x y); cbn [length] in *; lia.
Qed.

Lemma sort_insert_length (x : R) (l : list R) :
  length (sort_insert x l) = S (length l).
Proof.
  induction l as [|y l IH]; simpl; [done|].
  destruct (Rle_dec x y); simpl; by rewrite ?IH.
Qed.

Lemma np_sort_length (l : list R) : length (np_sort l) = length l.
Proof.
  induction l as [|x l IH]; [done|].
  unfold np_sort in *. simpl. by rewrite sort_insert_length, IH.
Qed.

Lemma psi_edges_length (expected : list R) (buckets : nat) :
  (length (psi_edges expected buckets) ≤ buckets + 1)%nat.
Proof.
  unfold psi_edges, np_unique, np_quantile.
  etransitivity; [apply drop_repeats_length|].
  rewrite np_sort_length, length_fmap. unfold linspace01.
  by rewrite length_fmap, length_seq.
Qed.

Lemma bucket_counts_length (edges x : list R) :
  length (_bucket_counts edges x) = (length edges - 1)%nat.
Proof.
  unfold _bucket_counts, np_histogram. by rewrite !length_fmap, length_seq.
Qed.

(** X9.  Because the bucket fractions are clipped to [1e-6, 1], the PSI
    is bounded: each bucket adds at most ln(1e6), and there are at most
    [buckets] of them.  The 10 buckets of [compute_drift] keep every
    feature's PSI at or below 10 ln(1e6). *)
Theorem psi_upper_bound (expected actual : list R) (buckets : nat) :
  _psi expected actual buckets <= INR buckets * ln 1000000.
Proof.
  assert (0 <= ln 1000000) as HL.
  { rewrite <- ln_1. apply ln_mono; lra. }
  assert (0 <= INR buckets) as HB by apply pos_INR.
  unfold _psi. repeat case_decide; try nra.
  etransitivity; [apply psi_sum_upper; apply bucket_counts_bounds|].
  apply Rmult_le_compat_r; [done|]. apply le_INR.
  rewrite bucket_counts_length.
  pose proof (psi_edges_length expected buckets). lia.
Qed.

(** ** Current values outside the baseline's range *)

Lemma sort_insert_perm (x : R) (l : list R) : sort_insert x l ≡ₚ x :: l.
Proof.
  induction l as [|y l IH]; simpl; [done|].
  destruct (Rle_dec x y); [done|]. rewrite IH. apply Permutation_swap.
Qed.

Lemma np_sort_perm (l : list R) : np_sort l ≡ₚ l.
Proof.
  induction l as [|x l IH]; [done|].
  unfold np_sort in *. simpl. by rewrite sort_insert_perm, IH.
Qed.

Lemma sort_insert_sorted (x : R) (l : list R) :
  Sorted Rle l → Sorted Rle (sort_insert x l).
Proof.
  induction l as [|y l IH]; simpl; intros Hs.
  - repeat constructor.
  - destruct (Rle_dec x y) as [Hxy|Hxy].
    + constructor; [done|]. by constructor.
    + apply Sorted_inv in Hs as [Hs Hhd]. constructor; [by apply IH|].
      destruct l as [|z l]; simpl.
      * constructor. lra.
      * destruct (Rle_dec x z); constructor; [lra|].
        by apply HdRel_inv in Hhd.
Qed.

Lemma np_sort_sorted (l : list R) : StronglySorted Rle (np_sort l).
Proof.
  apply Sorted_StronglySorted; [intros x y z; apply Rle_trans|].
  induction l as [|x l IH]; [constructor|].
  unfold np_sort in *. simpl. by apply sort_insert_sorted.
Qed.

Lemma drop_repeats_cons (x y : R) (l : list R) :
  drop_repeats (x :: y :: l) =
    if Req_dec_T x y then drop_repeats (y :: l) else x :: drop_repeats (y :: l).
Proof. reflexivity. Qed.

Lemma drop_repeats_head (l : list R) : head (drop_repeats l) = head l.
Proof.
  induction l as [|x l IH]; [done|]. destruct l as [|y l]; [done|].
  rewrite drop_repeats_cons. destruct (Req_dec_T x y) as [->|]; [|done].
  by rewrite IH.
Qed.

Lemma elem_of_drop_repeats (v : R) (l : list R) : v ∈ drop_repeats l ↔ v ∈ l.
Proof.
  induction l as [|x l IH]; [done|]. destruct l as [|y l]; [done|].
  rewrite drop_repeats_cons. destruct (Req_dec_T x y) as [->|].
  - rewrite IH, !elem_of_cons. tauto.
  - rewrite (elem_of_cons (drop_repeats _)), IH, !elem_of_cons. tauto.
Qed.

(** [np.unique] leaves strictly increasing values. *)
Lemma drop_repeats_strict (l : list R) : Sorted Rle l → Sorted Rlt (drop_repeats l).
Proof.
  induction l as [|x l IH]; [constructor|]. intros [Hs Hhd]%Sorted_inv.
  destruct l as [|y l]; [repeat constructor|].
  rewrite drop_repeats_cons. destruct (Req_dec_T x y) as [->|Hne]; [by apply IH|].
  constructor; [by apply IH|].
  pose proof (drop_repeats_head (y :: l)) as Hh.
  destruct (drop_repeats (y :: l)) as [|z l']; [constructor|].
  injection Hh as ->. constructor. apply HdRel_inv in Hhd. lra.
Qed.

(** A quantile lies between two of the values. *)
Lemma quantile_at_between (s : list R) (q : R) :
  StronglySorted Rle s → s ≠ [] → 0 <= q <= 1 →
  ∃ lo hi, lo ∈ s ∧ hi ∈ s ∧ lo <= quantile_at s q <= hi.
Proof.
  intros Hs Hne Hq. unfold quantile_at.
  set (n := length s). set (pos := q * INR (n - 1)).
  assert (0 < n)%nat by (subst n; destruct s; simpl; [done|lia]).
  assert (pos <= INR (n - 1)) as Hpos.
  { unfold pos. assert (0 <= INR (n - 1)) by apply pos_INR. nra. }
  assert (Int_part pos ≤ Z.of_nat (n - 1))%Z as Hint.
  { apply le_IZR. rewrite <- INR_IZR_INZ.
    destruct (base_Int_part pos). lra. }
  set (i := Z.to_nat (Int_part pos)). set (j := Nat.min (i + 1) (n - 1)).
  assert (i ≤ j ∧ j < n)%nat as [Hij Hjn] by lia.
  destruct (lookup_lt_is_Some_2 s i) as [a Ha]; [fold n; lia|].
  destruct (lookup_lt_is_Some_2 s j) as [b Hb]; [fold n; lia|].
  rewrite (nth_lookup_Some _ _ _ _ Ha), (nth_lookup_Some _ _ _ _ Hb).
  assert (a <= b) as Hab.
  { destruct (decide (i = j)) as [Heq|Hneq].
    - rewrite <- Heq in Hb. assert (a = b) by congruence. lra.
    - eapply (StronglySorted_lookup Rle s i j); eauto. lia. }
  exists a, b. split_and!; [by eapply list_elem_of_lookup_2..| |];
    destruct (base_fp pos); nra.
Qed.

Lemma quantile_at_0 (s : list R) : quantile_at s 0 = nth 0 s 0.
Proof.
  unfold quantile_at. rewrite Rmult_0_l, fp_R0.
  assert (Int_part 0 = 0%Z) as ->.
  { symmetry. apply Int_part_spec. simpl. lra. }
  change (Z.to_nat 0) with 0%nat. ring.
Qed.

(** The bin edges lie between two values of the baseline. *)
Lemma psi_edges_between (expected : list R) (buckets : nat) (e : R) :
  expected ≠ [] → e ∈ psi_edges expected buckets →
  ∃ lo hi, lo ∈ expected ∧ hi ∈ expected ∧ lo <= e <= hi.
Proof.
  intros Hne He. unfold psi_edges, np_unique, np_quantile in He.
  apply (proj1 (elem_of_drop_repeats _ _)) in He. rewrite np_sort_perm in He.
  apply list_elem_of_fmap in He as (q & -> & Hq).
  pose proof (linspace01_range (buckets + 1)) as Hrange.
  eapply Forall_forall in Hrange; [|exact Hq].
  destruct (quantile_at_between (np_sort expected) q) as (lo & hi & Hlo & Hhi & Hb).
  - apply np_sort_sorted.
  - intros Hnil. apply Hne, Permutation_nil_r. by rewrite <- Hnil, np_sort_perm.
  - done.
  - rewrite np_sort_perm in Hlo, Hhi. eauto.
Qed.

Lemma psi_edges_nil (buckets : nat) : psi_edges [] buckets = [0].
Proof.
  unfold psi_edges, np_unique, np_quantile.
  assert (Forall (λ v, v = 0) (quantile_at (np_sort []) <$> linspace01 (buckets + 1))).
  { apply Forall_fmap, Forall_true. intros q. unfold quantile_at. simpl.
    destruct (Z.to_nat _); simpl; ring. }
  rewrite (np_sort_constant 0) by done.
  apply drop_repeats_constant; [done|].
  unfold linspace01. by rewrite Nat.add_1_r.
Qed.

Lemma filter_none {A} (f : A → bool) (l : list A) :
  Forall (λ v, f v = false) l → List.filter f l = [].
Proof. induction 1 as [|v l Hv _ IH]; simpl; [done|]. by rewrite Hv. Qed.

(** A value outside the baseline's range falls in no bin. *)
Lemma in_bin_outside (expected : list R) (buckets i : nat) (v : R) :
  expected ≠ [] →
  (∀ x, x ∈ expected → x < v) ∨ (∀ x, x ∈ expected → v < x) →
  in_bin (psi_edges expected buckets) i v = false.
Proof.
  intros Hne Hout. unfold in_bin.
  destruct (psi_edges expected buckets !! i) as [lo|] eqn:Hlo; [|done].
  destruct (psi_edges expected buckets !! S i) as [hi|] eqn:Hhi; [|done].
  apply list_elem_of_lookup_2, psi_edges_between in Hlo as (a & _ & Ha & _ & Hlo & _);
    [|done].
  apply list_elem_of_lookup_2, psi_edges_between in Hhi as (_ & b & _ & Hb & _ & Hhi);
    [|done].
  destruct Hout as [Hout|Hout]; apply Hout in Ha, Hb.
  - destruct (Rle_dec lo v); [|done].
    destruct (S (S i) =? _)%nat; [destruct (Rle_dec v hi)|destruct (Rlt_dec v hi)];
      (done || lra).
  - destruct (Rle_dec lo v); [lra|done].
Qed.

Lemma sum_list_zero (l : list nat) : Forall (λ c, c = 0%nat) l → sum_list l = 0%nat.
Proof. induction 1 as [|c l -> _ IH]; simpl; [done|]. by rewrite IH. Qed.

(** Fractions of values that fall in no bin are all clipped up to 1e-6. *)
Lemma bucket_counts_outside (expected actual : list R) (buckets : nat) :
  expected ≠ [] →
  (∀ v, v ∈ actual →
     (∀ x, x ∈ expected → x < v) ∨ (∀ x, x ∈ expected → v < x)) →
  Forall (λ p, p = 1 / 1000000)
    (_bucket_counts (psi_edges expected buckets) actual).
Proof.
  intros Hne Hout.
  assert (Forall (λ c, c = 0%nat) (np_histogram actual (psi_edges expected buckets)))
    as Hzero.
  { unfold np_histogram. apply Forall_fmap, Forall_true. intros i. simpl.
    rewrite filter_none; [done|]. apply Forall_forall. intros v Hv.
    apply in_bin_outside; auto. }
  unfold _bucket_counts. rewrite (sum_list_zero _ Hzero).
  apply Forall_fmap. eapply Forall_impl; [exact Hzero|].
  intros c ->. simpl. unfold np_clip, Rmax, Rmin.
  destruct (Rle_dec _ _); destruct (Rle_dec _ _); lra.
Qed.

(** The least value of the baseline is the first edge, and it falls in
    the first bin. *)
Lemma first_bin_inhabited (expected : list R) (buckets : nat) :
  (3 ≤ length (psi_edges expected buckets))%nat →
  ∃ v, v ∈ expected ∧ in_bin (psi_edges expected buckets) 0 v = true.
Proof.
  intros Hlen.
  assert (expected ≠ []) as Hne.
  { intros ->. rewrite psi_edges_nil in Hlen. simpl in Hlen. lia. }
  pose proof (np_sort_sorted expected) as Hs.
  pose proof (np_sort_perm expected) as Hp.
  destruct (np_sort expected) as [|v0 s] eqn:Hsort.
  { by apply Permutation_nil_l in Hp. }
  assert (v0 ∈ expected) as Hv0 by (rewrite <- Hp; left).
  set (qs := quantile_at (v0 :: s) <$> linspace01 (buckets + 1)).
  assert (v0 ∈ qs) as Hin.
  { unfold qs, linspace01. rewrite Nat.add_1_r. simpl.
    apply elem_of_cons. left.
    unfold Rdiv. by rewrite Rmult_0_l, quantile_at_0. }
  assert (∀ v, v ∈ qs → v0 <= v) as Hleast.
  { intros v (q & -> & Hq)%list_elem_of_fmap.
    pose proof (linspace01_range (buckets + 1)) as Hrange.
    eapply Forall_forall in Hrange; [|exact Hq].
    destruct (quantile_at_between (v0 :: s) q) as (lo & _ & Hlo & _ & Hle & _);
      [done..|].
    apply StronglySorted_inv in Hs as [_ Hall].
    apply elem_of_cons in Hlo as [->|Hlo]; [lra|].
    eapply Forall_forall in Hall; [|exact Hlo]. lra. }
  assert (head (psi_edges expected buckets) = Some v0) as Hhead.
  { unfold psi_edges, np_unique, np_quantile. rewrite drop_repeats_head, Hsort.
    fold qs. pose proof (np_sort_sorted qs) as Hsq.
    pose proof (np_sort_perm qs) as Hpq.
    destruct (np_sort qs) as [|h sq].
    { rewrite <- Hpq in Hin. by apply elem_of_nil in Hin. }
    simpl. f_equal. apply StronglySorted_inv in Hsq as [_ Hall].
    assert (v0 <= h) by (apply Hleast; rewrite <- Hpq; left).
    rewrite <- Hpq in Hin. apply elem_of_cons in Hin as [->|Hin]; [done|].
    eapply Forall_forall in Hall; [|exact Hin]. lra. }
  assert (Sorted Rlt (psi_edges expected buckets)) as Hstrict.
  { apply drop_repeats_strict, StronglySorted_Sorted, np_sort_sorted. }
  exists v0. split; [done|]. unfold in_bin.
  destruct (psi_edges expected buckets) as [|e0 [|e1 [|e2 edges]]];
    simpl in Hlen; try lia.
  injection Hhead as ->. simpl.
  apply Sorted_inv in Hstrict as [_ Hlt%HdRel_inv].
  destruct (Rle_dec v0 v0); [|lra]. destruct (Rlt_dec v0 e1); [done|lra].
Qed.

Lemma sum_list_lookup_le (l : list nat) (i c : nat) :
  l !! i = Some c → (c ≤ sum_list l)%nat.
Proof.
  revert i. induction l as [|x l IH]; intros [|i] Hi; simplify_eq/=; [lia|].
  apply IH in Hi. lia.
Qed.

(** Some item of a non-empty list of counts is at least their mean. *)
Lemma sum_list_mean (l : list nat) :
  l ≠ [] → ∃ i c, l !! i = Some c ∧ (sum_list l ≤ length l * c)%nat.
Proof.
  induction l as [|x l IH]; [done|]. intros _.
  destruct l as [|y l].
  - exists 0%nat, x. simpl. split; [done|lia].
  - destruct IH as (i & c & Hi & Hsum); [done|].
    destruct (decide (x ≤ c)%nat).
    + exists (S i), c. split; [done|]. cbn [sum_list sum_list_with length] in *.
      unfold Datatypes.id in *. lia.
    + exists 0%nat, x. split; [done|]. cbn [sum_list sum_list_with length] in *.
      unfold Datatypes.id in *. nia.
Qed.

(** With at most ten bins, one bin holds a tenth of the baseline. *)
Lemma bucket_counts_tenth (expected : list R) :
  (3 ≤ length (psi_edges expected 10))%nat →
  ∃ i e, _bucket_counts (psi_edges expected 10) expected !! i = Some e ∧
         1 / 10 <= e <= 1.
Proof.
  intros Hlen. set (edges := psi_edges expected 10) in *.
  set (counts := np_histogram expected edges).
  assert (length counts = length edges - 1)%nat as Hcl.
  { unfold counts, np_histogram. by rewrite length_fmap, length_seq. }
  assert (1 ≤ sum_list counts)%nat as Hpos.
  { destruct (first_bin_inhabited expected 10 Hlen) as (v & Hv & Hbin).
    fold edges in Hbin.
    assert (counts !! 0%nat =
            Some (length (List.filter (in_bin edges 0) expected))) as Hc0.
    { unfold counts, np_histogram. rewrite list_lookup_fmap.
      destruct (length edges - 1)%nat eqn:Hk; [lia|]. done. }
    apply sum_list_lookup_le in Hc0.
    assert (In v (List.filter (in_bin edges 0) expected)) as Hf.
    { apply filter_In. split; [by apply list_elem_of_In|done]. }
    destruct (List.filter (in_bin edges 0) expected); [done|].
    cbn [length] in Hc0. lia. }
  destruct (sum_list_mean counts) as (i & c & Hi & Hmean).
  { intros Hnil. rewrite Hnil in Hpos. simpl in Hpos. lia. }
  pose proof (psi_edges_length expected 10) as Hel. fold edges in Hel.
  exists i, (np_clip (INR c / INR (Nat.max (sum_list counts) 1)) (1 / 1000000) 1).
  split.
  { unfold _bucket_counts. fold counts. by rewrite list_lookup_fmap, Hi. }
  rewrite Nat.max_l by lia.
  assert (0 < INR (sum_list counts)) by (apply lt_0_INR; lia).
  assert (INR (sum_list counts) <= 10 * INR c) as Hten.
  { replace 10 with (INR 10) by (simpl; lra). rewrite <- mult_INR.
    apply le_INR. nia. }
  assert (1 / 10 <= INR c / INR (sum_list counts)) as Hfrac.
  { apply (Rmult_le_reg_r (INR (sum_list counts))); [done|].
    replace (INR c / INR (sum_list counts) * INR (sum_list counts))
      with (INR c) by (field; lra).
    lra. }
  unfold np_clip, Rmax, Rmin.
  destruct (Rle_dec _ _); destruct (Rle_dec _ _); lra.
Qed.

Lemma ln_100000 : 8 <= ln 100000.
Proof.
  assert (1 <= ln 4) as H4.
  { rewrite <- (ln_exp 1). apply ln_mono; [apply exp_pos|].
    pose proof exp_le_3. lra. }
  transitivity (ln (4 ^ 8)).
  - rewrite ln_pow by lra. simpl. lra.
  - apply ln_mono; simpl; lra.
Qed.

(** The term of a bucket that holds a tenth of the baseline and none of
    the current values. *)
Lemma psi_term_tenth (e : R) :
  1 / 10 <= e <= 1 →
  3 / 4 <= (1 / 1000000 - e) * ln (1 / 1000000 / e).
Proof.
  intros He. pose proof ln_100000 as H5.
  assert (ln (1 / 1000000 / e) <= - ln 100000) as Hln.
  { rewrite <- ln_Rinv by lra. apply ln_mono.
    - apply Rdiv_lt_0_compat; lra.
    - apply (Rmult_le_reg_r e); [lra|].
      unfold Rdiv at 1. rewrite Rmult_assoc, Rinv_l by lra. lra. }
  replace ((1 / 1000000 - e) * ln (1 / 1000000 / e))
    with ((e - 1 / 1000000) * - ln (1 / 1000000 / e)) by ring.
  transitivity ((1 / 10 - 1 / 1000000) * 8); [lra|].
  apply Rmult_le_compat; lra.
Qed.

Lemma psi_terms_nonneg (a_pct e_pct : list R) :
  Forall (λ p, 1 / 1000000 <= p <= 1) a_pct →
  Forall (λ p, 1 / 1000000 <= p <= 1) e_pct →
  Forall (λ t, 0 <= t) (zip_with (λ a e, (a - e) * ln (a / e)) a_pct e_pct).
Proof.
  intros Ha. revert e_pct.
  induction Ha as [|a a_pct Ha _ IH]; intros e_pct He; simpl; [constructor|].
  destruct He as [|e e_pct He He']; simpl; constructor; [|by apply IH].
  apply psi_term_nonneg; lra.
Qed.

Lemma np_sum_lookup_le (l : list R) (i : nat) (x : R) :
  Forall (λ t, 0 <= t) l → l !! i = Some x → x <= np_sum l.
Proof.
  intros Hl. revert i. induction Hl as [|t l Ht Hl IH]; intros [|i] Hi;
    simplify_eq/=.
  - assert (0 <= np_sum l); [|lra].
    clear IH. induction Hl; simpl; lra.
  - apply IH in Hi. lra.
Qed.

(** The PSI of a feature whose current values all lie outside the range
    of its baseline. *)
Lemma psi_outside (expected actual : list R) :
  actual ≠ [] → (3 ≤ length (psi_edges expected 10))%nat →
  (∀ v, v ∈ actual →
     (∀ x, x ∈ expected → x < v) ∨ (∀ x, x ∈ expected → v < x)) →
  3 / 4 <= _psi expected actual 10.
Proof.
  intros Hact Hlen Hout.
  assert (expected ≠ []) as Hne.
  { intros ->. rewrite psi_edges_nil in Hlen. simpl in Hlen. lia. }
  unfold _psi. rewrite decide_False.
  2:{ intros [H|H]; apply length_zero_iff_nil in H; done. }
  rewrite decide_False by lia. cbv zeta.
  destruct (bucket_counts_tenth expected Hlen) as (i & e & He & Hbound).
  pose proof (bucket_counts_outside expected actual 10 Hne Hout) as Ha.
  destruct (lookup_lt_is_Some_2 (_bucket_counts (psi_edges expected 10) actual) i)
    as [a Hai].
  { apply lookup_lt_Some in He. by rewrite bucket_counts_length in *. }
  assert (a = 1 / 1000000) as -> by (eapply Forall_lookup_1 in Ha; eauto).
  transitivity ((1 / 1000000 - e) * ln (1 / 1000000 / e));
    [by apply psi_term_tenth|].
  apply (np_sum_lookup_le _ i).
  - apply psi_terms_nonneg; apply bucket_counts_bounds.
  - apply lookup_zip_with_Some. eauto.
Qed.

(** X10.  A listed feature whose current values all lie outside the range
    of its baseline values (each above all of them, or below all of
    them), the baseline giving at least three distinct decile edges, has
    a PSI of at least 0.75, and the report's status under the default
    thresholds is FAIL. *)
Theorem out_of_range_fails (base cur : gmap string (list (option R)))
    (cols : list string) (col : string) (b c : list (option R)) :
  col ∈ cols → base !! col = Some b → cur !! col = Some c →
  dropna c ≠ [] → (3 ≤ length (psi_edges (dropna b) 10))%nat →
  (∀ v, v ∈ dropna c →
     (∀ x, x ∈ dropna b → x < v) ∨ (∀ x, x ∈ dropna b → v < x)) →
  3 / 4 <= _psi (dropna b) (dropna c) 10 ∧
  status (compute_drift base cur cols default_warn_psi default_fail_psi) = FAIL.
Proof.
  intros Hin Hb Hc Hne Hlen Hout.
  pose proof (psi_outside _ _ Hne Hlen Hout) as Hpsi. split; [done|].
  cbn [status compute_drift].
  set (m := foldl (psi_step base cur) ∅ cols).
  assert (default_fail_psi <= max_values m) as Hmax.
  { apply max_values_reaches; [unfold default_fail_psi; lra|].
    exists col, (_psi (dropna b) (dropna c) 10). split.
    - by apply psi_by_listed.
    - unfold default_fail_psi. lra. }
  by destruct (Rle_dec default_fail_psi (max_values m)).
Qed.

(** A quantile whose position is a whole number is the value there. *)
Lemma quantile_at_index (s : list R) (q : R) (i : nat) :
  q * INR (length s - 1) = INR i → quantile_at s q = nth i s 0.
Proof.
  intros Hpos. unfold quantile_at. rewrite Hpos.
  assert (frac_part (INR i) = 0) as ->.
  { unfold frac_part. rewrite Int_part_INR, <- INR_IZR_INZ. ring. }
  rewrite Int_part_INR, Nat2Z.id. ring.
Qed.

Lemma np_unique_three (l : list R) (x y z : R) :
  x ∈ l → y ∈ l → z ∈ l → x < y → y < z → (3 ≤ length (np_unique l))%nat.
Proof.
  intros Hx Hy Hz Hxy Hyz.
  assert ([x; y; z] ⊆+ np_unique l) as Hsub.
  { apply NoDup_submseteq.
    - repeat constructor; rewrite ?elem_of_cons, ?elem_of_nil; intros H;
        repeat destruct H as [H|H]; lra.
    - intros v Hv. unfold np_unique.
      apply elem_of_drop_repeats. rewrite np_sort_perm.
      repeat (apply elem_of_cons in Hv as [->|Hv]; [done|]).
      apply elem_of_nil in Hv. destruct Hv. }
  apply submseteq_length in Hsub. done.
Qed.

(** A baseline of 1, 2, 3 against a current value of 10. *)
Definition shift_base : gmap string (list (option R)) :=
  {[ "sessions_7d"%string := [Some 1; Some 2; Some 3] ]}.
Definition shift_cur : gmap string (list (option R)) :=
  {[ "sessions_7d"%string := [Some 10] ]}.

Lemma shift_edges : (3 ≤ length (psi_edges [1; 2; 3]%R 10))%nat.
Proof.
  assert (np_sort [1; 2; 3] = [1; 2; 3]) as Hsort.
  { unfold np_sort. simpl. destruct (Rle_dec 2 3); [|lra]. simpl.
    destruct (Rle_dec 1 2); [done|lra]. }
  unfold psi_edges, np_quantile. rewrite Hsort.
  assert (∀ i v, (i ≤ 10)%nat → INR i / 10 * INR 2 = INR v →
            nth v [1; 2; 3] 0 ∈ quantile_at [1; 2; 3] <$> linspace01 (10 + 1))
    as Hq.
  { intros i v Hi Hpos. apply list_elem_of_fmap. exists (INR i / INR 10). split.
    - symmetry. apply quantile_at_index. rewrite <- Hpos. simpl. lra.
    - unfold linspace01. apply list_elem_of_fmap. exists i. split; [done|].
      apply elem_of_seq. lia. }
  apply (np_unique_three _ 1 2 3); try lra.
  - apply (Hq 0%nat 0%nat); [lia|]. simpl. lra.
  - apply (Hq 5%nat 1%nat); [lia|]. simpl. lra.
  - apply (Hq 10%nat 2%nat); [lia|]. simpl. lra.
Qed.

Lemma out_of_range_fails_witness :
  3 / 4 <= _psi [1; 2; 3] [10] 10 ∧
  status (compute_drift shift_base shift_cur ["sessions_7d"%string]
            default_warn_psi default_fail_psi) = FAIL.
Proof.
  apply (out_of_range_fails shift_base shift_cur ["sessions_7d"%string]
           "sessions_7d" [Some 1; Some 2; Some 3] [Some 10]).
  - apply list_elem_of_singleton. reflexivity.
  - reflexivity.
  - reflexivity.
  - discriminate.
  - exact shift_edges.
  - intros v Hv. apply list_elem_of_singleton in Hv. left. intros x Hx.
    rewrite Hv.
    repeat (apply elem_of_cons in Hx as [->|Hx]; [lra|]).
    apply elem_of_nil in Hx. destruct Hx.
Defined.

(** ** The order of the rows *)

Lemma np_sort_permutation (l l' : list R) : l ≡ₚ l' → np_sort l = np_sort l'.
Proof.
  intros Hp.
  assert (AntiSymm eq Rle) by (intros x y Hxy Hyx; by apply Rle_antisym).
  apply (StronglySorted_unique Rle).
  - apply np_sort_sorted.
  - apply np_sort_sorted.
  - by rewrite !np_sort_perm.
Qed.

Lemma filter_length_permutation {A} (f : A → bool) (l l' : list A) :
  l ≡ₚ l' → length (List.filter f l) = length (List.filter f l').
Proof.
  induction 1 as [|x l l' _ IH|x y l|l l' l'' _ IH1 _ IH2]; simpl.
  - done.
  - destruct (f x); simpl; by rewrite IH.
  - by destruct (f x), (f y).
  - by rewrite IH1.
Qed.

Lemma dropna_permutation (col col' : list (option R)) :
  col ≡ₚ col' → dropna col ≡ₚ dropna col'.
Proof.
  unfold dropna.
  induction 1 as [|cell l l' _ IH|c1 c2 l|l l' l'' _ IH1 _ IH2]; csimpl.
  - done.
  - destruct cell; csimpl; by rewrite IH.
  - destruct c1, c2; csimpl; try done. apply Permutation_swap.
  - by rewrite IH1.
Qed.

Lemma psi_permutation (expected expected' actual actual' : list R) (buckets : nat) :
  expected ≡ₚ expected' → actual ≡ₚ actual' →
  _psi expected actual buckets = _psi expected' actual' buckets.
Proof.
  intros He Ha.
  assert (psi_edges expected buckets = psi_edges expected' buckets) as Hedges.
  { unfold psi_edges, np_quantile. by rewrite (np_sort_permutation _ _ He). }
  assert (∀ edges x x', x ≡ₚ x' → _bucket_counts edges x = _bucket_counts edges x')
    as Hcounts.
  { intros edges x x' Hx. unfold _bucket_counts.
    assert (np_histogram x edges = np_histogram x' edges) as ->; [|done].
    unfold np_histogram. apply list_fmap_ext. intros i j _. simpl.
    by apply filter_length_permutation. }
  unfold _psi.
  rewrite (Permutation_length He), (Permutation_length Ha), Hedges.
  by rewrite (Hcounts _ _ _ He), (Hcounts _ _ _ Ha).
Qed.

(** X28.  The report does not depend on the order of the rows of the two
    files: with every column of the baseline and of the current table
    rearranged, each in any way, [compute_drift] returns the same PSI for
    every feature, the same maximum and the same status. *)
Theorem compute_drift_row_order (base base' cur cur' : gmap string (list (option R)))
    (cols : list string) (warn_psi fail_psi : R) :
  (∀ col, option_Forall2 Permutation (base !! col) (base' !! col)) →
  (∀ col, option_Forall2 Permutation (cur !! col) (cur' !! col)) →
  compute_drift base cur cols warn_psi fail_psi
    = compute_drift base' cur' cols warn_psi fail_psi.
Proof.
  intros Hbase Hcur.
  assert (foldl (psi_step base cur) ∅ cols = foldl (psi_step base' cur') ∅ cols)
    as Hmap.
  { apply map_eq. intros col. rewrite !psi_by_lookup.
    case_decide; [|done].
    destruct (Hbase col) as [b b' Hb|]; [|done].
    destruct (Hcur col) as [c c' Hc|]; [|done].
    f_equal. apply psi_permutation; by apply dropna_permutation. }
  unfold compute_drift. by rewrite Hmap.
Qed.

(** The baseline of [shift_base] with its rows in another order. *)
Definition shift_base_shuffled : gmap string (list (option R)) :=
  {[ "sessions_7d"%string := [Some 3; Some 1; Some 2] ]}.

Lemma compute_drift_row_order_witness :
  compute_drift shift_base shift_cur ["sessions_7d"%string]
    default_warn_psi default_fail_psi
  = compute_drift shift_base_shuffled shift_cur ["sessions_7d"%string]
      default_warn_psi default_fail_psi.
Proof.
  apply (compute_drift_row_order shift_base shift_base_shuffled shift_cur shift_cur).
  - intros col. unfold shift_base, shift_base_shuffled.
    destruct (decide (col = "sessions_7d"%string)) as [->|Hne].
    + rewrite !lookup_singleton_eq. constructor. symmetry.
      apply (Permutation_cons_append [Some 1; Some 2] (Some 3)).
    + rewrite !lookup_singleton_ne by done. constructor.
  - intros col. destruct (shift_cur !! col); constructor. reflexivity.
Defined.

End Drift.

(** * Promoter: [training/promote_model.py] *)

Module Promoter.

(** A JSON value as [json.loads] yields it.  A finite float is the
    rational it denotes. *)
#[local] Unset Elimination Schemes.
Inductive json : Type :=
| JNull
| JBool (b : bool)
| JInt (z : Z)
| JFloat (q : Q)
| JStr (s : string)
| JArr (items : list json)
| JObj (members : list (string * json)).
#[local] Set Elimination Schemes.

Record Candidate : Type := mkCandidate {
  model_path : string;
  metrics_path : string;
  score : Q;
  metric_name : string
}.

(** The models and the metrics directory: their paths as configured and
    the files in them by name.  A model file is an opaque blob; a file of
    the metrics directory holds a JSON object. *)
Record Dirs : Type := mkDirs {
  models_root : string;
  metrics_root : string;
  models : gmap string string;
  metrics : gmap string (gmap string json)
}.

(** [isinstance(v, (int, float))] and then [float(v)]; a [bool] is an
    [int] in Python. *)
Definition as_float (v : json) : option Q :=
  match v with
  | JBool b => Some (if b then 1 else 0)%Q
  | JInt z => Some (inject_Z z)
  | JFloat q => Some q
  | _ => None
  end.

Definition metric_keys : list string :=
  ["pr_auc"; "average_precision"; "roc_auc"; "f1"; "accuracy"]%string.

(** The loop of [_score_from_metrics] over the keys in preference order. *)
Fixpoint first_metric (m : gmap string json) (keys : list string)
  : option (string * Q) :=
  match keys with
  | [] => None
  | key :: keys' =>
      match m !! key ≫= as_float with
      | Some x => Some (key, x)
      | None => first_metric m keys'
      end
  end.

Definition _score_from_metrics (m : gmap string json) : string * Q :=
  default ("unknown"%string, (-1)%Q) (first_metric m metric_keys).

(** [name] matches the pattern [*.json]. *)
Definition is_json (name : string) : bool :=
  let n := String.length name in
  (5 <=? n)%nat && String.eqb (substring (n - 5) 5 name) ".json".

(** [Path.stem] of a name matching [*.json]: the name without its suffix;
    a name that starts with its only dot has no suffix. *)
Definition stem (name : string) : string :=
  if String.eqb name ".json" then name
  else substring 0 (String.length name - 5) name.

(** [sorted(metrics_dir.glob("*.json"))]: paths of one directory compare
    as their names do. *)
Definition scan (d : Dirs) : list string :=
  Py.sorted String.ltb false (List.filter is_json (map_to_list (metrics d)).*1).

(** One turn of the loop of [_find_candidates]. *)
Definition candidate_of (d : Dirs) (mp : string) : option Candidate :=
  let model_guess := (stem mp +:+ ".joblib")%string in
  if decide (is_Some (models d !! model_guess)) then
    m ← metrics d !! mp;
    let '(name, s) := _score_from_metrics m in
    Some (mkCandidate model_guess mp s name)
  else None.

Definition _find_candidates (d : Dirs) : list Candidate :=
  omap (candidate_of d) (scan d).

(** The dictionary that [promote_model] returns. *)
Record Promotion : Type := mkPromotion {
  promoted_from_model : string;
  promoted_from_metrics : string;
  metric_used : string;
  promoted_score : Q;
  production_model : string;
  production_metrics : string
}.

Definition prod_model_name : string := "production_latest.joblib".
Definition prod_metrics_name : string := "production_latest.json".

(** [c.score < c'.score], the comparison [sorted] makes on the keys. *)
Definition score_ltb (c c' : Candidate) : bool :=
  negb (Qle_bool (score c') (score c)).

(** [shutil.copy2(src, dst)] within one directory: the destination gets
    the content of the source; copying a file onto itself is refused. *)
Definition copy2 {V} (dir : gmap string V) (src dst : string)
  : Result (gmap string V) :=
  if decide (src = dst) then
    Raise (SameFileError (src +:+ " and " +:+ dst +:+ " are the same file"))
  else match dir !! src with
       | Some content => Ok (<[dst := content]> dir)
       | None => Raise (FileNotFoundError src)
       end.

(** [promote_model]: the outcome and the directories afterwards. *)
Definition promote_model (d : Dirs) : Result Promotion * Dirs :=
  let candidates := _find_candidates d in
  match candidates with
  | [] =>
      (Raise (FileNotFoundError
                ("No promotable models found in " +:+ models_root d +:+
                 ". Expected a .joblib with matching .json metrics.")), d)
  | _ :: _ =>
      match Py.getitem (Py.sorted score_ltb true candidates) 0 with
      | Raise e => (Raise e, d)
      | Ok best =>
          match copy2 (models d) (model_path best) prod_model_name with
          | Raise e => (Raise e, d)
          | Ok models' =>
              let d1 := mkDirs (models_root d) (metrics_root d) models' (metrics d) in
              match copy2 (metrics d) (metrics_path best) prod_metrics_name with
              | Raise e => (Raise e, d1)
              | Ok metrics' =>
                  (Ok (mkPromotion (model_path best) (metrics_path best)
                         (metric_name best) (score best)
                         (models_root d +:+ "/" +:+ prod_model_name)
                         (metrics_root d +:+ "/" +:+ prod_metrics_name)),
                   mkDirs (models_root d) (metrics_root d) models' metrics')
              end
          end
      end
  end.

(** ** The metrics documents of the training stages
    ([train_baseline.py] and [train_candidate.py]) *)

(** What [_evaluate] returns. *)
Definition evaluation (pr_auc roc_auc : Q) (cm report pr_curve : json)
  : list (string * json) :=
  [("pr_auc", JFloat pr_auc); ("roc_auc", JFloat roc_auc);
   ("confusion_matrix", cm); ("classification_report", report);
   ("pr_curve_sample", pr_curve)]%string.

(** The dictionary [meta] that is dumped to the metrics file. *)
Definition meta (model_type artifact : string) (train_rows test_rows : Z)
    (churn_rate_train churn_rate_test : Q) (metrics : list (string * json))
  : gmap string json :=
  list_to_map
    [("model_type", JStr model_type); ("artifact", JStr artifact);
     ("train_rows", JInt train_rows); ("test_rows", JInt test_rows);
     ("churn_rate_train", JFloat churn_rate_train);
     ("churn_rate_test", JFloat churn_rate_test);
     ("metrics", JObj metrics)]%string.

Definition baseline_meta := meta "logistic_regression".
Definition candidate_meta := meta "hist_gradient_boosting".

(** ** The first element of a stable descending sort *)

Section FirstMaximum.
Context {A : Type} (key : A → Q).
Local Open Scope Q_scope.

Definition key_ltb (a b : A) : bool := negb (Qle_bool (key b) (key a)).

Lemma key_ltb_true a b : key_ltb a b = true ↔ key a < key b.
Proof.
  unfold key_ltb. rewrite negb_true_iff, <- not_true_iff_false, Qle_bool_iff.
  split; [apply Qnot_le_lt | apply Qlt_not_le].
Qed.

Lemma key_ltb_false a b : key_ltb a b = false ↔ key b <= key a.
Proof. unfold key_ltb. by rewrite negb_false_iff, Qle_bool_iff. Qed.

(** Where the inserted element ends up last, everything else is smaller;
    otherwise the last element stays. *)
Lemma last_insert (a : A) (S : list A) :
  (Forall (λ y, key y < key a) S ∧ last (Py.insert key_ltb a S) = Some a) ∨
  (∃ y, y ∈ S ∧ key a <= key y ∧ last (Py.insert key_ltb a S) = last S).
Proof.
  induction S as [|y S IH]; simpl; [by left|].
  destruct (key_ltb y a) eqn:Hya.
  - apply key_ltb_true in Hya.
    assert (last (y :: Py.insert key_ltb a S) = last (Py.insert key_ltb a S)) as ->.
    { destruct S; simpl; [done|]. by destruct (key_ltb _ _). }
    destruct IH as [[Hall ->]|(z & Hz & Hle & ->)].
    + left. by split; [constructor|].
    + right. exists z. split_and!; [by right|done|].
      destruct S; [by apply elem_of_nil in Hz|done].
  - apply key_ltb_false in Hya. right. exists y. split_and!; [by left|done|done].
Qed.

(** The last element of the ascending stable sort is the last of the
    largest elements of the list. *)
Lemma last_sort_stable (l : list A) (x : A) :
  last (Py.sort_stable key_ltb l) = Some x →
  ∃ l1 l2, l = l1 ++ x :: l2 ∧
    Forall (λ c, key c <= key x) l1 ∧ Forall (λ c, key c < key x) l2.
Proof.
  revert x. induction l as [|a l IH]; intros x; [done|].
  change (Py.sort_stable key_ltb (a :: l))
    with (Py.insert key_ltb a (Py.sort_stable key_ltb l)).
  destruct (last_insert a (Py.sort_stable key_ltb l))
    as [[Hall ->]|(y & Hy & Hay & ->)].
  - intros [= <-]. exists [], l. split_and!; [done|constructor|].
    by rewrite <- (py_sort_stable_perm key_ltb l).
  - intros (l1 & l2 & -> & H1 & H2)%IH.
    exists (a :: l1), l2. split_and!; [done| |done].
    constructor; [|done]. rewrite py_sort_stable_perm in Hy.
    apply elem_of_app in Hy as [Hy|Hy].
    + eapply Forall_forall in H1; [|done]. by eapply Qle_trans.
    + apply elem_of_cons in Hy as [->|Hy]; [done|].
      eapply Forall_forall in H2; [|done].
      eapply Qle_trans; [done|]. by apply Qlt_le_weak.
Qed.

(** [sorted(l, key=key, reverse=True)[0]] is the first of the largest
    elements of the list. *)
Lemma sorted_reverse_head (l : list A) (best : A) :
  Py.getitem (Py.sorted key_ltb true l) 0 = Ok best →
  ∃ before after, l = before ++ best :: after ∧
    Forall (λ c, key c < key best) before ∧
    Forall (λ c, key c <= key best) after.
Proof.
  unfold Py.getitem, Py.sorted. simpl. rewrite <- head_lookup, head_reverse.
  destruct (last _) as [x|] eqn:Hlast; [|done]. intros [= ->].
  apply last_sort_stable in Hlast as (l1 & l2 & Hl & H1 & H2).
  exists (reverse l2), (reverse l1). split_and!.
  - rewrite <- (reverse_involutive l), Hl, reverse_app, reverse_cons.
    by rewrite <- app_assoc.
  - by rewrite reverse_Permutation.
  - by rewrite reverse_Permutation.
Qed.

Lemma sorted_reverse_head_exists (l : list A) :
  l ≠ [] → ∃ best, Py.getitem (Py.sorted key_ltb true l) 0 = Ok best.
Proof.
  intros Hne. unfold Py.getitem. simpl. change (Z.to_nat 0) with 0%nat.
  change (reverse (Py.sort_stable key_ltb (reverse l)))
    with (Py.sorted key_ltb true l).
  destruct (Py.sorted key_ltb true l !! 0%nat) as [x|] eqn:Hx; [by eauto|].
  apply lookup_ge_None in Hx.
  assert (length (Py.sorted key_ltb true l) = length l) as Hlen
    by by rewrite py_sorted_perm.
  destruct l; [done|]. simpl in *. lia.
Qed.
End FirstMaximum.

(** ** The order of the scan *)

Lemma string_ltb_leb (a b : string) : String.ltb a b = true → String.leb a b = true.
Proof. unfold String.ltb, String.leb. by destruct (String.compare a b). Qed.

Lemma string_ltb_false (a b : string) : String.ltb a b = false → String.leb b a = true.
Proof.
  unfold String.ltb, String.leb. rewrite (String.compare_antisym b a).
  by destruct (String.compare a b).
Qed.

Lemma string_leb_ne_ltb (a b : string) :
  String.leb a b = true → a ≠ b → String.ltb a b = true.
Proof.
  unfold String.ltb, String.leb. intros Hle Hne.
  destruct (String.compare a b) eqn:Hc; [|done..].
  by apply String.compare_eq_iff in Hc.
Qed.

Global Instance string_leb_trans : Transitive (λ a b, String.leb a b = true).
Proof.
  intros a b c. unfold String.leb. intros Hab Hbc.
  destruct (String.compare a b) eqn:Hc1; [|clear Hab|done].
  { apply String.compare_eq_iff in Hc1 as ->. done. }
  destruct (String.compare b c) eqn:Hc2; [|clear Hbc|done].
  { apply String.compare_eq_iff in Hc2 as ->. by rewrite Hc1. }
  apply OrderedTypeEx.String_as_OT.cmp_lt in Hc1, Hc2.
  pose proof (OrderedTypeEx.String_as_OT.lt_trans _ _ _ Hc1 Hc2) as Hac.
  apply OrderedTypeEx.String_as_OT.cmp_lt in Hac.
  unfold OrderedTypeEx.String_as_OT.cmp in Hac. by rewrite Hac.
Qed.

Lemma strictly_sorted (l : list string) :
  Sorted (λ a b, String.leb a b = true) l → NoDup l →
  StronglySorted (λ a b, String.ltb a b = true) l.
Proof.
  intros Hs%Sorted_StronglySorted; [|apply _].
  induction Hs as [|x l Hs IH Hall]; intros Hnd; [constructor|].
  apply NoDup_cons in Hnd as [Hx Hnd]. constructor; [by apply IH|].
  apply Forall_forall. intros y Hy. apply string_leb_ne_ltb.
  - by eapply Forall_forall in Hall.
  - by intros ->.
Qed.

Lemma StronglySorted_omap {B C} (R : relation B) (f : B → option C) (g : C → B)
    (l : list B) :
  (∀ x y, f x = Some y → g y = x) →
  StronglySorted R l → StronglySorted (λ a b, R (g a) (g b)) (omap f l).
Proof.
  intros Hg. induction 1 as [|x l Hs IH Hall]; csimpl; [constructor|].
  destruct (f x) as [y|] eqn:Hy; [|done]. constructor; [done|].
  apply Forall_forall. intros z (w & Hw & Hz)%list_elem_of_omap.
  rewrite (Hg _ _ Hy), (Hg _ _ Hz). by eapply Forall_forall in Hall.
Qed.

Lemma scan_sorted (d : Dirs) :
  StronglySorted (λ a b, String.ltb a b = true) (scan d).
Proof.
  unfold scan, Py.sorted. apply strictly_sorted.
  - apply py_sort_stable_sorted; auto using string_ltb_leb, string_ltb_false.
  - rewrite py_sort_stable_perm. apply NoDup_ListNoDup, List.NoDup_filter.
    apply NoDup_ListNoDup, NoDup_fst_map_to_list.
Qed.

Lemma candidate_of_Some (d : Dirs) (mp : string) (c : Candidate) :
  candidate_of d mp = Some c →
  metrics_path c = mp ∧
  model_path c = (stem mp +:+ ".joblib")%string ∧
  is_Some (models d !! model_path c) ∧
  ∃ m, metrics d !! mp = Some m ∧ _score_from_metrics m = (metric_name c, score c).
Proof.
  unfold candidate_of. case_decide as Hm; [|done].
  destruct (metrics d !! mp) as [m|]; simpl; [|done].
  destruct (_score_from_metrics m) as [name s] eqn:Hs. intros [= <-]. simpl.
  split_and!; eauto.
Qed.

(** The candidates come in strictly increasing order of their metrics
    file names. *)
Lemma find_candidates_sorted (d : Dirs) :
  StronglySorted (λ a b, String.ltb (metrics_path a) (metrics_path b) = true)
    (_find_candidates d).
Proof.
  unfold _find_candidates.
  apply (StronglySorted_omap (λ a b, String.ltb a b = true)); [|apply scan_sorted].
  by intros mp c [? _]%candidate_of_Some.
Qed.

(** ** Properties of [promote_model] *)

(** No candidate means that no [*.json] file of the metrics directory has
    its [.joblib] file in the models directory. *)
Lemma find_candidates_nil (d : Dirs) :
  _find_candidates d = [] ↔
  ∀ mp, mp ∈ scan d → models d !! (stem mp +:+ ".joblib")%string = None.
Proof.
  unfold _find_candidates. split.
  - intros Hnil mp Hmp.
    destruct (models d !! (stem mp +:+ ".joblib")%string) as [blob|] eqn:Hb; [|done].
    assert (is_Some (metrics d !! mp)) as [m Hm].
    { unfold scan in Hmp. rewrite py_sorted_perm in Hmp.
      apply list_elem_of_In, List.filter_In in Hmp as [Hmp _].
      apply list_elem_of_In, list_elem_of_fmap in Hmp as ([mp' m] & -> & Hin).
      apply elem_of_map_to_list in Hin. eauto. }
    assert (is_Some (candidate_of d mp)) as [c Hc].
    { unfold candidate_of. rewrite Hb, Hm. simpl.
      destruct (_score_from_metrics m). eauto. }
    assert (c ∈ omap (candidate_of d) (scan d)) as Hin
      by (apply list_elem_of_omap; eauto).
    rewrite Hnil in Hin. by apply elem_of_nil in Hin.
  - intros Hnone. destruct (omap _ _) as [|c l] eqn:Hl; [done|].
    assert (c ∈ omap (candidate_of d) (scan d)) as Hin by (rewrite Hl; left).
    apply list_elem_of_omap in Hin as (mp & Hmp & Hc).
    apply candidate_of_Some in Hc as (_ & Hpath & [blob Hblob] & _).
    rewrite Hpath, (Hnone _ Hmp) in Hblob. done.
Qed.

(** [promote_model] returns whenever there is a candidate, unless the one
    it selects is the production alias itself, which [copy2] refuses to
    copy onto itself. *)
Lemma promote_model_returns (d : Dirs) :
  _find_candidates d ≠ [] →
  ∃ best, Py.getitem (Py.sorted score_ltb true (_find_candidates d)) 0 = Ok best ∧
    (model_path best ≠ prod_model_name → metrics_path best ≠ prod_metrics_name →
     ∃ promo d', promote_model d = (Ok promo, d')).
Proof.
  intros Hne.
  destruct (sorted_reverse_head_exists score _ Hne) as [best Hbest].
  exists best. split; [done|]. intros Hm1 Hm2.
  assert (best ∈ _find_candidates d) as Hin.
  { apply sorted_reverse_head in Hbest as (l1 & l2 & -> & _).
    apply elem_of_app. right. left. }
  apply list_elem_of_omap in Hin as (mp & _ & Hc).
  apply candidate_of_Some in Hc as (Hmp & _ & [blob Hblob] & m & Hm & _).
  unfold promote_model. destruct (_find_candidates d) eqn:Hl; [done|].
  unfold score_ltb, key_ltb in *. rewrite Hbest. unfold copy2.
  rewrite !decide_False by done. rewrite Hblob, Hmp, Hm. eauto.
Qed.


(** C5.  When the scan finds no metrics file with its model file,
    [promote_model] raises the missing-file error and the directories are
    as before: nothing was copied, and whatever production alias files
    were there are untouched. *)
Theorem promote_no_candidates (d : Dirs) :
  _find_candidates d = [] →
  ∃ msg, promote_model d = (Raise (FileNotFoundError msg), d) ∧
    models (promote_model d).2 !! prod_model_name = models d !! prod_model_name ∧
    metrics (promote_model d).2 !! prod_metrics_name = metrics d !! prod_metrics_name.
Proof.
  intros Hnil. unfold promote_model. rewrite Hnil. simpl. eauto.
Qed.

(** C6.  The metrics document that [train_baseline] and [train_candidate]
    write has none of the five recognized metric keys at its top level
    (they are members of the object under "metrics"), so the promoter
    reads it as metric "unknown" with score -1. *)
Theorem trained_metrics_score_unknown (artifact : string) (train_rows test_rows : Z)
    (churn_rate_train churn_rate_test pr_auc roc_auc : Q) (cm report pr_curve : json) :
  let evaluated := evaluation pr_auc roc_auc cm report pr_curve in
  let written_by_baseline :=
    baseline_meta artifact train_rows test_rows churn_rate_train churn_rate_test evaluated in
  let written_by_candidate :=
    candidate_meta artifact train_rows test_rows churn_rate_train churn_rate_test evaluated in
  _score_from_metrics written_by_baseline = ("unknown"%string, (-1)%Q) ∧
  _score_from_metrics written_by_candidate = ("unknown"%string, (-1)%Q) ∧
  Forall (λ key, written_by_baseline !! key = None ∧
                 written_by_candidate !! key = None) metric_keys ∧
  written_by_baseline !! "metrics"%string = Some (JObj evaluated) ∧
  written_by_candidate !! "metrics"%string = Some (JObj evaluated) ∧
  ("pr_auc"%string, JFloat pr_auc) ∈ evaluated ∧
  ("roc_auc"%string, JFloat roc_auc) ∈ evaluated.
Proof.
  simpl. split_and!; try reflexivity.
  - repeat constructor.
  - left.
  - right. left.
Qed.

(** A candidate whose metrics file is such a document competes with the
    score -1. *)
Lemma trained_candidate_score (d : Dirs) (c : Candidate) (model_type artifact : string)
    (train_rows test_rows : Z) (rate_train rate_test : Q) (evaluated : list (string * json)) :
  c ∈ _find_candidates d →
  metrics d !! metrics_path c =
    Some (meta model_type artifact train_rows test_rows rate_train rate_test evaluated) →
  metric_name c = "unknown"%string ∧ score c = (-1)%Q.
Proof.
  intros (mp & _ & Hc)%list_elem_of_omap Hdoc.
  apply candidate_of_Some in Hc as (<- & _ & _ & m & Hm & Hs).
  rewrite Hdoc in Hm. injection Hm as <-.
  assert (_score_from_metrics
            (meta model_type artifact train_rows test_rows rate_train rate_test evaluated)
          = ("unknown"%string, (-1)%Q)) as Hu by reflexivity.
  rewrite Hu in Hs. by injection Hs as <- <-.
Qed.

(** ** Two directories *)

(** Three candidates, two of them tied below the third, an older alias
    pair with a lower score, a metrics file without a model and a file
    that is no metrics file. *)
Definition shelf : Dirs :=
  mkDirs "artifacts/models" "artifacts/metrics"
    (list_to_map
       [("a.joblib", "model a"); ("b.joblib", "model b"); ("c.joblib", "model c");
        ("production_latest.joblib", "old model")]%string)
    (list_to_map
       [("b.json", {[ "pr_auc" := JFloat (9 # 10) ]});
        ("a.json", {[ "roc_auc" := JFloat (9 # 10); "pr_auc" := JStr "n/a" ]});
        ("c.json", {[ "f1" := JFloat (8 # 10) ]});
        ("orphan.json", ∅); ("notes.txt", ∅);
        ("production_latest.json", {[ "pr_auc" := JFloat (1 # 2) ]})]%string).

Definition shelf_best : Candidate :=
  mkCandidate "a.joblib" "a.json" (9 # 10) "roc_auc".

Definition shelf_promotion : Promotion :=
  mkPromotion "a.joblib" "a.json" "roc_auc" (9 # 10)
    "artifacts/models/production_latest.joblib"
    "artifacts/metrics/production_latest.json".

Definition shelf_after : Dirs := Eval vm_compute in (promote_model shelf).2.


(** The tie between [a] and [b] goes to [a], and the alias holds its
    model afterwards. *)
Example shelf_tie :
  (promote_model shelf).1 = Ok shelf_promotion ∧
  models shelf_after !! prod_model_name = Some "model a"%string.
Proof. split; vm_compute; reflexivity. Qed.

(** An alias model is in place, but no metrics file has its model. *)
Definition bare : Dirs :=
  mkDirs "artifacts/models" "artifacts/metrics"
    (list_to_map [("production_latest.joblib", "old model")]%string)
    (list_to_map [("orphan.json", {[ "pr_auc" := JFloat (9 # 10) ]}); ("notes.txt", ∅)]%string).

Lemma promote_no_candidates_witness :
  ∃ msg, promote_model bare = (Raise (FileNotFoundError msg), bare) ∧
    models (promote_model bare).2 !! prod_model_name = models bare !! prod_model_name ∧
    metrics (promote_model bare).2 !! prod_metrics_name = metrics bare !! prod_metrics_name.
Proof.
  apply (promote_no_candidates bare). vm_compute. reflexivity.
Defined.

(** ** File names *)

Lemma string_length_app (a b : string) :
  String.length (a +:+ b) = String.length a + String.length b.
Proof. induction a as [|ch a IH]; simpl; [done|]. by rewrite IH. Qed.

Lemma substring_app_skip (a b : string) (n : nat) :
  substring (String.length a) n (a +:+ b) = substring 0 n b.
Proof. induction a as [|ch a IH]; simpl; done. Qed.

Lemma substring_app_prefix (a b : string) :
  substring 0 (String.length a) (a +:+ b) = a.
Proof.
  induction a as [|ch a IH]; simpl; [by destruct b|]. by rewrite IH.
Qed.

Lemma substring_all (s : string) : substring 0 (String.length s) s = s.
Proof. induction s as [|ch s IH]; simpl; [done|]. by rewrite IH. Qed.

Lemma substring_split (s : string) (k : nat) :
  k ≤ String.length s →
  s = (substring 0 k s +:+ substring k (String.length s - k) s)%string.
Proof.
  revert s. induction k as [|k IH]; intros s Hk.
  - rewrite Nat.sub_0_r, substring_all. by destruct s.
  - destruct s as [|ch s]; simpl in *; [lia|].
    change (String ch s =
            String ch (substring 0 k s +:+ substring k (String.length s - k) s)).
    f_equal. apply IH. lia.
Qed.

Lemma string_app_inj_r (a b x : string) : (a +:+ x = b +:+ x)%string → a = b.
Proof.
  intros Heq. pose proof (f_equal String.length Heq) as Hlen.
  rewrite !string_length_app in Hlen.
  rewrite <- (substring_app_prefix a x), <- (substring_app_prefix b x), Heq.
  f_equal. lia.
Qed.

(** A name made of a stem and [.json] matches [*.json], and the stem is
    what [Path.stem] gives back. *)
Lemma is_json_app (s : string) : is_json (s +:+ ".json") = true.
Proof.
  unfold is_json. rewrite string_length_app. simpl String.length.
  rewrite Nat.add_sub, substring_app_skip.
  apply andb_true_iff. split; [apply Nat.leb_le; lia|done].
Qed.

Lemma stem_app (s : string) : s ≠ ""%string → stem (s +:+ ".json") = s.
Proof.
  intros Hne. unfold stem.
  assert (String.eqb (s +:+ ".json") ".json" = false) as ->.
  { apply String.eqb_neq. intros Heq.
    apply (f_equal String.length) in Heq. rewrite string_length_app in Heq.
    destruct s; simpl in Heq; [done|lia]. }
  rewrite string_length_app. simpl String.length.
  by rewrite Nat.add_sub, substring_app_prefix.
Qed.

Lemma is_json_split (mp : string) :
  is_json mp = true → mp ≠ ".json"%string → mp = (stem mp +:+ ".json")%string.
Proof.
  unfold is_json, stem. intros [Hlen Hsuffix]%andb_true_iff Hne.
  apply Nat.leb_le in Hlen. apply String.eqb_eq in Hsuffix.
  apply String.eqb_neq in Hne. rewrite Hne.
  rewrite (substring_split mp (String.length mp - 5)) at 1 by lia.
  replace (String.length mp - (String.length mp - 5)) with 5 by lia.
  by rewrite Hsuffix.
Qed.

(** Only [production_latest.json] has [production_latest.joblib] as the
    model that goes with it. *)
Lemma stem_prod (mp : string) :
  is_json mp = true →
  (stem mp +:+ ".joblib")%string = prod_model_name ↔ mp = prod_metrics_name.
Proof.
  intros Hjson. split; [|by intros ->].
  destruct (decide (mp = ".json"%string)) as [->|Hne]; [done|].
  intros Heq. rewrite (is_json_split mp Hjson Hne).
  apply (string_app_inj_r _ "production_latest" ".joblib") in Heq.
  by rewrite Heq.
Qed.


Lemma string_ltb_asym (a b : string) :
  String.ltb a b = true → String.ltb b a = true → False.
Proof.
  unfold String.ltb. rewrite (String.compare_antisym a b).
  by destruct (String.compare b a).
Qed.

(** ** What the scan finds *)

Lemma elem_of_scan (d : Dirs) (mp : string) :
  mp ∈ scan d ↔ is_json mp = true ∧ is_Some (metrics d !! mp).
Proof.
  unfold scan. rewrite py_sorted_perm, list_elem_of_In, List.filter_In.
  rewrite <- list_elem_of_In, list_elem_of_fmap. split.
  - intros [([mp' m] & -> & Hin%elem_of_map_to_list) Hjson]. eauto.
  - intros [Hjson [m Hm]]. split; [|done]. exists (mp, m). split; [done|].
    by apply elem_of_map_to_list.
Qed.

Lemma elem_of_find_candidates (d : Dirs) (c : Candidate) :
  c ∈ _find_candidates d ↔
  is_json (metrics_path c) = true ∧
  model_path c = (stem (metrics_path c) +:+ ".joblib")%string ∧
  is_Some (models d !! model_path c) ∧
  ∃ m, metrics d !! metrics_path c = Some m ∧
       _score_from_metrics m = (metric_name c, score c).
Proof.
  unfold _find_candidates. rewrite list_elem_of_omap. split.
  - intros (mp & [Hjson _]%elem_of_scan & Hc).
    apply candidate_of_Some in Hc as (<- & Hpath & Hblob & Hm). done.
  - intros (Hjson & Hpath & Hblob & m & Hm & Hs). exists (metrics_path c). split.
    + apply elem_of_scan. eauto.
    + unfold candidate_of. rewrite <- Hpath, decide_True by done.
      rewrite Hm. simpl. rewrite Hs. by destruct c.
Qed.

Lemma candidate_path_inj (d : Dirs) (c1 c2 : Candidate) :
  c1 ∈ _find_candidates d → c2 ∈ _find_candidates d →
  metrics_path c1 = metrics_path c2 → c1 = c2.
Proof.
  intros (_ & Hp1 & _ & m1 & Hm1 & Hs1)%elem_of_find_candidates
         (_ & Hp2 & _ & m2 & Hm2 & Hs2)%elem_of_find_candidates Heq.
  rewrite Heq in *. assert (m1 = m2) as -> by congruence.
  destruct c1, c2; simpl in *. congruence.
Qed.

(** ** The selection *)

(** [best] has the highest score of the candidates, and of those with
    that score the metrics file name that comes first. *)
Definition selected (l : list Candidate) (best : Candidate) : Prop :=
  best ∈ l ∧
  (∀ c, c ∈ l → (score c <= score best)%Q) ∧
  (∀ c, c ∈ l → (score c == score best)%Q → c ≠ best →
        String.ltb (metrics_path best) (metrics_path c) = true).

Lemma head_selected (d : Dirs) (best : Candidate) :
  Py.getitem (Py.sorted score_ltb true (_find_candidates d)) 0 = Ok best →
  selected (_find_candidates d) best.
Proof.
  intros Hbest. pose proof (find_candidates_sorted d) as Hsorted.
  apply (sorted_reverse_head score) in Hbest as (l1 & l2 & Hsplit & H1 & H2).
  rewrite Hsplit in *. split_and!.
  - apply elem_of_app. right. left.
  - intros c [Hc|[->|Hc]%elem_of_cons]%elem_of_app.
    + eapply Forall_forall in H1; [|done]. by apply Qlt_le_weak.
    + apply Qle_refl.
    + by eapply Forall_forall in H2.
  - intros c [Hc|[->|Hc]%elem_of_cons]%elem_of_app Heq Hne.
    + eapply Forall_forall in H1; [|done]. simpl in H1.
      rewrite Heq in H1. by apply Qlt_irrefl in H1.
    + done.
    + apply StronglySorted_app_1_r, StronglySorted_cons in Hsorted as [Hall _].
      by eapply Forall_forall in Hall.
Qed.

Lemma selected_unique (d : Dirs) (b1 b2 : Candidate) :
  selected (_find_candidates d) b1 → selected (_find_candidates d) b2 → b1 = b2.
Proof.
  intros (Hin1 & Hmax1 & Htie1) (Hin2 & Hmax2 & Htie2).
  destruct (decide (metrics_path b1 = metrics_path b2)) as [Heq|Hne].
  { by eapply candidate_path_inj. }
  assert (b1 ≠ b2) as Hne' by congruence.
  assert (score b1 == score b2)%Q as Hs by (apply Qle_antisym; auto).
  exfalso. apply (string_ltb_asym (metrics_path b1) (metrics_path b2)).
  - apply Htie1; [done| |done]. by symmetry.
  - apply Htie2; [done|done|]. congruence.
Qed.

Lemma selected_head (d : Dirs) (best : Candidate) :
  selected (_find_candidates d) best →
  Py.getitem (Py.sorted score_ltb true (_find_candidates d)) 0 = Ok best.
Proof.
  intros Hsel.
  destruct (sorted_reverse_head_exists score (_find_candidates d)) as [b Hb].
  { destruct Hsel as [Hin _]. intros Hnil. rewrite Hnil in Hin.
    by apply elem_of_nil in Hin. }
  unfold score_ltb, key_ltb in *. rewrite Hb. f_equal.
  eapply selected_unique; [|done]. by apply head_selected.
Qed.

(** The directories after the two copies. *)
Definition promoted (d : Dirs) (blob : string) (m : gmap string json) : Dirs :=
  mkDirs (models_root d) (metrics_root d)
    (<[prod_model_name := blob]> (models d))
    (<[prod_metrics_name := m]> (metrics d)).

(** The three ways [promote_model] can go. *)
Lemma promote_model_cases (d : Dirs) :
  (_find_candidates d = [] ∧
   ∃ msg, promote_model d = (Raise (FileNotFoundError msg), d)) ∨
  (∃ best, selected (_find_candidates d) best ∧
     ((metrics_path best = prod_metrics_name ∧
       ∃ msg, promote_model d = (Raise (SameFileError msg), d)) ∨
      (metrics_path best ≠ prod_metrics_name ∧
       ∃ blob m, models d !! model_path best = Some blob ∧
         metrics d !! metrics_path best = Some m ∧
         promote_model d =
           (Ok (mkPromotion (model_path best) (metrics_path best)
                  (metric_name best) (score best)
                  (models_root d +:+ "/" +:+ prod_model_name)
                  (metrics_root d +:+ "/" +:+ prod_metrics_name)),
            promoted d blob m)))).
Proof.
  unfold promote_model.
  destruct (_find_candidates d) as [|c0 cs] eqn:Hl; [left; eauto|]. right.
  destruct (sorted_reverse_head_exists score (c0 :: cs)) as [best Hbest]; [done|].
  rewrite <- Hl in Hbest. pose proof (head_selected d best Hbest) as Hsel.
  rewrite Hl in Hbest. unfold score_ltb, key_ltb in *. rewrite Hbest.
  rewrite <- Hl in *. exists best. split; [done|].
  destruct Hsel as [Hin _].
  apply elem_of_find_candidates in Hin as (Hjson & Hpath & [blob Hblob] & m & Hm & _).
  pose proof (stem_prod (metrics_path best) Hjson) as Hprod.
  rewrite <- Hpath in Hprod. unfold copy2.
  destruct (decide (model_path best = prod_model_name)) as [Heq|Hne].
  - left. split; [by apply Hprod|]. eauto.
  - right. assert (metrics_path best ≠ prod_metrics_name) as Hne'.
    { intros Heq. by apply Hne, Hprod. }
    split; [done|]. rewrite Hblob, decide_False, Hm by done.
    exists blob, m. done.
Qed.


(** X12.  The candidates are exactly the pairs of a file [<stem>.json] of
    the metrics directory and the file [<stem>.joblib] of the models
    directory, one for each such metrics file, scored by
    [_score_from_metrics] on the file's content. *)
Theorem find_candidates_exactly (d : Dirs) :
  (∀ c, c ∈ _find_candidates d ↔
     is_json (metrics_path c) = true ∧
     model_path c = (stem (metrics_path c) +:+ ".joblib")%string ∧
     is_Some (models d !! model_path c) ∧
     ∃ m, metrics d !! metrics_path c = Some m ∧
          _score_from_metrics m = (metric_name c, score c)) ∧
  NoDup (metrics_path <$> _find_candidates d).
Proof.
  split; [apply elem_of_find_candidates|].
  pose proof (find_candidates_sorted d) as Hs.
  induction Hs as [|c l Hs IH Hall]; csimpl; constructor; [|done].
  intros (c' & Heq & Hc')%list_elem_of_fmap.
  eapply Forall_forall in Hall; [|done]. rewrite Heq in Hall.
  by apply (string_ltb_asym _ _ Hall).
Qed.


(** X14.  A promotion that succeeds writes the two alias files and
    nothing else: every other file of both directories is what it was
    (the promoted originals are still there), the aliases hold the
    content of the promoted pair, and the paths are unchanged. *)
Theorem promote_writes_aliases_only (d d' : Dirs) (promo : Promotion) :
  promote_model d = (Ok promo, d') →
  models_root d' = models_root d ∧ metrics_root d' = metrics_root d ∧
  (∀ name, name ≠ prod_model_name → models d' !! name = models d !! name) ∧
  (∀ name, name ≠ prod_metrics_name → metrics d' !! name = metrics d !! name) ∧
  promoted_from_model promo ≠ prod_model_name ∧
  promoted_from_metrics promo ≠ prod_metrics_name ∧
  is_Some (models d !! promoted_from_model promo) ∧
  models d' !! prod_model_name = models d !! promoted_from_model promo ∧
  models d' !! promoted_from_model promo = models d !! promoted_from_model promo ∧
  is_Some (metrics d !! promoted_from_metrics promo) ∧
  metrics d' !! prod_metrics_name = metrics d !! promoted_from_metrics promo ∧
  metrics d' !! promoted_from_metrics promo = metrics d !! promoted_from_metrics promo.
Proof.
  intros Hok.
  destruct (promote_model_cases d)
    as [[Hnil [msg Hp]]|(best & Hsel & [[Heq [msg Hp]]|(Hne & blob & m & Hb & Hm & Hp)])];
    rewrite Hp in Hok; [done|done|]. injection Hok as <- <-. simpl.
  assert (model_path best ≠ prod_model_name) as Hne'.
  { destruct Hsel as [Hin _].
    apply elem_of_find_candidates in Hin as (Hjson & Hpath & _).
    rewrite Hpath. intros Heq. by apply Hne, stem_prod. }
  split_and!; try done.
  - intros name Hname. by rewrite lookup_insert_ne.
  - intros name Hname. by rewrite lookup_insert_ne.
  - by rewrite lookup_insert_eq, Hb.
  - by rewrite lookup_insert_ne.
  - by rewrite lookup_insert_eq, Hm.
  - by rewrite lookup_insert_ne.
Qed.



Lemma promote_writes_aliases_only_witness :
  models_root shelf_after = models_root shelf ∧
  metrics_root shelf_after = metrics_root shelf ∧
  (∀ name, name ≠ prod_model_name → models shelf_after !! name = models shelf !! name) ∧
  (∀ name, name ≠ prod_metrics_name →
           metrics shelf_after !! name = metrics shelf !! name) ∧
  promoted_from_model shelf_promotion ≠ prod_model_name ∧
  promoted_from_metrics shelf_promotion ≠ prod_metrics_name ∧
  is_Some (models shelf !! promoted_from_model shelf_promotion) ∧
  models shelf_after !! prod_model_name =
    models shelf !! promoted_from_model shelf_promotion ∧
  models shelf_after !! promoted_from_model shelf_promotion =
    models shelf !! promoted_from_model shelf_promotion ∧
  is_Some (metrics shelf !! promoted_from_metrics shelf_promotion) ∧
  metrics shelf_after !! prod_metrics_name =
    metrics shelf !! promoted_from_metrics shelf_promotion ∧
  metrics shelf_after !! promoted_from_metrics shelf_promotion =
    metrics shelf !! promoted_from_metrics shelf_promotion.
Proof.
  apply (promote_writes_aliases_only shelf shelf_after shelf_promotion).
  vm_compute. reflexivity.
Defined.

(** ** Promoting again *)





(** ** From training to promotion *)

(** [_artifact_names] of the training stages, the time stamp made a
    parameter. *)
Definition _artifact_names (prefix stamp : string) : string * string :=
  ((prefix +:+ "_" +:+ stamp) +:+ ".joblib", (prefix +:+ "_" +:+ stamp) +:+ ".json")%string.

Lemma string_leb_refl (s : string) : String.leb s s = true.
Proof.
  apply string_ltb_false. destruct (String.ltb s s) eqn:Hlt; [|done].
  destruct (string_ltb_asym _ _ Hlt Hlt).
Qed.

(** X16.  When the metrics file of every candidate is a document written
    by a training stage, all candidates score -1 and the promotion goes
    to the one whose metrics file name is first in the order of the scan,
    whatever the metrics inside say. *)
Theorem promote_trained_takes_first (d d' : Dirs) (promo : Promotion) :
  (∀ c, c ∈ _find_candidates d →
     ∃ model_type artifact train_rows test_rows rate_train rate_test evaluated,
       metrics d !! metrics_path c =
         Some (meta model_type artifact train_rows test_rows
                 rate_train rate_test evaluated)) →
  promote_model d = (Ok promo, d') →
  metric_used promo = "unknown"%string ∧ promoted_score promo = (-1)%Q ∧
  ∀ c, c ∈ _find_candidates d →
    String.leb (promoted_from_metrics promo) (metrics_path c) = true.
Proof.
  intros Htrained Hok.
  assert (∀ c, c ∈ _find_candidates d →
            metric_name c = "unknown"%string ∧ score c = (-1)%Q) as Hscore.
  { intros c Hc.
    destruct (Htrained c Hc) as (mt & art & n1 & n2 & r1 & r2 & ev & Hdoc).
    by eapply trained_candidate_score. }
  destruct (promote_model_cases d)
    as [[Hnil [msg Hp]]|(best & Hsel & [[Heq [msg Hp]]|(Hne & blob & m & Hb & Hm & Hp)])];
    rewrite Hp in Hok; [done|done|]. injection Hok as <- <-.
  destruct Hsel as (Hin & Hmax & Htie). simpl.
  destruct (Hscore best Hin) as [Hname Hbest]. split_and!; [done|done|].
  intros c Hc. destruct (decide (metrics_path c = metrics_path best)) as [->|Hneq].
  - apply string_leb_refl.
  - apply string_ltb_leb, Htie; [done| |by intros ->].
    destruct (Hscore c Hc) as [_ ->]. by rewrite Hbest.
Qed.

(** X17.  The pair of files a training stage writes under the names of
    [_artifact_names] is found by the scan as a candidate, for every
    prefix and time stamp, and it competes as metric "unknown" with
    score -1. *)
Theorem trained_pair_is_candidate (d : Dirs) (prefix stamp blob : string)
    (model_type artifact : string) (train_rows test_rows : Z)
    (rate_train rate_test : Q) (evaluated : list (string * json)) :
  models d !! (_artifact_names prefix stamp).1 = Some blob →
  metrics d !! (_artifact_names prefix stamp).2 =
    Some (meta model_type artifact train_rows test_rows rate_train rate_test evaluated) →
  mkCandidate (_artifact_names prefix stamp).1 (_artifact_names prefix stamp).2
    (-1) "unknown" ∈ _find_candidates d.
Proof.
  unfold _artifact_names. cbn [fst snd]. intros Hblob Hdoc.
  assert ((prefix +:+ "_" +:+ stamp)%string ≠ ""%string) as Hne.
  { intros Heq. apply (f_equal String.length) in Heq.
    rewrite !string_length_app in Heq. simpl in Heq. lia. }
  apply elem_of_find_candidates. cbn [metrics_path model_path score metric_name].
  rewrite stem_app by done. split_and!.
  - apply is_json_app.
  - done.
  - by rewrite Hblob.
  - eexists. split; [exact Hdoc|]. reflexivity.
Qed.

(** Two runs of [train_baseline], the later one with the better model. *)
Definition trained : Dirs :=
  mkDirs "artifacts/models" "artifacts/metrics"
    (list_to_map
       [("baseline_logreg_20250101T000000Z.joblib", "first run");
        ("baseline_logreg_20250201T000000Z.joblib", "second run")]%string)
    (list_to_map
       [("baseline_logreg_20250101T000000Z.json",
         baseline_meta "baseline_logreg_20250101T000000Z.joblib" 800 200
           (1 # 10) (1 # 10) (evaluation (3 # 10) (6 # 10) JNull JNull JNull));
        ("baseline_logreg_20250201T000000Z.json",
         baseline_meta "baseline_logreg_20250201T000000Z.joblib" 900 220
           (1 # 10) (1 # 10) (evaluation (7 # 10) (9 # 10) JNull JNull JNull))]%string).

Definition trained_promotion : Promotion :=
  mkPromotion "baseline_logreg_20250101T000000Z.joblib"
    "baseline_logreg_20250101T000000Z.json" "unknown" (-1)
    "artifacts/models/production_latest.joblib"
    "artifacts/metrics/production_latest.json".

Definition trained_after : Dirs := Eval vm_compute in (promote_model trained).2.

Lemma promote_trained_takes_first_witness :
  metric_used trained_promotion = "unknown"%string ∧
  promoted_score trained_promotion = (-1)%Q ∧
  ∀ c, c ∈ _find_candidates trained →
    String.leb (promoted_from_metrics trained_promotion) (metrics_path c) = true.
Proof.
  apply (promote_trained_takes_first trained trained_after trained_promotion).
  - intros c Hc.
    assert (_find_candidates trained =
            [mkCandidate "baseline_logreg_20250101T000000Z.joblib"
               "baseline_logreg_20250101T000000Z.json" (-1) "unknown";
             mkCandidate "baseline_logreg_20250201T000000Z.joblib"
               "baseline_logreg_20250201T000000Z.json" (-1) "unknown"]) as Hl
      by (vm_compute; reflexivity).
    rewrite Hl in Hc. clear Hl.
    apply elem_of_cons in Hc as [->|Hc];
      [|apply elem_of_cons in Hc as [->|Hc]; [|apply elem_of_nil in Hc; destruct Hc]].
    + exists "logistic_regression"%string,
        "baseline_logreg_20250101T000000Z.joblib"%string, 800%Z, 200%Z,
        (1 # 10)%Q, (1 # 10)%Q, (evaluation (3 # 10) (6 # 10) JNull JNull JNull).
      reflexivity.
    + exists "logistic_regression"%string,
        "baseline_logreg_20250201T000000Z.joblib"%string, 900%Z, 220%Z,
        (1 # 10)%Q, (1 # 10)%Q, (evaluation (7 # 10) (9 # 10) JNull JNull JNull).
      reflexivity.
  - vm_compute. reflexivity.
Defined.

Lemma trained_pair_is_candidate_witness :
  mkCandidate (_artifact_names "baseline_logreg" "20250201T000000Z").1
    (_artifact_names "baseline_logreg" "20250201T000000Z").2
    (-1) "unknown" ∈ _find_candidates trained.
Proof.
  apply (trained_pair_is_candidate trained "baseline_logreg" "20250201T000000Z"
           "second run" "logistic_regression"
           "baseline_logreg_20250201T000000Z.joblib" 900 220 (1 # 10) (1 # 10)
           (evaluation (7 # 10) (9 # 10) JNull JNull JNull)).
  - reflexivity.
  - reflexivity.
Defined.

(** Promoted once, a pair whose name comes after the alias runs into the
    alias on the next promotion. *)
Example promote_again_same_file :
  let d := mkDirs "artifacts/models" "artifacts/metrics"
             {[ "tuned.joblib"%string := "tuned model"%string ]}
             {[ "tuned.json"%string := {[ "pr_auc"%string := JFloat (9 # 10) ]} ]} in
  ∃ promo msg,
    (promote_model d).1 = Ok promo ∧
    (promote_model (promote_model d).2).1 = Raise (SameFileError msg).
Proof. do 2 eexists. split; vm_compute; reflexivity. Qed.

End Promoter.

(** * Batch scorer: [inference/batch_score.py] *)

Module Scorer.

(** ** [_pick_as_of_date] *)

(** [Series.max()] and [Series.min()] of a datetime column skip [NaT];
    a column with nothing else yields [NaT]. *)
Definition series_max (col : list (option Timestamp)) : option Timestamp :=
  foldr (λ cell acc,
           match cell, acc with
           | Some t, Some a => Some (Z.max t a)
           | Some t, None => Some t
           | None, _ => acc
           end) None col.

Definition series_min (col : list (option Timestamp)) : option Timestamp :=
  foldr (λ cell acc,
           match cell, acc with
           | Some t, Some a => Some (Z.min t a)
           | Some t, None => Some t
           | None, _ => acc
           end) None col.

(** [.date()] of a timestamp that may be [NaT]. *)
Definition cell_date (cell : option Timestamp) : option Date :=
  match cell with
  | Some t => Some (dt_date t)
  | None => None
  end.

Section Pick.
Context `{Pandas} {P : Type}.

(** [pd.to_datetime(d["as_of_date"], errors="coerce")] *)
Definition parsed_column (df : DataFrame P) : list (option Timestamp) :=
  (λ r, to_datetime (as_of_date r)) <$> rows df.

(** [d["as_of_date"].dt.date.unique()], [NaT] included. *)
Definition distinct_dates (df : DataFrame P) : list (option Date) :=
  unique (cell_date <$> parsed_column df).

Definition not_found_message (df : DataFrame P) (as_of_date : string) : string :=
  ("Requested as_of_date=" +:+ as_of_date +:+ " not found in features. " +:+
   "Available range: " +:+ show_date (cell_date (series_min (parsed_column df))) +:+
   " -> " +:+ show_date (cell_date (series_max (parsed_column df))))%string.

(** [if as_of_date:] holds for a string that is not empty. *)
Definition given (as_of_date : option string) : option string :=
  match as_of_date with
  | Some s => if String.eqb s "" then None else Some s
  | None => None
  end.

Definition _pick_as_of_date (df : DataFrame P) (as_of_date : option string)
  : Result string :=
  if negb (has_as_of_date df) then
    Raise (ValueError "Features must contain 'as_of_date'")
  else
    match given as_of_date with
    | Some s =>
        match to_datetime s with
        | None => Raise (ValueError ("Unknown datetime string format, unable to parse: " +:+ s))
        | Some t =>
            let target := dt_date t in
            if decide (Some target ∈ distinct_dates df) then
              Ok (Calendar.isoformat target)
            else Raise (ValueError (not_found_message df s))
        end
    | None =>
        (* default to latest available date *)
        Ok (show_date (cell_date (series_max (parsed_column df))))
    end.

(** The calendar dates of the pool that parse. *)
Definition pool_dates (df : DataFrame P) : list Date :=
  omap cell_date (parsed_column df).

End Pick.

(** ** [_write_predictions] *)

(** A row of the prediction output: the metadata columns, the risk (NaN
    being [None]) and the rank. *)
Record Prediction (M : Type) : Type := mkPrediction {
  meta_fields : M;
  churn_risk : option Q;
  risk_rank : nat
}.
Arguments mkPrediction {M} _ _ _.
Arguments meta_fields {M} _.
Arguments churn_risk {M} _.
Arguments risk_rank {M} _.

(** The order of [sort_values("churn_risk", ascending=False)]: larger
    risks first, NaN last. *)
Definition risk_geb (a b : option Q) : bool :=
  match a, b with
  | Some x, Some y => Qle_bool y x
  | Some _, None => true
  | None, Some _ => false
  | None, None => true
  end.

Section Write.
Context `{Pandas} {M : Type}.

(** [out["churn_risk"] = proba.astype(float)]: the assignment aligns the
    series with the frame on the index labels.  [proba] is the series that
    [batch_score] builds with [pd.Series(proba)], labelled 0, 1, ...; a row
    of [meta] whose label it does not have gets NaN. *)
Definition with_risk (meta : list (nat * M)) (proba : list Q)
  : list (M * option Q) :=
  (λ '(label, m), (m, proba !! label)) <$> meta.

(** [sort_values("churn_risk", ascending=False).reset_index(drop=True)]
    and [out["risk_rank"] = out.index + 1]. *)
Definition ranked (meta : list (nat * M)) (proba : list Q)
  : list (Prediction M) :=
  let out := with_risk meta proba in
  let out := take_rows (sort_indexer risk_geb (snd <$> out)) out in
  imap (λ i '(m, risk), mkPrediction m risk (i + 1)) out.

Definition preview_path (predictions_dir : string) (top_k : Z) (as_of_date : string)
  : string :=
  (predictions_dir +:+ "/churn_top_" +:+ Calendar.digits top_k +:+ "_" +:+
   as_of_date +:+ ".csv")%string.

Definition predictions_path (predictions_dir as_of_date : string) : string :=
  (predictions_dir +:+ "/churn_predictions_" +:+ as_of_date +:+ ".csv")%string.

(** The path returned and the files written, in the order of writing.
    [ensure_dir] makes sure the directory exists and hands its path back. *)
Definition _write_predictions (meta : list (nat * M)) (proba : list Q)
    (predictions_dir as_of_date : string) (top_k : Z)
  : string * list (string * list (Prediction M)) :=
  let out := ranked meta proba in
  let preview :=
    if (0 <? top_k)%Z then
      [(preview_path predictions_dir top_k as_of_date, take (Z.to_nat top_k) out)]
    else [] in
  let out_path := predictions_path predictions_dir as_of_date in
  (out_path, preview ++ [(out_path, out)]).

End Write.

(** ** Properties of [_pick_as_of_date] *)


Lemma series_max_spec (col : list (option Timestamp)) :
  match series_max col with
  | Some t => Some t ∈ col ∧ ∀ t', Some t' ∈ col → (t' ≤ t)%Z
  | None => ∀ t', Some t' ∉ col
  end.
Proof.
  induction col as [|[t|] col IH]; simpl.
  - intros t'. apply not_elem_of_nil.
  - destruct (series_max col) as [a|].
    + destruct IH as [Hin Hmax]. split.
      * destruct (Z.max_spec t a) as [[_ ->]|[_ ->]]; [by right|by left].
      * intros t' [[= ->]|Hin']%elem_of_cons; [lia|].
        specialize (Hmax _ Hin'). lia.
    + split; [by left|]. intros t' [[= ->]|Hin']%elem_of_cons; [lia|].
      by apply IH in Hin'.
  - destruct (series_max col) as [a|].
    + destruct IH as [Hin Hmax]. split; [by right|].
      intros t' [[=]|Hin']%elem_of_cons. by apply Hmax.
    + intros t' [[=]|Hin']%elem_of_cons. by apply IH in Hin'.
Qed.


Section PickFacts.
Context `{Pandas} {P : Type}.
Implicit Types (df : DataFrame P).

Lemma elem_of_pool_dates df (x : Date) :
  x ∈ pool_dates df ↔ ∃ t, Some t ∈ parsed_column df ∧ dt_date t = x.
Proof.
  unfold pool_dates. rewrite list_elem_of_omap. split.
  - intros ([t|] & Hin & [= <-]). eauto.
  - intros (t & Hin & <-). exists (Some t). done.
Qed.





End PickFacts.



(** ** Properties of [_write_predictions] *)


Lemma imap_same {A} (f : nat → A → A) (l : list A) :
  (∀ i x, f i x = x) → imap f l = l.
Proof.
  revert f. induction l as [|x l IH]; intros f Hf; [done|].
  rewrite imap_cons, Hf. f_equal. apply IH. intros i y. apply Hf.
Qed.


Section WriteFacts.
Context `{Pandas} {M : Type}.
Implicit Types (meta : list (nat * M)) (proba : list Q).

(** The rows after [sort_values], before the ranks are attached. *)
Definition sorted_rows meta proba : list (M * option Q) :=
  take_rows (sort_indexer risk_geb (snd <$> with_risk meta proba))
    (with_risk meta proba).

Lemma ranked_rows meta proba :
  (λ p, (meta_fields p, churn_risk p)) <$> ranked meta proba = sorted_rows meta proba.
Proof.
  unfold ranked. fold (sorted_rows meta proba). rewrite fmap_imap.
  apply imap_same. by intros i [m risk].
Qed.



End WriteFacts.



(** The index labels decide which risk a row gets: a cohort that is not
    at the top of the feature pool keeps the labels it had there, and the
    risks, labelled from 0, miss it. *)
Example write_predictions_alignment :
  churn_risk <$> ranked (H:=pandas_stable) [(2, "u1"); (3, "u2")]%string [9 # 10; 1 # 10]
  = [None; None].
Proof. vm_compute. reflexivity. Qed.

(** ** [batch_score] *)

(** What the scoring run can raise besides the errors above: the
    [KeyError] of a column that is not there. *)
Inductive Raised : Type :=
| Builtin (e : Exn)
| KeyError (key : string).

Inductive Outcome (A : Type) : Type :=
| Returned (a : A)
| Failed (r : Raised).
Arguments Returned {A} _.
Arguments Failed {A} _.

(** A cell of the metadata: a value of the feature table, or the day
    that [as_of_date] was turned into. *)
Inductive Cell (V : Type) : Type :=
| Value (v : V)
| Day (d : option Date).
Arguments Value {V} _.
Arguments Day {V} _.

(** The strings that [pd.to_datetime] reads as [NaT] without raising. *)
Definition nat_strings : list string :=
  [""; "NaT"; "nat"; "NAT"; "nan"; "NaN"; "NAN"]%string.

Definition day_of {P} (r : Row (option Date) P) : option Date := as_of_date r.

Definition no_rows_message (chosen : string) : string :=
  ("No feature rows found for as_of_date=" +:+ chosen)%string.

Definition meta_cols : list string :=
  ["user_id"; "as_of_date"; "plan"; "is_paid"; "country"; "marketing_source";
   "days_since_signup"; "days_since_last_activity"]%string.

Definition drop_cols : list string := ["user_id"; "as_of_date"; "signup_date"]%string.

Section Batch.
Context `{Pandas} {V : Type}.

(** The columns of a row other than [as_of_date], by name, in the order
    of the table. *)
#[local] Abbreviation Fields := (list (string * V)).

(** [pd.read_csv]: the records of the file, labelled 0, 1, ... *)
Definition read_csv (has_column : bool) (records : list (string * Fields))
  : DataFrame Fields :=
  mkFrame has_column (imap (λ i rec, mkRow i rec.1 rec.2) records).

(** [f["as_of_date"] = pd.to_datetime(f["as_of_date"], errors="coerce").dt.date] *)
Definition dated (features : DataFrame Fields) : list (Row (option Date) Fields) :=
  (λ r, mkRow (label r) (cell_date (to_datetime (as_of_date r))) (fields r))
    <$> rows features.

(** [_prepare_scoring_frame].  The rows keep the labels they have in the
    feature table.  A date that reads as [NaT] equals no cell. *)
Definition _prepare_scoring_frame (features : DataFrame Fields) (chosen : string)
  : Outcome (list (Row (option Date) Fields)) :=
  if negb (has_as_of_date features) then Failed (KeyError "as_of_date") else
  let f := dated features in
  match to_datetime chosen with
  | Some t =>
      match filter (λ r, day_of r = Some (dt_date t)) f with
      | [] => Failed (Builtin (ValueError (no_rows_message chosen)))
      | day_df => Returned day_df
      end
  | None =>
      if decide (chosen ∈ nat_strings)
      then Failed (Builtin (ValueError (no_rows_message chosen)))
      else Failed (Builtin (ValueError
             ("Unknown datetime string format, unable to parse: " +:+ chosen)))
  end.

Fixpoint assoc (c : string) (l : Fields) : option V :=
  match l with
  | [] => None
  | (k, v) :: l' => if String.eqb k c then Some v else assoc c l'
  end.

(** [day_df[c]] for one row. *)
Definition column (r : Row (option Date) Fields) (c : string) : option (Cell V) :=
  if String.eqb c "as_of_date" then Some (Day (as_of_date r))
  else Value <$> assoc c (fields r).

(** The metadata of a row: the columns of [meta_cols] that the table has,
    in the order of that list. *)
Definition meta_of (r : Row (option Date) Fields) : list (string * Cell V) :=
  omap (λ c, (λ v, (c, v)) <$> column r c) meta_cols.

(** The model's input for a row: what is left without [drop_cols] and
    without the label. *)
Definition X_of (r : Row (option Date) Fields) : Fields :=
  List.filter (λ cv, negb (bool_decide (cv.1 ∈ drop_cols)) &&
                     negb (String.eqb cv.1 "churn_label")) (fields r).

(** [_split_X]: both frames keep the rows and their labels. *)
Definition _split_X (day_df : list (Row (option Date) Fields))
  : list (nat * Fields) * list (nat * list (string * Cell V)) :=
  ((λ r, (label r, X_of r)) <$> day_df, (λ r, (label r, meta_of r)) <$> day_df).

(** [batch_score].  [features_file] is the content of
    [user_features_daily.csv] if the file is there (whether it has the
    column [as_of_date], and its records); [model_file] is the estimator
    stored under the production alias, if that file is there, as a
    function from a row of features to the probability of churn. *)
Definition batch_score (features_dir models_dir predictions_dir : string)
    (features_file : option (bool * list (string * Fields)))
    (model_file : option (Fields → Q)) (request : option string) (top_k : Z)
  : Outcome (string * list (string * list (Prediction (list (string * Cell V))))) :=
  match features_file with
  | None =>
      Failed (Builtin (FileNotFoundError
        ("Missing required file: " +:+ features_dir +:+ "/user_features_daily.csv")))
  | Some (has_column, records) =>
      let features := read_csv has_column records in
      match model_file with
      | None =>
          Failed (Builtin (FileNotFoundError
            ("Missing production model alias: " +:+ models_dir +:+
             "/production_latest.joblib. Run ./scripts/promote_model.sh first.")))
      | Some model =>
          match _pick_as_of_date features request with
          | Raise e => Failed (Builtin e)
          | Ok chosen_date =>
              match _prepare_scoring_frame features chosen_date with
              | Failed r => Failed r
              | Returned day_df =>
                  let '(X, meta) := _split_X day_df in
                  (* pd.Series(model.predict_proba(X)[:, 1]) *)
                  let proba := (λ x, model x.2) <$> X in
                  Returned (_write_predictions meta proba predictions_dir
                              chosen_date top_k)
              end
          end
      end
  end.

(** The rows of a day. *)
Definition cohort_of (features : DataFrame Fields) (d : Date)
  : list (Row (option Date) Fields) :=
  filter (λ r, day_of r = Some d) (dated features).

Lemma cohort_of_nonempty (features : DataFrame Fields) (d : Date) :
  d ∈ pool_dates features ↔ cohort_of features d ≠ [].
Proof.
  unfold cohort_of, pool_dates, parsed_column, dated. split.
  - intros (cell & (r & -> & Hr)%list_elem_of_fmap & Hcell)%list_elem_of_omap Hnil.
    eapply (filter_nil_not_elem_of _ _ _ Hnil); [|by apply list_elem_of_fmap_2].
    done.
  - intros Hne. destruct (filter _ _) as [|r' l] eqn:Hf; [done|].
    assert (r' ∈ filter (λ r, day_of r = Some d)
              ((λ r, mkRow (label r) (cell_date (to_datetime (as_of_date r))) (fields r))
                 <$> rows features)) as Hin by (rewrite Hf; left).
    apply list_elem_of_filter in Hin as [Hday (r & -> & Hr)%list_elem_of_fmap].
    apply list_elem_of_omap. exists (to_datetime (as_of_date r)). split; [|done].
    apply list_elem_of_fmap. by exists r.
Qed.


(** With no day in the pool, the latest day is [NaT]. *)
Lemma pick_latest (features : DataFrame Fields) :
  match series_max (parsed_column features) with
  | Some t => dt_date t ∈ pool_dates features
  | None => pool_dates features = []
  end.
Proof.
  pose proof (series_max_spec (parsed_column features)) as Hspec.
  destruct (series_max _) as [t|].
  - destruct Hspec as [Hin _]. apply elem_of_pool_dates. eauto.
  - destruct (pool_dates features) as [|d l] eqn:Hl; [done|].
    assert (d ∈ pool_dates features) as Hd by (rewrite Hl; left).
    apply elem_of_pool_dates in Hd as (t & Hin & _). by apply Hspec in Hin.
Qed.


(** The output of a run that returns. *)
Lemma batch_score_returned (features_dir models_dir predictions_dir : string)
    (has_column : bool) (records : list (string * Fields)) (model : Fields → Q)
    (request : option string) (top_k : Z) path files :
  batch_score features_dir models_dir predictions_dir (Some (has_column, records))
    (Some model) request top_k = Returned (path, files) →
  ∃ chosen cohort,
    _pick_as_of_date (read_csv has_column records) request = Ok chosen ∧
    _prepare_scoring_frame (read_csv has_column records) chosen = Returned cohort ∧
    path = predictions_path predictions_dir chosen ∧
    let meta := (λ r, (label r, meta_of r)) <$> cohort in
    let proba := (λ r, model (X_of r)) <$> cohort in
    last files = Some (path, ranked meta proba) ∧
    (λ p, (meta_fields p, churn_risk p)) <$> ranked meta proba ≡ₚ
      (λ r, (meta_of r, proba !! label r)) <$> cohort.
Proof.
  unfold batch_score.
  destruct (_pick_as_of_date _ request) as [chosen|] eqn:Hpick; [|done].
  destruct (_prepare_scoring_frame _ chosen) as [cohort|] eqn:Hprep; [|done].
  unfold _split_X, _write_predictions. rewrite <- list_fmap_compose.
  intros [= <- <-]. exists chosen, cohort. split_and!; try done.
  - by rewrite last_snoc.
  - rewrite ranked_rows. unfold sorted_rows. rewrite take_rows_perm.
    unfold with_risk. by rewrite <- list_fmap_compose.
Qed.

(** X19.  The risk that a run of [batch_score] writes for a row of the
    cohort is the probability the model gave for the cohort row whose
    position is that row's index label in the feature file, and NaN when
    the cohort has no such position: the probabilities, a fresh series
    labelled 0, 1, ..., are matched with the rows by label, not by
    position. *)
Theorem batch_score_risks (features_dir models_dir predictions_dir : string)
    (has_column : bool) (records : list (string * Fields)) (model : Fields → Q)
    (request : option string) (top_k : Z) path files :
  batch_score features_dir models_dir predictions_dir (Some (has_column, records))
    (Some model) request top_k = Returned (path, files) →
  ∃ chosen cohort out,
    _pick_as_of_date (read_csv has_column records) request = Ok chosen ∧
    _prepare_scoring_frame (read_csv has_column records) chosen = Returned cohort ∧
    path = predictions_path predictions_dir chosen ∧
    last files = Some (path, out) ∧
    (λ p, (meta_fields p, churn_risk p)) <$> out ≡ₚ
      (λ r, (meta_of r, ((λ r', model (X_of r')) <$> cohort) !! label r)) <$> cohort.
Proof.
  intros (chosen & cohort & Hpick & Hprep & Hpath & Hlast & Hrows)%batch_score_returned.
  by exists chosen, cohort, (ranked ((λ r, (label r, meta_of r)) <$> cohort)
                          ((λ r, model (X_of r)) <$> cohort)).
Qed.
End Batch.

(** ** Labels and positions *)

Lemma StronglySorted_sublist {A} (R : relation A) (l1 l2 : list A) :
  l1 `sublist_of` l2 → StronglySorted R l2 → StronglySorted R l1.
Proof.
  induction 1 as [|x l1 l2 Hsub IH|x l1 l2 Hsub IH]; intros Hs.
  - constructor.
  - apply StronglySorted_inv in Hs as [Hs Hall]. constructor; [by apply IH|].
    apply Forall_forall. intros y Hy. eapply Forall_forall in Hall; [done|].
    by eapply elem_of_sublist.
  - apply StronglySorted_inv in Hs as [Hs _]. by apply IH.
Qed.

Lemma StronglySorted_seq (start len : nat) : StronglySorted lt (seq start len).
Proof.
  revert start. induction len as [|len IH]; intros start; simpl; constructor; [done|].
  apply Forall_forall. intros x Hx%elem_of_seq. lia.
Qed.

(** Increasing labels that stay below their number are 0, 1, ... *)
Lemma sorted_below_seq (l : list nat) :
  StronglySorted lt l → Forall (λ x, x < length l) l → l = seq 0 (length l).
Proof.
  induction l as [|x l IH] using rev_ind; [done|]. intros Hs Hall.
  rewrite length_app in *. simpl in *. rewrite Nat.add_1_r in *.
  apply StronglySorted_app in Hs as (Hlt & Hs & _).
  apply Forall_app in Hall as [Hall Hx]. apply Forall_inv in Hx.
  assert (∀ y, y ∈ l → y < x) as Hbelow.
  { intros y Hy. apply (Hlt y x Hy). by left. }
  assert (l = seq 0 (length l)) as Hl.
  { apply IH; [done|]. apply Forall_forall. intros y Hy.
    specialize (Hbelow y Hy). lia. }
  rewrite seq_S. simpl. rewrite <- Hl. do 2 f_equal.
  destruct (decide (length l = 0)) as [Hz|Hnz]; [lia|].
  assert (length l - 1 ∈ seq 0 (length l)) as Hin by (apply elem_of_seq; lia).
  rewrite <- Hl in Hin. specialize (Hbelow _ Hin). lia.
Qed.

Section BatchFacts.
Context `{Pandas} {V : Type}.
#[local] Abbreviation Fields := (list (string * V)).
Implicit Types (records : list (string * Fields)) (model : Fields → Q).

Lemma dated_labels (has_column : bool) records :
  label <$> dated (read_csv has_column records) = seq 0 (length records).
Proof.
  unfold dated, read_csv. simpl. rewrite <- list_fmap_compose, fmap_imap.
  transitivity (imap (λ j (_ : string * Fields), j) records); [by apply imap_ext|].
  rewrite (imap_seq_0 records (λ j, j)). apply list_fmap_id.
Qed.

Lemma cohort_labels_sorted (has_column : bool) records (d : Date) :
  StronglySorted lt (label <$> cohort_of (read_csv has_column records) d).
Proof.
  eapply StronglySorted_sublist.
  - unfold cohort_of. apply fmap_sublist, sublist_filter.
  - rewrite dated_labels. apply StronglySorted_seq.
Qed.

Lemma prepare_returned (features : DataFrame Fields) (chosen : string) cohort :
  _prepare_scoring_frame features chosen = Returned cohort →
  ∃ t, to_datetime chosen = Some t ∧ cohort = cohort_of features (dt_date t) ∧
       cohort ≠ [].
Proof.
  unfold _prepare_scoring_frame. destruct (has_as_of_date features); simpl; [|done].
  destruct (to_datetime chosen) as [t|]; [|by case_decide].
  fold (cohort_of features (dt_date t)).
  destruct (cohort_of features (dt_date t)) as [|r l] eqn:Hc; [done|].
  intros [= <-]. exists t. by rewrite Hc.
Qed.

(** X20.  When the rows of the cohort are the first rows of the feature
    file, every row is written with its own probability; when they all
    come after as many other rows as the cohort has rows (a file sorted by
    day, scored for a later day that is no larger than what precedes it),
    every risk written is NaN. *)
Theorem batch_score_by_position (features_dir models_dir predictions_dir : string)
    (has_column : bool) records model (request : option string) (top_k : Z)
    path files :
  batch_score features_dir models_dir predictions_dir (Some (has_column, records))
    (Some model) request top_k = Returned (path, files) →
  ∃ chosen cohort out,
    _pick_as_of_date (read_csv has_column records) request = Ok chosen ∧
    _prepare_scoring_frame (read_csv has_column records) chosen = Returned cohort ∧
    last files = Some (path, out) ∧
    ((∀ r, r ∈ cohort → label r < length cohort) →
     (λ p, (meta_fields p, churn_risk p)) <$> out ≡ₚ
       (λ r, (meta_of r, Some (model (X_of r)))) <$> cohort) ∧
    ((∀ r, r ∈ cohort → length cohort ≤ label r) →
     ∀ p, p ∈ out → churn_risk p = None).
Proof.
  intros (chosen & cohort & Hpick & Hprep & Hpath & Hlast & Hrows)%batch_score_returned.
  exists chosen, cohort, (ranked ((λ r, (label r, meta_of r)) <$> cohort)
                            ((λ r, model (X_of r)) <$> cohort)).
  split_and!; try done.
  - intros Hbelow. rewrite Hrows.
    destruct (prepare_returned _ _ _ Hprep) as (t & _ & Hcohort & _).
    assert (label <$> cohort = seq 0 (length cohort)) as Hlabels.
    { rewrite <- (length_fmap label). apply sorted_below_seq.
      - rewrite Hcohort. apply cohort_labels_sorted.
      - rewrite length_fmap. apply Forall_fmap, Forall_forall. intros r Hr.
        by apply Hbelow. }
    erewrite list_fmap_ext; [done|]. intros i r Hr. simpl.
    assert (label r = i) as ->.
    { assert ((label <$> cohort) !! i = Some (label r)) as Hi
        by by rewrite list_lookup_fmap, Hr.
      rewrite Hlabels in Hi. apply lookup_seq in Hi as [Hi _]. by rewrite Hi. }
    by rewrite list_lookup_fmap, Hr.
  - intros Habove p Hp.
    assert ((meta_fields p, churn_risk p) ∈
              (λ p, (meta_fields p, churn_risk p)) <$>
                ranked ((λ r, (label r, meta_of r)) <$> cohort)
                  ((λ r, model (X_of r)) <$> cohort)) as Hin.
    { apply list_elem_of_fmap. by exists p. }
    rewrite Hrows in Hin. apply list_elem_of_fmap in Hin as (r & [= _ ->] & Hr).
    apply lookup_ge_None_2. rewrite length_fmap. by apply Habove.
Qed.

(** X21.  A feature file that has the column but no date that parses:
    with the date left out, [_pick_as_of_date] hands on the string "NaT"
    and the run ends in the ValueError of [_prepare_scoring_frame]; no
    file is written. *)
Theorem batch_score_no_dates (features_dir models_dir predictions_dir : string)
    records model (request : option string) (top_k : Z) :
  pool_dates (read_csv true records) = [] → given request = None →
  _pick_as_of_date (read_csv true records) request = Ok "NaT"%string ∧
  batch_score features_dir models_dir predictions_dir (Some (true, records))
    (Some model) request top_k =
    Failed (Builtin (ValueError "No feature rows found for as_of_date=NaT")).
Proof.
  intros Hpool Hgiven.
  assert (_pick_as_of_date (read_csv true records) request = Ok "NaT"%string) as Hpick.
  { unfold _pick_as_of_date. simpl. rewrite Hgiven.
    pose proof (pick_latest (read_csv true records)) as Hlatest.
    destruct (series_max _) as [t|]; [|done].
    rewrite Hpool in Hlatest. by apply elem_of_nil in Hlatest. }
  split; [done|]. unfold batch_score. rewrite Hpick.
  unfold _prepare_scoring_frame. simpl.
  destruct (to_datetime "NaT") as [t|].
  - fold (cohort_of (read_csv true records) (dt_date t)).
    destruct (cohort_of (read_csv true records) (dt_date t)) as [|r l] eqn:Hc; [done|].
    assert (dt_date t ∈ pool_dates (read_csv true records)) as Hin.
    { apply cohort_of_nonempty. by rewrite Hc. }
    rewrite Hpool in Hin. by apply elem_of_nil in Hin.
  - reflexivity.
Qed.
End BatchFacts.

(** ** A feature file sorted by day *)

(** Two users on two days, the later day last. *)
Definition daily : list (string * list (string * string)) :=
  [("2026-01-01", [("user_id", "u1"); ("plan", "free"); ("churn_label", "0")]);
   ("2026-01-01", [("user_id", "u2"); ("plan", "paid"); ("churn_label", "0")]);
   ("2026-01-02", [("user_id", "u1"); ("plan", "free"); ("churn_label", "1")]);
   ("2026-01-02", [("user_id", "u2"); ("plan", "paid"); ("churn_label", "0")])]%string.

(** A model that goes by the plan. *)
Definition by_plan (x : list (string * string)) : Q :=
  match x with
  | [(_, "free"%string)] => 9 # 10
  | _ => 1 # 10
  end.

Definition daily_run :=
  batch_score (H:=pandas_stable) "data/features" "artifacts/models" "data/predictions"
    (Some (true, daily)) (Some by_plan) None 1.

Definition daily_path : string := "data/predictions/churn_predictions_2026-01-02.csv".

Definition daily_files
  : list (string * list (Prediction (list (string * Cell string)))) :=
  Eval vm_compute in
    match daily_run with
    | Returned (_, files) => files
    | Failed _ => []
    end.

(** The risks of the full output among the files written. *)
Definition written_risks {M}
    (files : list (string * list (Prediction M))) : list (option Q) :=
  match last files with
  | Some (_, out) => churn_risk <$> out
  | None => []
  end.

(** Scored for the first day the file is right, for the second day it
    holds no risk at all. *)
Example daily_risks :
  (∃ path files,
     batch_score (H:=pandas_stable) "data/features" "artifacts/models"
       "data/predictions" (Some (true, daily)) (Some by_plan)
       (Some "2026-01-01"%string) 0 = Returned (path, files) ∧
     written_risks files = [Some (9 # 10); Some (1 # 10)]) ∧
  written_risks daily_files = [None; None].
Proof.
  split; [do 2 eexists; split|]; vm_compute; reflexivity.
Qed.


Lemma batch_score_risks_witness :
  ∃ chosen cohort out,
    _pick_as_of_date (H:=pandas_stable) (read_csv true daily) None = Ok chosen ∧
    _prepare_scoring_frame (H:=pandas_stable) (read_csv true daily) chosen
      = Returned cohort ∧
    daily_path = predictions_path "data/predictions" chosen ∧
    last daily_files = Some (daily_path, out) ∧
    (λ p, (meta_fields p, churn_risk p)) <$> out ≡ₚ
      (λ r, (meta_of r, ((λ r', by_plan (X_of r')) <$> cohort) !! label r)) <$> cohort.
Proof.
  apply (batch_score_risks (H:=pandas_stable) "data/features" "artifacts/models"
           "data/predictions" true daily by_plan None 1 daily_path daily_files).
  vm_compute. reflexivity.
Defined.

Lemma batch_score_by_position_witness :
  ∃ chosen cohort out,
    _pick_as_of_date (H:=pandas_stable) (read_csv true daily) None = Ok chosen ∧
    _prepare_scoring_frame (H:=pandas_stable) (read_csv true daily) chosen
      = Returned cohort ∧
    last daily_files = Some (daily_path, out) ∧
    ((∀ r, r ∈ cohort → label r < length cohort) →
     (λ p, (meta_fields p, churn_risk p)) <$> out ≡ₚ
       (λ r, (meta_of r, Some (by_plan (X_of r)))) <$> cohort) ∧
    ((∀ r, r ∈ cohort → length cohort ≤ label r) →
     ∀ p, p ∈ out → churn_risk p = None).
Proof.
  apply (batch_score_by_position (H:=pandas_stable) "data/features" "artifacts/models"
           "data/predictions" true daily by_plan None 1 daily_path daily_files).
  vm_compute. reflexivity.
Defined.

(** A feature file none of whose dates parses. *)
Definition undated_file : list (string * list (string * string)) :=
  [("n/a", [("user_id", "u1")]); ("soon", [("user_id", "u2")])]%string.

Lemma batch_score_no_dates_witness :
  _pick_as_of_date (H:=pandas_stable) (read_csv true undated_file) None
    = Ok "NaT"%string ∧
  batch_score (H:=pandas_stable) "data/features" "artifacts/models" "data/predictions"
    (Some (true, undated_file)) (Some by_plan) None 50 =
    Failed (Builtin (ValueError "No feature rows found for as_of_date=NaT")).
Proof.
  apply (batch_score_no_dates (H:=pandas_stable) "data/features" "artifacts/models"
           "data/predictions" undated_file by_plan None 50).
  - vm_compute. reflexivity.
  - reflexivity.
Defined.

(** The risks of a run whose cohort comes after as many other rows as it
    has rows. *)
Lemma written_risks_nan `{Pandas} {V : Type}
    (features_dir models_dir predictions_dir : string) (has_column : bool)
    (records : list (string * list (string * V))) (model : list (string * V) → Q)
    (request : option string) (top_k : Z) path files :
  batch_score features_dir models_dir predictions_dir (Some (has_column, records))
    (Some model) request top_k = Returned (path, files) →
  (∀ chosen cohort,
     _pick_as_of_date (read_csv has_column records) request = Ok chosen →
     _prepare_scoring_frame (read_csv has_column records) chosen = Returned cohort →
     ∀ r, r ∈ cohort → length cohort ≤ label r) →
  Forall (λ risk, risk = None) (written_risks files).
Proof.
  intros (chosen & cohort & Hpick & Hprep & Hpath & Hlast & Hrows)%batch_score_returned
         Habove.
  specialize (Habove chosen cohort Hpick Hprep).
  unfold written_risks. rewrite Hlast. apply Forall_fmap, Forall_forall. intros p Hp.
  assert ((meta_fields p, churn_risk p) ∈
            (λ p, (meta_fields p, churn_risk p)) <$>
              ranked ((λ r, (label r, meta_of r)) <$> cohort)
                ((λ r, model (X_of r)) <$> cohort)) as Hin.
  { apply list_elem_of_fmap. by exists p. }
  rewrite Hrows in Hin. apply list_elem_of_fmap in Hin as (r & [= _ Hrisk] & Hr).
  simpl. rewrite Hrisk. apply lookup_ge_None_2. rewrite length_fmap. by apply Habove.
Qed.

(** ** What the run does not look at *)

(** The columns that are neither metadata nor input of the model. *)
Definition unused_cols : list string := ["signup_date"; "churn_label"]%string.

Section Unused.
Context `{Pandas} {V : Type}.
#[local] Abbreviation Fields := (list (string * V)).

(** A row, a record and a file without those columns. *)
Definition scrub (fields : Fields) : Fields :=
  List.filter (λ cv, negb (bool_decide (cv.1 ∈ unused_cols))) fields.

Definition scrub_row (r : Row (option Date) Fields) : Row (option Date) Fields :=
  mkRow (label r) (as_of_date r) (scrub (fields r)).

Definition scrub_file (records : list (string * Fields)) : list (string * Fields) :=
  (λ rec, (rec.1, scrub rec.2)) <$> records.

Lemma filter_fmap_comm {A B} (P : B → Prop) `{∀ x, Decision (P x)} (f : A → B)
    (l : list A) :
  filter P (f <$> l) = f <$> filter (λ x, P (f x)) l.
Proof.
  induction l as [|x l IH]; [done|]. csimpl. rewrite !filter_cons.
  case_decide; csimpl; by rewrite IH.
Qed.

Lemma filter_filter_impl {A} (f g : A → bool) (l : list A) :
  (∀ x, f x = true → g x = true) →
  List.filter f (List.filter g l) = List.filter f l.
Proof.
  intros Himpl. induction l as [|x l IH]; [done|]. simpl.
  destruct (g x) eqn:Hg; simpl.
  - by rewrite IH.
  - destruct (f x) eqn:Hf; [|done]. apply Himpl in Hf. congruence.
Qed.

Lemma assoc_scrub (c : string) (fields : Fields) :
  c ∉ unused_cols → assoc c (scrub fields) = assoc c fields.
Proof.
  intros Hc. unfold scrub. induction fields as [|[k v] fields IH]; [done|].
  simpl. destruct (bool_decide (k ∈ unused_cols)) eqn:Hk; simpl.
  - apply bool_decide_eq_true in Hk.
    destruct (String.eqb_spec k c) as [->|]; [done|]. apply IH.
  - by rewrite IH.
Qed.

Lemma X_of_scrub (r : Row (option Date) Fields) : X_of (scrub_row r) = X_of r.
Proof.
  unfold X_of, scrub_row, scrub. simpl. apply filter_filter_impl.
  intros [c v]. simpl. intros [Hdrop Hlabel]%andb_true_iff.
  apply negb_true_iff, bool_decide_eq_false in Hdrop.
  apply negb_true_iff, String.eqb_neq in Hlabel.
  apply negb_true_iff, bool_decide_eq_false.
  unfold unused_cols, drop_cols in *. rewrite !elem_of_cons, elem_of_nil in *.
  tauto.
Qed.

Lemma meta_of_scrub (r : Row (option Date) Fields) : meta_of (scrub_row r) = meta_of r.
Proof.
  unfold meta_of. apply list_omap_ext, Forall2_same_length_lookup_2; [done|].
  intros i c c' Hc Hc'. assert (c' = c) as -> by congruence.
  unfold column, scrub_row. simpl.
  destruct (String.eqb c "as_of_date"); [done|].
  rewrite assoc_scrub; [done|].
  apply list_elem_of_lookup_2 in Hc. unfold meta_cols, unused_cols in *.
  rewrite !elem_of_cons, elem_of_nil in *.
  intros [->|[->|[]]]; repeat destruct Hc as [Hc|Hc]; done.
Qed.

Lemma split_X_scrub (day_df : list (Row (option Date) Fields)) :
  _split_X (scrub_row <$> day_df) = _split_X day_df.
Proof.
  unfold _split_X. rewrite <- !list_fmap_compose. f_equal.
  - apply list_fmap_ext. intros i r _. simpl. by rewrite X_of_scrub.
  - apply list_fmap_ext. intros i r _. simpl. by rewrite meta_of_scrub.
Qed.

Lemma rows_scrub_file (has_column : bool) (records : list (string * Fields)) :
  rows (read_csv has_column (scrub_file records)) =
    (λ r, mkRow (label r) (as_of_date r) (scrub (fields r)))
      <$> rows (read_csv has_column records).
Proof.
  unfold read_csv, scrub_file. simpl. rewrite imap_fmap, fmap_imap. done.
Qed.

Lemma pick_scrub_file (has_column : bool) (records : list (string * Fields))
    (request : option string) :
  _pick_as_of_date (read_csv has_column (scrub_file records)) request =
    _pick_as_of_date (read_csv has_column records) request.
Proof.
  assert (parsed_column (read_csv has_column (scrub_file records)) =
          parsed_column (read_csv has_column records)) as Hparsed.
  { unfold parsed_column. rewrite rows_scrub_file, <- list_fmap_compose. done. }
  unfold _pick_as_of_date, distinct_dates, not_found_message. by rewrite Hparsed.
Qed.

Lemma prepare_scrub_file (has_column : bool) (records : list (string * Fields))
    (chosen : string) :
  _prepare_scoring_frame (read_csv has_column (scrub_file records)) chosen =
    match _prepare_scoring_frame (read_csv has_column records) chosen with
    | Returned day_df => Returned (scrub_row <$> day_df)
    | Failed r => Failed r
    end.
Proof.
  assert (dated (read_csv has_column (scrub_file records)) =
          scrub_row <$> dated (read_csv has_column records)) as Hdated.
  { unfold dated. rewrite rows_scrub_file, <- !list_fmap_compose. done. }
  unfold _prepare_scoring_frame. rewrite Hdated.
  change (has_as_of_date (read_csv has_column (scrub_file records)))
    with (has_as_of_date (read_csv has_column records)).
  destruct (negb _); [done|]. cbv zeta.
  destruct (to_datetime chosen) as [t|]; [|by case_decide].
  rewrite filter_fmap_comm.
  change (λ x, day_of (scrub_row x) = Some (dt_date t))
    with (λ x : Row (option Date) Fields, day_of x = Some (dt_date t)).
  by destruct (filter _ _).
Qed.

Lemma batch_score_scrub (features_dir models_dir predictions_dir : string)
    (has_column : bool) (records : list (string * Fields)) (model : Fields → Q)
    (request : option string) (top_k : Z) :
  batch_score features_dir models_dir predictions_dir
    (Some (has_column, scrub_file records)) (Some model) request top_k =
  batch_score features_dir models_dir predictions_dir
    (Some (has_column, records)) (Some model) request top_k.
Proof.
  unfold batch_score. rewrite pick_scrub_file.
  destruct (_pick_as_of_date _ request) as [chosen|]; [|done].
  rewrite prepare_scrub_file.
  destruct (_prepare_scoring_frame _ chosen) as [day_df|]; [|done].
  by rewrite split_X_scrub.
Qed.

(** X29.  What [batch_score] returns and writes does not depend on the
    columns [churn_label] and [signup_date] of the feature file: two
    files that are the same apart from these columns give the same
    outcome, with any model.  The label never reaches the model or the
    output. *)
Theorem batch_score_ignores_label (features_dir models_dir predictions_dir : string)
    (has_column : bool) (records records' : list (string * Fields))
    (model : Fields → Q) (request : option string) (top_k : Z) :
  scrub_file records = scrub_file records' →
  batch_score features_dir models_dir predictions_dir
    (Some (has_column, records)) (Some model) request top_k =
  batch_score features_dir models_dir predictions_dir
    (Some (has_column, records')) (Some model) request top_k.
Proof.
  intros Hsame.
  rewrite <- (batch_score_scrub _ _ _ _ records), <- (batch_score_scrub _ _ _ _ records').
  by rewrite Hsame.
Qed.
End Unused.

(** The file [daily] with other labels and a sign-up date. *)
Definition daily_relabelled : list (string * list (string * string)) :=
  [("2026-01-01", [("user_id", "u1"); ("plan", "free"); ("churn_label", "1")]);
   ("2026-01-01", [("user_id", "u2"); ("signup_date", "2025-12-01"); ("plan", "paid")]);
   ("2026-01-02", [("user_id", "u1"); ("plan", "free"); ("churn_label", "0")]);
   ("2026-01-02", [("user_id", "u2"); ("plan", "paid"); ("churn_label", "1")])]%string.

Lemma batch_score_ignores_label_witness :
  batch_score (H:=pandas_stable) "data/features" "artifacts/models" "data/predictions"
    (Some (true, daily)) (Some by_plan) None 1 =
  batch_score (H:=pandas_stable) "data/features" "artifacts/models" "data/predictions"
    (Some (true, daily_relabelled)) (Some by_plan) None 1.
Proof.
  apply (batch_score_ignores_label (H:=pandas_stable) "data/features"
           "artifacts/models" "data/predictions" true daily daily_relabelled
           by_plan None 1).
  vm_compute. reflexivity.
Defined.

End Scorer.

(** * Score proxy: [monitoring/score_proxy.py] and [run_score_proxy.py]

    The scores are reals, as the PSI is; a cell of the [churn_risk]
    column that is empty is [None]. *)

Module Proxy.
Local Open Scope R_scope.

Record ScoreProxy : Type := mkProxy {
  mean : R;
  p50 : R;
  p90 : R;
  p99 : R;
  high_risk_rate : R   (* pct scores >= threshold *)
}.

(** [np.mean] *)
Definition np_mean (l : list R) : R := Drift.np_sum l / INR (length l).

(** [np.quantile(s, q)] for a single [q]. *)
Definition np_quantile (s : list R) (q : R) : R :=
  Drift.quantile_at (Drift.np_sort s) q.

(** [s >= threshold] for one score, as the number [np.mean] takes it for. *)
Definition reaches (threshold v : R) : R := if Rle_dec threshold v then 1 else 0.

(** [summarize_scores]; [churn_risk] is the column of that name of the
    predictions file, [None] when the file has no such column. *)
Definition summarize_scores (churn_risk : option (list (option R))) (threshold : R)
  : Result ScoreProxy :=
  match churn_risk with
  | None => Raise (ValueError "predictions file missing churn_risk column")
  | Some col =>
      let s := Drift.dropna col in
      if decide (length s = 0%nat) then Ok (mkProxy 0 0 0 0 0)
      else Ok (mkProxy (np_mean s)
                 (np_quantile s (50 / 100)) (np_quantile s (90 / 100))
                 (np_quantile s (99 / 100))
                 (np_mean (reaches threshold <$> s)))
  end.

(** The dictionary that [write_proxy] writes and returns. *)
Record Payload : Type := mkPayload {
  predictions : string;
  threshold : R;
  proxy : ScoreProxy
}.

(** [write_proxy]: the payload and the file written. *)
Definition write_proxy (churn_risk : option (list (option R)))
    (predictions_path out_path : string) (threshold : R)
  : Result (Payload * (string * Payload)) :=
  proxy ← summarize_scores churn_risk threshold;
  let payload := mkPayload predictions_path threshold proxy in
  Ok (payload, (out_path, payload)).

(** [run_score_proxy.main].  [read_csv] stands for the predictions
    directory: the [churn_risk] column of the CSV file at a path, if the
    file is there. *)
Definition main (preds_dir metrics_dir : string)
    (read_csv : string → option (option (list (option R))))
  : Result (Payload * (string * Payload)) :=
  let preds := (preds_dir +:+ "/batch_predictions_latest.csv")%string in
  let out := (metrics_dir +:+ "/score_proxy_latest.json")%string in
  match read_csv preds with
  | None => Raise (FileNotFoundError preds)
  | Some churn_risk => write_proxy churn_risk preds out (7 / 10)
  end.

(** ** Properties *)









(** X23.  A directory that holds nothing but the files that
    [_write_predictions] has written does not hold the file that
    [run_score_proxy.main] reads, [batch_predictions_latest.csv]: the
    proxy run ends in FileNotFoundError. *)
Theorem proxy_misses_predictions `{Pandas} {M : Type} (meta : list (nat * M))
    (proba : list Q) (preds_dir metrics_dir as_of_date : string) (top_k : Z)
    (read_csv : string → option (option (list (option R)))) :
  (∀ path, is_Some (read_csv path) →
     path ∈ (Scorer._write_predictions meta proba preds_dir as_of_date top_k).2.*1) →
  main preds_dir metrics_dir read_csv
    = Raise (FileNotFoundError (preds_dir +:+ "/batch_predictions_latest.csv")).
Proof.
  intros Honly. unfold main.
  destruct (read_csv (preds_dir +:+ "/batch_predictions_latest.csv")%string)
    as [col|] eqn:Hread; [|done].
  exfalso. specialize (Honly _ (mk_is_Some _ _ Hread)).
  unfold Scorer._write_predictions in Honly. cbn [snd] in Honly.
  assert (Scorer.predictions_path preds_dir as_of_date
          ≠ (preds_dir +:+ "/batch_predictions_latest.csv")%string) as Hfull.
  { unfold Scorer.predictions_path. intros Heq%String.app_inj. discriminate Heq. }
  assert (Scorer.preview_path preds_dir top_k as_of_date
          ≠ (preds_dir +:+ "/batch_predictions_latest.csv")%string) as Hprev.
  { unfold Scorer.preview_path. intros Heq%String.app_inj. discriminate Heq. }
  destruct (0 <? top_k)%Z; simpl in Honly.
  - apply elem_of_cons in Honly as [Heq|Honly]; [by apply Hprev|].
    apply list_elem_of_singleton in Honly. by apply Hfull.
  - apply list_elem_of_singleton in Honly. by apply Hfull.
Qed.

(** The [churn_risk] column as it is read back from the file. *)
Definition read_back (risks : list (option Q)) : list (option R) :=
  (λ cell : option Q, option_map Q2R cell) <$> risks.

(** X24.  From scoring to monitoring: when the cohort of a run of
    [batch_score] comes after as many other rows of the feature file as
    it has rows, the file written holds no risk, and [summarize_scores]
    on it reports mean, quantiles and high-risk rate all 0, as for an
    empty file, without an error. *)
Theorem misaligned_run_reports_zeros `{Pandas} {V : Type}
    (features_dir models_dir predictions_dir : string) (has_column : bool)
    (records : list (string * list (string * V))) (model : list (string * V) → Q)
    (request : option string) (top_k : Z) path files (threshold : R) :
  Scorer.batch_score features_dir models_dir predictions_dir
    (Some (has_column, records)) (Some model) request top_k
    = Scorer.Returned (path, files) →
  (∀ chosen cohort,
     Scorer._pick_as_of_date (Scorer.read_csv has_column records) request = Ok chosen →
     Scorer._prepare_scoring_frame (Scorer.read_csv has_column records) chosen
       = Scorer.Returned cohort →
     ∀ r, r ∈ cohort → length cohort ≤ label r) →
  summarize_scores (Some (read_back (Scorer.written_risks files))) threshold
    = Ok (mkProxy 0 0 0 0 0).
Proof.
  intros Hrun Habove.
  pose proof (Scorer.written_risks_nan _ _ _ _ _ _ _ _ _ _ Hrun Habove) as Hnan.
  unfold summarize_scores.
  assert (Drift.dropna (read_back (Scorer.written_risks files)) = []) as ->; [|done].
  unfold read_back. induction Hnan as [|risk risks -> _ IH]; [done|]. by csimpl.
Qed.

Definition only_predictions (path : string) : option (option (list (option R))) :=
  if String.eqb path "data/predictions/churn_predictions_2026-01-02.csv"
  then Some (Some [None; None]) else None.

Lemma proxy_misses_predictions_witness :
  main "data/predictions" "artifacts/metrics" only_predictions
    = Raise (FileNotFoundError "data/predictions/batch_predictions_latest.csv").
Proof.
  apply (proxy_misses_predictions (H:=pandas_stable) (M:=unit) [] []
           "data/predictions" "artifacts/metrics" "2026-01-02" 0 only_predictions).
  intros path [col Hcol]. unfold only_predictions in Hcol.
  destruct (String.eqb_spec path "data/predictions/churn_predictions_2026-01-02.csv")
    as [->|]; [|done].
  apply list_elem_of_singleton. reflexivity.
Defined.

Lemma misaligned_run_reports_zeros_witness :
  summarize_scores (Some (read_back (Scorer.written_risks Scorer.daily_files))) (7 / 10)
    = Ok (mkProxy 0 0 0 0 0).
Proof.
  apply (misaligned_run_reports_zeros (H:=pandas_stable) "data/features"
           "artifacts/models" "data/predictions" true Scorer.daily Scorer.by_plan
           None 1 Scorer.daily_path Scorer.daily_files (7 / 10)).
  - vm_compute. reflexivity.
  - intros chosen cohort Hpick Hprep r Hr.
    assert (chosen = "2026-01-02"%string) as ->.
    { assert (Scorer._pick_as_of_date (H:=pandas_stable)
                (Scorer.read_csv true Scorer.daily) None = Ok "2026-01-02"%string)
        as Hc by (vm_compute; reflexivity).
      congruence. }
    assert (Scorer._prepare_scoring_frame (H:=pandas_stable)
              (Scorer.read_csv true Scorer.daily) "2026-01-02"
            = Scorer.Returned
                [mkRow 2 (Some 20455%Z)
                   [("user_id", "u1"); ("plan", "free"); ("churn_label", "1")];
                 mkRow 3 (Some 20455%Z)
                   [("user_id", "u2"); ("plan", "paid"); ("churn_label", "0")]]%string)
      as Hc by (vm_compute; reflexivity).
    rewrite Hc in Hprep. injection Hprep as <-.
    apply elem_of_cons in Hr as [->|Hr]; [simpl; lia|].
    apply list_elem_of_singleton in Hr as ->. simpl. lia.
Defined.

End Proxy.

(** * API: [api/app.py] and [monitoring/api_metrics.py]

    The module-level variables [_model] and [_model_meta] and the two
    Prometheus counters make the state; a handler takes the state and
    what is under the production alias at the time of the request, and
    gives the state afterwards and the response.  Requests are those that
    FastAPI lets through to a handler. *)

Module Api.

Definition Features : Type := gmap string Promoter.json.

(** A fitted estimator: [float(predict_proba(x)[:, 1])] for the one-row
    frame of a request, [None] where that raises. *)
Definition Estimator : Type := Features → option Q.

(** What [joblib.load] returns for the file under the alias: the
    dictionary with the key "model" that the training stages dump, or
    an estimator saved as such. *)
Inductive Artifact : Type :=
| Bundle (model : Estimator)
| Bare (model : Estimator).

(** [joblib.dump({"model": model, "cat_cols": ..., ...}, model_path)] of
    [train_baseline] and [train_candidate]; [promote_model] copies the
    file as it is. *)
Definition dumped_by_training (model : Estimator) : Artifact := Bundle model.

Record State : Type := mkState {
  _model : option Artifact;
  _model_meta : gmap string string;
  PREDICTION_COUNT : nat;
  (* one entry (method, path, status) for each increment *)
  REQUEST_COUNT : list (string * string * Z)
}.

Definition initial : State := mkState None ∅ 0 [].

Inductive Request : Type :=
| Live
| Ready
| Health
| Metrics
| Predict (user_id : string) (features : Features).

Inductive Body : Type :=
| StatusLive
| StatusReady (model : option string)
| Exposition (predictions : nat) (requests : list (string * string * Z))
| PredictResponse (user_id : string) (churn_risk : Q) (model_path : string)
| Detail (detail : string).

Record Response : Type := mkResponse {
  status_code : Z;
  body : Body
}.

Section App.
(** [cfg["paths"]["models"]] *)
Context (models_dir : string).

Definition _production_model_path : string :=
  (models_dir +:+ "/production_latest.joblib")%string.

Definition _load_model_or_raise (alias : option Artifact) (s : State) : Result State :=
  match alias with
  | None =>
      Raise (FileNotFoundError
        ("Missing production model alias: " +:+ _production_model_path +:+
         ". Run promote step (or seed job) first."))
  | Some artifact =>
      Ok (mkState (Some artifact) {[ "model_path"%string := _production_model_path ]}
            (PREDICTION_COUNT s) (REQUEST_COUNT s))
  end.

(** [startup_event].  The assignment in its [except] branch binds a
    local name, the function having no [global] statement: the state is
    as before. *)
Definition startup_event (alias : option Artifact) (s : State) : State :=
  match _load_model_or_raise alias s with
  | Ok s' => s'
  | Raise _ => s
  end.

(** [str(e)] *)
Definition str (e : Exn) : string :=
  match e with
  | ValueError msg | OverflowError msg | IndexError msg
  | FileNotFoundError msg | SameFileError msg => msg
  end.

(** [if _model is None: _load_model_or_raise(cfg)] *)
Definition ensure_model (alias : option Artifact) (s : State) : Result State :=
  match _model s with
  | None => _load_model_or_raise alias s
  | Some _ => Ok s
  end.

Definition ready (alias : option Artifact) (s : State) : State * Response :=
  match ensure_model alias s with
  | Ok s' => (s', mkResponse 200 (StatusReady (_model_meta s' !! "model_path"%string)))
  | Raise e => (s, mkResponse 500 (Detail (str e)))
  end.

Definition predict (alias : option Artifact) (s : State) (user_id : string)
    (features : Features) : State * Response :=
  match ensure_model alias s with
  | Raise e => (s, mkResponse 400 (Detail (str e)))
  | Ok s' =>
      match _model s' with
      | Some (Bare model) =>
          match model features with
          | Some proba =>
              (mkState (_model s') (_model_meta s') (S (PREDICTION_COUNT s'))
                 (REQUEST_COUNT s'),
               mkResponse 200 (PredictResponse user_id proba _production_model_path))
          | None => (s', mkResponse 400 (Detail "predict_proba raised"))
          end
      | Some (Bundle _) =>
          (s', mkResponse 400 (Detail "'dict' object has no attribute 'predict_proba'"))
      | None =>
          (s', mkResponse 400
                 (Detail "'NoneType' object has no attribute 'predict_proba'"))
      end
  end.

Definition handle (alias : option Artifact) (s : State) (req : Request)
  : State * Response :=
  match req with
  | Live => (s, mkResponse 200 StatusLive)
  | Ready | Health => ready alias s
  | Metrics => (s, mkResponse 200 (Exposition (PREDICTION_COUNT s) (REQUEST_COUNT s)))
  | Predict user_id features => predict alias s user_id features
  end.

Definition route (req : Request) : string * string :=
  match req with
  | Live => ("GET", "/live")
  | Ready => ("GET", "/ready")
  | Health => ("GET", "/health")
  | Metrics => ("GET", "/metrics")
  | Predict _ _ => ("POST", "/predict")
  end%string.

(** [metrics_middleware]: the request goes to its handler, and the
    request counter of its method, path and status goes up. *)
Definition middleware (alias : option Artifact) (s : State) (req : Request)
  : State * Response :=
  let '(s', response) := handle alias s req in
  (mkState (_model s') (_model_meta s') (PREDICTION_COUNT s')
     (REQUEST_COUNT s' ++ [((route req).1, (route req).2, status_code response)]),
   response).

(** The requests of a run of the process, each with what is under the
    alias when it arrives. *)
Fixpoint serve (trace : list (option Artifact * Request)) (s : State)
  : State * list Response :=
  match trace with
  | [] => (s, [])
  | (alias, req) :: trace' =>
      let '(s1, response) := middleware alias s req in
      let '(s2, responses) := serve trace' s1 in
      (s2, response :: responses)
  end.

(** ** Properties *)

Lemma handle_model (alias : option Artifact) (s : State) (req : Request)
    (a : Artifact) :
  _model s = Some a →
  _model (handle alias s req).1 = Some a ∧
  _model_meta (handle alias s req).1 = _model_meta s.
Proof.
  intros Hm. destruct req; simpl; try done.
  - unfold ready, ensure_model. by rewrite Hm.
  - unfold ready, ensure_model. by rewrite Hm.
  - unfold predict, ensure_model. rewrite Hm. rewrite Hm.
    destruct a as [model|model]; [done|]. by destruct (model features).
Qed.

Lemma middleware_model (alias : option Artifact) (s : State) (req : Request) :
  _model (middleware alias s req).1 = _model (handle alias s req).1 ∧
  _model_meta (middleware alias s req).1 = _model_meta (handle alias s req).1 ∧
  PREDICTION_COUNT (middleware alias s req).1 = PREDICTION_COUNT (handle alias s req).1 ∧
  (middleware alias s req).2 = (handle alias s req).2.
Proof. unfold middleware. by destruct (handle alias s req). Qed.

Lemma serve_cons (alias : option Artifact) (req : Request)
    (trace : list (option Artifact * Request)) (s : State) :
  serve ((alias, req) :: trace) s =
    ((serve trace (middleware alias s req).1).1,
     (middleware alias s req).2 :: (serve trace (middleware alias s req).1).2).
Proof.
  simpl. destruct (middleware alias s req) as [s1 response]. simpl.
  by destruct (serve trace s1).
Qed.

(** X25.  Once a model is loaded the process keeps it: whatever requests
    follow and whatever is put under the alias in the meantime (a
    promotion, say), [_model] and [_model_meta] stay what they are until
    the process is restarted. *)
Theorem model_loaded_once (trace : list (option Artifact * Request)) (s : State)
    (a : Artifact) :
  _model s = Some a →
  _model (serve trace s).1 = Some a ∧
  _model_meta (serve trace s).1 = _model_meta s.
Proof.
  revert s. induction trace as [|[alias req] trace IH]; intros s Hm; [done|].
  rewrite serve_cons. cbn [fst].
  destruct (handle_model alias s req a Hm) as [Hm' Hmeta'].
  destruct (middleware_model alias s req) as (Hm1 & Hmeta1 & _).
  destruct (IH (middleware alias s req).1) as [IH1 IH2]; [congruence|].
  split; [done|]. congruence.
Qed.

(** The artifacts that the training stages write and no others. *)
Definition trained_or_missing (alias : option Artifact) : Prop :=
  alias = None ∨ ∃ model, alias = Some (dumped_by_training model).

(** X26.  With the artifacts that [train_baseline] and [train_candidate]
    dump (a dictionary holding the model) under the alias, the API loads
    the dictionary itself: [/ready] and [/health] answer 200 whenever the
    file is there, every [/predict] is answered 400, and the prediction
    counter never moves. *)
Theorem trained_alias_never_predicts (trace : list (option Artifact * Request))
    (s : State) :
  trained_or_missing (_model s) →
  Forall (λ step, trained_or_missing step.1) trace →
  PREDICTION_COUNT (serve trace s).1 = PREDICTION_COUNT s ∧
  Forall2 (λ step response,
             match step.2 with
             | Predict _ _ => status_code response = 400%Z
             | Ready | Health =>
                 is_Some step.1 → status_code response = 200%Z
             | Live | Metrics => status_code response = 200%Z
             end) trace (serve trace s).2.
Proof.
  revert s. induction trace as [|[alias req] trace IH]; intros s Hs Htrace.
  { split; [done|constructor]. }
  apply Forall_cons in Htrace as [Halias Htrace]. cbn [fst] in Halias.
  rewrite serve_cons. cbn [fst snd].
  destruct (middleware_model alias s req) as (Hm1 & _ & Hc1 & Hr1).
  assert (trained_or_missing (_model (handle alias s req).1) ∧
          PREDICTION_COUNT (handle alias s req).1 = PREDICTION_COUNT s ∧
          match req with
          | Predict _ _ => status_code (handle alias s req).2 = 400%Z
          | Ready | Health => is_Some alias → status_code (handle alias s req).2 = 200%Z
          | Live | Metrics => status_code (handle alias s req).2 = 200%Z
          end) as (Hs' & Hc' & Hresp).
  { destruct s as [m meta pc rc]. unfold trained_or_missing in *. simpl in *.
    destruct Hs as [->|[m0 ->]], Halias as [->|[m1 ->]], req; simpl;
      (split_and!; [by eauto|done|]); try done; by intros [? [=]]. }
  destruct (IH (middleware alias s req).1) as [IHc IHr]; [by rewrite Hm1|done|].
  split; [congruence|]. constructor; [|done]. cbn [fst snd]. by rewrite Hr1.
Qed.

(** Whether a response is a prediction served. *)
Definition served (step : (option Artifact * Request)) (response : Response) : bool :=
  match step.2 with
  | Predict _ _ => (status_code response =? 200)%Z
  | _ => false
  end.

(** X27.  The counters are exact: [PREDICTION_COUNT] goes up by the
    number of [/predict] requests answered 200, and [REQUEST_COUNT] gets
    one increment for each request, in order, labelled with its method,
    its path and the status of its response. *)
Theorem counters_exact (trace : list (option Artifact * Request)) (s : State) :
  let responses := (serve trace s).2 in
  length responses = length trace ∧
  PREDICTION_COUNT (serve trace s).1 =
    PREDICTION_COUNT s +
    length (List.filter (λ pair, served pair.1 pair.2) (zip trace responses)) ∧
  REQUEST_COUNT (serve trace s).1 =
    REQUEST_COUNT s ++
    zip_with (λ step response,
                ((route step.2).1, (route step.2).2, status_code response))
      trace responses.
Proof.
  cbv zeta. revert s. induction trace as [|[alias req] trace IH]; intros s.
  { simpl. split_and!; [done|lia|by rewrite app_nil_r]. }
  rewrite serve_cons. cbn [fst snd].
  destruct (IH (middleware alias s req).1) as (IHl & IHp & IHr).
  assert (PREDICTION_COUNT (middleware alias s req).1 =
            PREDICTION_COUNT s +
            (if served (alias, req) (middleware alias s req).2 then 1 else 0) ∧
          REQUEST_COUNT (middleware alias s req).1 =
            REQUEST_COUNT s ++
            [((route req).1, (route req).2,
              status_code (middleware alias s req).2)]) as [Hp Hr].
  { unfold middleware, served. cbn [snd].
    destruct req; simpl; try (split; [lia|done]).
    - unfold ready. destruct (ensure_model alias s) as [s'|e] eqn:He; simpl;
        [|split; [lia|done]].
      unfold ensure_model in He. destruct (_model s); [by injection He as <-; split; [lia|]|].
      unfold _load_model_or_raise in He. destruct alias; [|done].
      injection He as <-. simpl. split; [lia|done].
    - unfold ready. destruct (ensure_model alias s) as [s'|e] eqn:He; simpl;
        [|split; [lia|done]].
      unfold ensure_model in He. destruct (_model s); [by injection He as <-; split; [lia|]|].
      unfold _load_model_or_raise in He. destruct alias; [|done].
      injection He as <-. simpl. split; [lia|done].
    - unfold predict. destruct (ensure_model alias s) as [s'|e] eqn:He; simpl;
        [|split; [lia|done]].
      assert (PREDICTION_COUNT s' = PREDICTION_COUNT s ∧
              REQUEST_COUNT s' = REQUEST_COUNT s) as [Hp' Hr'].
      { unfold ensure_model in He. destruct (_model s); [by injection He as <-|].
        unfold _load_model_or_raise in He. destruct alias; [|done].
        by injection He as <-. }
      destruct (_model s') as [[m|m]|]; simpl; try (split; [lia|congruence]).
      destruct (m features); simpl; split; (lia || congruence). }
  split_and!.
  - simpl. by rewrite IHl.
  - rewrite IHp, Hp. cbn [zip zip_with List.filter fst snd].
    destruct (served (alias, req) (middleware alias s req).2); simpl; lia.
  - rewrite IHr, Hr. cbn [zip_with fst snd]. by rewrite <- app_assoc.
Qed.
End App.

(** A process started before any model is promoted, then a promotion of
    a trained artifact, then requests. *)
Definition constant_model : Estimator := λ _, Some (1 # 2).

Definition day_one : list (option Artifact * Request) :=
  [(None, Ready);
   (Some (dumped_by_training constant_model), Ready);
   (Some (dumped_by_training constant_model), Predict "u1" ∅);
   (Some (Bare constant_model), Predict "u1" ∅)].

Lemma model_loaded_once_witness :
  _model (serve "artifacts/models" [(Some (Bare constant_model), Predict "u1" ∅)]
            (mkState (Some (dumped_by_training constant_model)) ∅ 0 [])).1
    = Some (dumped_by_training constant_model) ∧
  _model_meta (serve "artifacts/models" [(Some (Bare constant_model), Predict "u1" ∅)]
                 (mkState (Some (dumped_by_training constant_model)) ∅ 0 [])).1
    = ∅.
Proof.
  apply (model_loaded_once "artifacts/models"
           [(Some (Bare constant_model), Predict "u1" ∅)]
           (mkState (Some (dumped_by_training constant_model)) ∅ 0 [])
           (dumped_by_training constant_model)).
  reflexivity.
Defined.

Lemma trained_alias_never_predicts_witness :
  PREDICTION_COUNT (serve "artifacts/models" (take 3 day_one) initial).1
    = PREDICTION_COUNT initial ∧
  Forall2 (λ step response,
             match step.2 with
             | Predict _ _ => status_code response = 400%Z
             | Ready | Health =>
                 is_Some step.1 → status_code response = 200%Z
             | Live | Metrics => status_code response = 200%Z
             end) (take 3 day_one)
    (serve "artifacts/models" (take 3 day_one) initial).2.
Proof.
  apply (trained_alias_never_predicts "artifacts/models" (take 3 day_one) initial).
  - left. reflexivity.
  - unfold day_one. simpl. repeat apply Forall_cons_2; try apply Forall_nil_2.
    + left. reflexivity.
    + right. exists constant_model. reflexivity.
    + right. exists constant_model. reflexivity.
Defined.

(** The statuses of the day: not ready, ready, and then a prediction
    refused although an estimator saved as such has been put under the
    alias in the meantime. *)
Example day_one_statuses :
  status_code <$> (serve "artifacts/models" day_one initial).2 = [500; 200; 400; 400]%Z.
Proof. reflexivity. Qed.

End Api.
